(** * Dashboard client: formatting, telemetry cache and lock-gated form

    A shallow embedding of the browser script of the device dashboard:
    the formatting helpers ([fmtFreq], [fmtBounds], [fmtUptime]), the
    telemetry cache ([meta], [setFreqTemp], [setMetaFull]), the lock and
    unlock flow ([setEditable], [unlockFlow], [lockNow], [initLockUI]),
    the dependent form fields ([setNetworkFieldState],
    [setTimeFieldState]), the configuration submit ([applyConfig]),
    the display clock ([syncClockFromServer],
    [updateGeneralClockTick]), the tabs, the CPU bar
    ([buildCpuSegments], [updateCpuBar] and its animation), the
    connectivity indicator ([pingInternet]) and the log viewer
    ([viewDbLog]).

    JavaScript values are an inductive type; numbers are IEEE 754
    binary64 values in the representation of the Standard Library's
    [SpecFloat] (precision 53, exponent bound 1024), so that [/], [*],
    [-], the comparisons, [Math.floor], [Math.round], [toFixed] and the
    number-to-string conversion are computed as the engine computes
    them.  The document is a finite map from element ids to elements.
    Code that can throw returns an outcome; awaited requests are
    modelled by the result the request settles with. *)

From Stdlib Require Import ZArith Lia Bool List Ascii String SpecFloat.
From stdpp Require Import base option list strings gmap.

Set Warnings "-register-all".
Local Open Scope Z_scope.

(** ** Numbers *)

Module Num.

Definition prec : Z := 53.
Definition emax : Z := 1024.

Definition number := spec_float.

Definition of_Z (z : Z) : number := binary_normalize prec emax z 0 false.

Definition div (x y : number) : number := SFdiv prec emax x y.
Definition mul (x y : number) : number := SFmul prec emax x y.
Definition sub (x y : number) : number := SFsub prec emax x y.
Definition add (x y : number) : number := SFadd prec emax x y.

(** [x <= y], [x >= y], [x > y] of the language: false as soon as one
    side is NaN. *)
Definition le (x y : number) : bool := SFleb x y.
Definition ge (x y : number) : bool := SFleb y x.
Definition gt (x y : number) : bool := SFltb y x.

Definition is_nan (x : number) : bool :=
  match x with S754_nan => true | _ => false end.

Definition is_finite (x : number) : bool :=
  match x with S754_zero _ | S754_finite _ _ _ => true | _ => false end.

(** A binary64 value: the mantissa has at most 53 bits and the exponent
    is the canonical one. *)
Definition valid (x : number) : bool := valid_binary prec emax x.

(** The mathematical value of a finite number is [num / den] with
    [den] a power of two. *)
Definition signed (s : bool) (m : positive) : Z :=
  if s then Z.neg m else Z.pos m.

Definition numer (x : number) : Z :=
  match x with
  | S754_finite s m e => signed s m * 2 ^ Z.max e 0
  | _ => 0
  end.

Definition denom (x : number) : Z :=
  match x with
  | S754_finite _ _ e => 2 ^ Z.max (- e) 0
  | _ => 1
  end.

(** [Math.floor]. *)
Definition floor (x : number) : number :=
  match x with
  | S754_finite s m e =>
      if 0 <=? e then x
      else
        let n := numer x / denom x in
        if n =? 0 then S754_zero false else of_Z n
  | _ => x
  end.

(** [Math.round]: the nearest integer, a tie going towards +infinity;
    a negative argument that rounds to zero gives [-0]. *)
Definition round (x : number) : number :=
  match x with
  | S754_finite s m e =>
      if 0 <=? e then x
      else
        let n := (2 * numer x + denom x) / (2 * denom x) in
        if n =? 0 then S754_zero s else of_Z n
  | _ => x
  end.

End Num.

(** ** The rounding of the binary64 operations, step by step *)

Module Binary.
Import Num.

Definition emin : Z := 3 - emax - prec.

(** The exponent of the binary64 numbers that have [e] binary digits
    before the point. *)
Definition fexp (e : Z) : Z := Z.max (e - prec) emin.

(** By how many bits a mantissa [m] at exponent [e] is too long. *)
Definition excess (m e : Z) : Z := fexp (Zdigits2 m + e) - e.

(** The mantissa, round bit and sticky bit after [m], with what was
    already cut off at [l], is shortened by its excess. *)
Definition shorten (m e : Z) (l : location) : shr_record :=
  Nat.iter (Z.to_nat (excess m e)) shr_1 (shr_record_of_loc m l).

(** The mantissa after rounding to nearest, ties to even, and its
    exponent. *)
Definition rounded (m e : Z) (l : location) : Z :=
  let r := shorten m e l in
  round_nearest_even (shr_m r) (loc_of_shr_record r).

Definition rounded_exp (m e : Z) : Z := e + Z.max (excess m e) 0.

(** The number of sign [s] and value [M * 2 ^ E], for a mantissa [M]
    that rounding has left with at most one bit too many. *)
Definition pack (s : bool) (M E : Z) : number :=
  let n := Z.max (excess M E) 0 in
  match M / 2 ^ n with
  | Z.pos m => if E + n <=? emax - prec then S754_finite s m (E + n)
               else S754_infinity s
  | Z0 => S754_zero s
  | Z.neg _ => S754_nan
  end.

(** The number an integer [k] below [2 ^ 53] is. *)
Definition of_int (k : Z) : number :=
  match k with
  | Z0 => S754_zero false
  | Z.pos p =>
      let d := Z.pos (digits2_pos p) in
      S754_finite false (Pos.shiftl p (Z.to_N (prec - d))) (d - prec)
  | Z.neg p =>
      let d := Z.pos (digits2_pos p) in
      S754_finite true (Pos.shiftl p (Z.to_N (prec - d))) (d - prec)
  end.

(** The value of a finite number in units of [2 ^ emin]. *)
Definition scaled (x : number) : Z :=
  match x with
  | S754_finite s m e => signed s m * 2 ^ (e - emin)
  | _ => 0
  end.

(** The exponent and the dividend of the quotient of two mantissas
    [m1 * 2 ^ e1] and [m2 * 2 ^ e2]. *)
Definition div_exp (m1 e1 m2 e2 : Z) : Z :=
  Z.min (fexp (Zdigits2 m1 + e1 - (Zdigits2 m2 + e2))) (e1 - e2).

Definition dividend (m1 e1 m2 e2 : Z) : Z :=
  m1 * 2 ^ (e1 - e2 - div_exp m1 e1 m2 e2).

End Binary.

(** ** Strings *)

Module Str.

Fixpoint take (n : nat) (s : string) : string :=
  match n, s with
  | S n', String c s' => String c (take n' s')
  | _, _ => EmptyString
  end.

Fixpoint drop (n : nat) (s : string) : string :=
  match n, s with
  | S n', String _ s' => drop n' s'
  | _, _ => s
  end.

Fixpoint repeat (c : ascii) (n : nat) : string :=
  match n with
  | O => EmptyString
  | S n' => String c (repeat c n')
  end.

Definition zero_char : ascii := "0"%char.

Definition digit_char (d : Z) : ascii :=
  Ascii.ascii_of_nat (48 + Z.to_nat d).

Fixpoint digits_go (fuel : nat) (n : Z) (acc : string) : string :=
  match fuel with
  | O => acc
  | S fuel' =>
      let acc' := String (digit_char (n mod 10)) acc in
      if n <? 10 then acc' else digits_go fuel' (n / 10) acc'
  end.

(** The decimal digits of a non-negative integer. *)
Definition of_Z (n : Z) : string :=
  digits_go (S (Z.to_nat (Z.log2 n))) n EmptyString.

(** [s.padStart(2, '0')]. *)
Definition padStart2 (s : string) : string :=
  String.app (repeat zero_char (2 - String.length s)) s.

Fixpoint strip_zeros_rev (l : list ascii) : list ascii :=
  match l with
  | c :: l' => if Ascii.eqb c zero_char then strip_zeros_rev l' else l
  | [] => []
  end.

(** A digit string without its trailing zeros. *)
Definition strip_trailing_zeros (s : string) : string :=
  string_of_list_ascii
    (rev (strip_zeros_rev (rev (list_ascii_of_string s)))).

(** [prefix p s]: [s.startsWith(p)]. *)
Fixpoint prefix (p s : string) : bool :=
  match p, s with
  | EmptyString, _ => true
  | String a p', String b s' => Ascii.eqb a b && prefix p' s'
  | _, _ => false
  end.

(** [s.replace(p, r)] for a string pattern [p]: the first occurrence
    of [p] is replaced, the rest of [s] is kept. *)
Fixpoint replace_first (p r s : string) : string :=
  if prefix p s then String.app r (drop (String.length p) s)
  else
    match s with
    | EmptyString => EmptyString
    | String c s' => String c (replace_first p r s')
    end.

End Str.

Infix "+++" := String.app (at level 60, right associativity).

(** ** Number to string *)

Module NumStr.
Import Num.

(** [N / D < 10 ^ n]. *)
Definition lt_pow10 (N D n : Z) : bool :=
  if 0 <=? n then N <? D * 10 ^ n else N * 10 ^ (- n) <? D.

Fixpoint decade_go (fuel : nat) (N D n : Z) : Z :=
  match fuel with
  | O => n
  | S fuel' => if lt_pow10 N D n then n else decade_go fuel' N D (n + 1)
  end.

(** The [n] with [10 ^ (n - 1) <= N / D < 10 ^ n], for a value of
    [bits] binary digits before the point. *)
Definition decade (N D bits : Z) : Z :=
  decade_go 4 N D ((bits - 1) * 30103 / 100000 - 1).

(** [c * 10 ^ p] compared with [L / Q]. *)
Definition cmp_scaled (c p L Q : Z) : comparison :=
  if 0 <=? p then (c * 10 ^ p * Q ?= L) else (c * Q ?= L * 10 ^ (- p)).

Definition in_interval (c p lo hi Q : Z) (closed : bool) : bool :=
  match cmp_scaled c p lo Q, cmp_scaled c p hi Q with
  | Gt, Lt => true
  | Eq, (Lt | Eq) | Gt, Eq => closed
  | _, _ => false
  end.

(** [| c * 10 ^ p - V / Q |], scaled by a common positive factor. *)
Definition dist_scaled (c p V Q : Z) : Z :=
  if 0 <=? p then Z.abs (c * 10 ^ p * Q - V)
  else Z.abs (c * Q - V * 10 ^ (- p)).

(** The digits of length [k], [k + 1], ... tried in turn: the first
    length at which a decimal [c * 10 ^ p] rounds to the number wins;
    of two candidates the closer one, and the even one on a tie. *)
Fixpoint shortest_go (fuel : nat) (k : Z) (N D n lo hi V Q : Z)
    (closed : bool) : Z * Z :=
  let p := n - k in
  let c := if 0 <=? p then N / (D * 10 ^ p) else N * 10 ^ (- p) / D in
  let ok0 := in_interval c p lo hi Q closed in
  let ok1 := in_interval (c + 1) p lo hi Q closed in
  let pick :=
    match Z.compare (dist_scaled c p V Q) (dist_scaled (c + 1) p V Q) with
    | Lt => c
    | Gt => c + 1
    | Eq => if Z.even c then c else c + 1
    end in
  match fuel with
  | O => (c, p)
  | S fuel' =>
      if ok0 && ok1 then (pick, p)
      else if ok0 then (c, p)
      else if ok1 then (c + 1, p)
      else shortest_go fuel' (k + 1) N D n lo hi V Q closed
  end.

(** The shortest decimal [(c, p)], meaning [c * 10 ^ p], that rounds to
    the positive number of mantissa [m] and exponent [e]. *)
Definition shortest (m : positive) (e : Z) : Z * Z :=
  let N := Z.pos m * 2 ^ Z.max e 0 in
  let D := 2 ^ Z.max (- e) 0 in
  let Q := 4 * D in
  let V := 4 * N in
  let ulp := 4 * 2 ^ Z.max e 0 in
  let hi := V + ulp / 2 in
  let lo :=
    if (Z.pos m =? 2 ^ (prec - 1)) && (3 - emax - prec <? e)
    then V - ulp / 4 else V - ulp / 2 in
  let n := decade N D (Z.pos (digits2_pos m) + e) in
  shortest_go 17 1 N D n lo hi V Q (Z.even (Z.pos m)).

(** The layout of the digits [ds] with decimal exponent [n]: plain
    digits, a decimal point, leading zeros or the exponent notation. *)
Definition layout (ds : string) (n : Z) : string :=
  let k := Z.of_nat (String.length ds) in
  if (k <=? n) && (n <=? 21) then
    ds +++ Str.repeat Str.zero_char (Z.to_nat (n - k))
  else if (0 <? n) && (n <=? 21) then
    Str.take (Z.to_nat n) ds +++ "." +++ Str.drop (Z.to_nat n) ds
  else if (-6 <? n) && (n <=? 0) then
    "0." +++ Str.repeat Str.zero_char (Z.to_nat (- n)) +++ ds
  else
    let e := n - 1 in
    let sg := if e <? 0 then "-" else "+" in
    let mant :=
      if k =? 1 then ds else Str.take 1 ds +++ "." +++ Str.drop 1 ds in
    mant +++ "e" +++ sg +++ Str.of_Z (Z.abs e).

Definition pos_to_string (m : positive) (e : Z) : string :=
  let N := Z.pos m * 2 ^ Z.max e 0 in
  let D := 2 ^ Z.max (- e) 0 in
  if (N mod D =? 0) && (N / D <? 2 ^ prec) then Str.of_Z (N / D)
  else
    let '(c, p) := shortest m e in
    let all := Str.of_Z c in
    layout (Str.strip_trailing_zeros all) (p + Z.of_nat (String.length all)).

(** [String(x)] for a number: an integer below [2 ^ 53] is printed
    with all its digits, any other number with the shortest digits
    that identify it. *)
Definition to_string (x : number) : string :=
  match x with
  | S754_nan => "NaN"
  | S754_zero _ => "0"
  | S754_infinity false => "Infinity"
  | S754_infinity true => "-Infinity"
  | S754_finite s m e => (if s then "-" else "") +++ pos_to_string m e
  end.

(** The digits of [n / 10 ^ f] with [f] decimals. *)
Definition fixed_digits (n : Z) (f : nat) : string :=
  let m := Str.of_Z n in
  match f with
  | O => m
  | S _ =>
      let k := String.length m in
      let m' := Str.repeat Str.zero_char (S f - k) +++ m in
      let k' := String.length m' in
      Str.take (k' - f) m' +++ "." +++ Str.drop (k' - f) m'
  end.

(** [x.toFixed(f)]: the nearest multiple of [10 ^ -f], the larger one
    on a tie; from [10 ^ 21] on, and for NaN and the infinities, the
    plain string of the number. *)
Definition toFixed (x : number) (f : nat) : string :=
  match x with
  | S754_finite s m e =>
      let N := Z.pos m * 2 ^ Z.max e 0 in
      let D := 2 ^ Z.max (- e) 0 in
      if 10 ^ 21 * D <=? N then to_string x
      else
        (if s then "-" else "") +++
        fixed_digits ((2 * N * 10 ^ Z.of_nat f + D) / (2 * D)) f
  | S754_zero _ => fixed_digits 0 f
  | _ => to_string x
  end.

End NumStr.

(** ** Values *)

Module JS.

Inductive value :=
| VUndefined
| VNull
| VBool (b : bool)
| VNum (x : Num.number)
| VStr (s : string)
| VObj (props : list (string * value))
| VArr (items : list value).

(** What a piece of code can throw: a [TypeError] of the engine, for
    the operation [op] attempted on [v], or an error handed in by the
    environment (a rejected request, a body that is not JSON), given by
    the text [String(e)] yields. *)
Inductive exn :=
| TypeError (op : string) (v : value)
| Failure (text : string).

Inductive outcome (A : Type) :=
| Ok (a : A)
| Throw (e : exn).
Arguments Ok {A} a.
Arguments Throw {A} e.

Definition zero : Num.number := S754_zero false.

(** [!!v] *)
Definition to_boolean (v : value) : bool :=
  match v with
  | VUndefined | VNull => false
  | VBool b => b
  | VNum x =>
      match x with
      | S754_zero _ | S754_nan => false
      | _ => true
      end
  | VStr s => negb (String.eqb s "")
  | VObj _ | VArr _ => true
  end.

(** [v == null] *)
Definition nullish (v : value) : bool :=
  match v with
  | VUndefined | VNull => true
  | _ => false
  end.

(** [typeof v === 'number'] *)
Definition is_number (v : value) : bool :=
  match v with
  | VNum _ => true
  | _ => false
  end.

(** An object produced by [JSON.parse] lists each own property once. *)
Fixpoint lookup (k : string) (props : list (string * value)) : option value :=
  match props with
  | [] => None
  | (k', v) :: rest => if String.eqb k k' then Some v else lookup k rest
  end.

(** [v.k] and [v[k]] for the property names the script reads, none of
    which a prototype defines: reading from [null] or [undefined]
    throws, a missing property reads as [undefined]. *)
Definition get (v : value) (k : string) : outcome value :=
  match v with
  | VUndefined | VNull => Throw (TypeError k v)
  | VObj props => Ok (default VUndefined (lookup k props))
  | _ => Ok VUndefined
  end.

(** [v.k] where [v] is known not to be [null] or [undefined]. *)
Definition get_safe (v : value) (k : string) : value :=
  match v with
  | VObj props => default VUndefined (lookup k props)
  | _ => VUndefined
  end.

(** [k in v] *)
Definition has (k : string) (v : value) : outcome bool :=
  match v with
  | VObj props => Ok (bool_decide (is_Some (lookup k props)))
  | VArr _ => Ok false
  | _ => Throw (TypeError "in" v)
  end.

Definition join_comma (parts : list string) : string :=
  match parts with
  | [] => ""
  | p :: rest => fold_left (fun acc q => acc +++ "," +++ q) rest p
  end.

Fixpoint sequence {A} (l : list (outcome A)) : outcome (list A) :=
  match l with
  | [] => Ok []
  | Ok a :: rest =>
      match sequence rest with
      | Ok as_ => Ok (a :: as_)
      | Throw e => Throw e
      end
  | Throw e :: _ => Throw e
  end.

(** [String(v)]: a parsed object that carries an own [toString]
    property (never a function) cannot be converted; an array joins the
    strings of its items, [null] and [undefined] counting as empty. *)
Fixpoint to_string (v : value) : outcome string :=
  match v with
  | VUndefined => Ok "undefined"
  | VNull => Ok "null"
  | VBool true => Ok "true"
  | VBool false => Ok "false"
  | VNum x => Ok (NumStr.to_string x)
  | VStr s => Ok s
  | VObj props =>
      if bool_decide (is_Some (lookup "toString" props))
      then Throw (TypeError "toString" v)
      else Ok "[object Object]"
  | VArr items =>
      match
        sequence
          (map (fun i => if nullish i then Ok "" else to_string i) items)
      with
      | Ok parts => Ok (join_comma parts)
      | Throw e => Throw e
      end
  end.

(** [x.toFixed(f)] as a method call on any value. *)
Definition call_toFixed (v : value) (f : nat) : outcome string :=
  match v with
  | VNum x => Ok (NumStr.toFixed x f)
  | _ => Throw (TypeError "toFixed" v)
  end.

End JS.

(** ** Formatting *)

Module Fmt.
Import Num JS.

Definition placeholder : string := "— MHz".

(** [fmtFreq(khz)] *)
Definition fmtFreq (khz : value) : string :=
  match khz with
  | VNum x =>
      if le x zero then placeholder
      else
        let mhz := div x (of_Z 1000) in
        if ge mhz (of_Z 1000)
        then NumStr.toFixed (div mhz (of_Z 1000)) 2 +++ " GHz"
        else NumStr.to_string (round mhz) +++ " MHz"
  | _ => placeholder
  end.

(** [fmtBounds(min_khz, max_khz)] *)
Definition fmtBounds (min_khz max_khz : value) : string :=
  let f k := Str.replace_first "— " "" (fmtFreq k) in
  f min_khz +++ " / " +++ f max_khz.

(** The four parts [fmtUptime] cuts the seconds into. *)
Record parts := { days : number; hours : number; mins : number; secs : number }.

Definition split_uptime (x : number) : parts :=
  let d := floor (div x (of_Z 86400)) in
  let x1 := sub x (mul d (of_Z 86400)) in
  let h := floor (div x1 (of_Z 3600)) in
  let x2 := sub x1 (mul h (of_Z 3600)) in
  let m := floor (div x2 (of_Z 60)) in
  let s := floor (sub x2 (mul m (of_Z 60))) in
  {| days := d; hours := h; mins := m; secs := s |}.

Definition pad2 (x : number) : string := Str.padStart2 (NumStr.to_string x).

(** [fmtUptime(secs)] *)
Definition fmtUptime (v : value) : string :=
  match v with
  | VNum x =>
      if negb (ge x zero) then "—"
      else
        let p := split_uptime x in
        (if gt (days p) zero then NumStr.to_string (days p) +++ "d " else "")
        +++ pad2 (hours p) +++ ":" +++ pad2 (mins p) +++ ":" +++ pad2 (secs p)
  | _ => "—"
  end.

End Fmt.

(** ** The document *)

Module Dom.

(** An element, with the properties the script reads or writes:
    [textContent], the class list, [disabled], [style.display] and
    [value]. *)
Record element := {
  textContent : string;
  classes : list string;
  disabled : bool;
  display : string;
  value : string;
}.

Definition set_textContent (s : string) (el : element) : element :=
  {| textContent := s; classes := classes el; disabled := disabled el;
     display := display el; value := value el |}.

Definition set_classes (cs : list string) (el : element) : element :=
  {| textContent := textContent el; classes := cs; disabled := disabled el;
     display := display el; value := value el |}.

Definition set_disabled (b : bool) (el : element) : element :=
  {| textContent := textContent el; classes := classes el; disabled := b;
     display := display el; value := value el |}.

Definition set_display (d : string) (el : element) : element :=
  {| textContent := textContent el; classes := classes el;
     disabled := disabled el; display := d; value := value el |}.

Definition set_value (v : string) (el : element) : element :=
  {| textContent := textContent el; classes := classes el;
     disabled := disabled el; display := display el; value := v |}.

Definition has_class (c : string) (el : element) : bool :=
  bool_decide (c ∈ classes el).

(** [el.classList.add(c)], [el.classList.remove(c)] and
    [el.classList.toggle(c, force)]. *)
Definition class_add (c : string) (el : element) : element :=
  if has_class c el then el else set_classes (classes el ++ [c]) el.

Definition class_remove (c : string) (el : element) : element :=
  set_classes (filter (fun c' => c' ≠ c) (classes el)) el.

Definition class_toggle (c : string) (force : bool) (el : element) : element :=
  if force then class_add c el else class_remove c el.

(** The document: the elements by id.  [qs(id)] is the lookup, and
    [if(el) el.p = v] is [alter] at that id. *)
Abbreviation document := (gmap string element).

End Dom.

(** ** The page state *)

Module Page.
Import JS.

(** The [meta] cache. *)
Record meta_cache := {
  load : value;
  governor : value;
  min : value;
  max : value;
  up : value;
  freq : value;
  temp : value;
}.

Definition meta0 : meta_cache :=
  {| load := VNull; governor := VNull; min := VNull; max := VNull;
     up := VNull; freq := VNull; temp := VNull |}.

(** The unlock dialog: whether the [onclick] handlers of its two
    buttons are installed, and whether the promise they settle is still
    awaited by the click handler of the lock button. *)
Record dialog := {
  cancel_on : bool;
  confirm_on : bool;
  pending : bool;
}.

Definition dialog0 : dialog :=
  {| cancel_on := false; confirm_on := false; pending := false |}.

(** Everything the script keeps: the document, the [meta] cache,
    [window.__unlocked], the variable [unlocked] of [initLockUI], the
    unlock dialog, [__devTimeOffsetMs] and [lastCpu]. *)
Record page := {
  dom : Dom.document;
  meta : meta_cache;
  win_unlocked : value;
  unlocked : bool;
  dlg : dialog;
  devTimeOffsetMs : Num.number;
  lastCpu : Num.number;
}.

Definition with_dom (f : Dom.document -> Dom.document) (p : page) : page :=
  {| dom := f (dom p); meta := meta p; win_unlocked := win_unlocked p;
     unlocked := unlocked p; dlg := dlg p;
     devTimeOffsetMs := devTimeOffsetMs p; lastCpu := lastCpu p |}.

Definition with_meta (f : meta_cache -> meta_cache) (p : page) : page :=
  {| dom := dom p; meta := f (meta p); win_unlocked := win_unlocked p;
     unlocked := unlocked p; dlg := dlg p;
     devTimeOffsetMs := devTimeOffsetMs p; lastCpu := lastCpu p |}.

Definition with_win_unlocked (v : value) (p : page) : page :=
  {| dom := dom p; meta := meta p; win_unlocked := v;
     unlocked := unlocked p; dlg := dlg p;
     devTimeOffsetMs := devTimeOffsetMs p; lastCpu := lastCpu p |}.

Definition with_unlocked (b : bool) (p : page) : page :=
  {| dom := dom p; meta := meta p; win_unlocked := win_unlocked p;
     unlocked := b; dlg := dlg p;
     devTimeOffsetMs := devTimeOffsetMs p; lastCpu := lastCpu p |}.

Definition with_dlg (d : dialog) (p : page) : page :=
  {| dom := dom p; meta := meta p; win_unlocked := win_unlocked p;
     unlocked := unlocked p; dlg := d;
     devTimeOffsetMs := devTimeOffsetMs p; lastCpu := lastCpu p |}.

Definition with_offset (x : Num.number) (p : page) : page :=
  {| dom := dom p; meta := meta p; win_unlocked := win_unlocked p;
     unlocked := unlocked p; dlg := dlg p;
     devTimeOffsetMs := x; lastCpu := lastCpu p |}.

Definition with_lastCpu (x : Num.number) (p : page) : page :=
  {| dom := dom p; meta := meta p; win_unlocked := win_unlocked p;
     unlocked := unlocked p; dlg := dlg p;
     devTimeOffsetMs := devTimeOffsetMs p; lastCpu := x |}.

(** Code that changes the page and may throw: the page it leaves
    behind keeps what was written before the throw. *)
Definition M (A : Type) : Type := page -> outcome A * page.

Definition ret {A} (a : A) : M A := fun p => (Ok a, p).

Definition bind {A B} (c : M A) (k : A -> M B) : M B :=
  fun p =>
    match c p with
    | (Ok a, p') => k a p'
    | (Throw e, p') => (Throw e, p')
    end.

Definition throw {A} (e : exn) : M A := fun p => (Throw e, p).

Definition lift {A} (o : outcome A) : M A := fun p => (o, p).

Definition modify (f : page -> page) : M unit := fun p => (Ok tt, f p).

Definition gets {A} (f : page -> A) : M A := fun p => (Ok (f p), p).

(** [try { body } catch(e) { handler(e) }] *)
Definition try_catch {A} (body : M A) (handler : exn -> M A) : M A :=
  fun p =>
    match body p with
    | (Ok a, p') => (Ok a, p')
    | (Throw e, p') => handler e p'
    end.

(** The page a handler leaves behind, whether it returned or threw. *)
Definition run {A} (c : M A) (p : page) : page := snd (c p).

Declare Scope js_scope.
Delimit Scope js_scope with js.
Notation "'let*' x ':=' c 'in' k" := (bind c (fun x => k))
  (at level 10, x name, c at level 100, k at level 200) : js_scope.
Notation "c ';;' k" := (bind c (fun _ => k))
  (at level 100, k at level 200, right associativity) : js_scope.

(** [if(el) el.textContent = s] for the element of id [id]. *)
Definition text_if (id s : string) : page -> page :=
  with_dom (alter (Dom.set_textContent s) id).

(** [el.p] where [el = qs(id)] may be [null]. *)
Definition must (id prop : string) : M Dom.element :=
  fun p =>
    match dom p !! id with
    | Some el => (Ok el, p)
    | None => (Throw (TypeError prop VNull), p)
    end.

End Page.

(** ** Telemetry: the cache and its display *)

Module Telemetry.
Import JS Page.
Local Open Scope js_scope.

(** [setFreqTemp(freq_khz, temp_c)] *)
Definition setFreqTemp (freq_khz temp_c : value) (p : page) : page :=
  let p1 := text_if "cpuFreq" (Fmt.fmtFreq freq_khz) p in
  let has := is_number temp_c in
  let p2 :=
    with_dom (alter (Dom.set_display (if has then "" else "none")) "rowTemp")
      p1 in
  match temp_c with
  | VNum x => text_if "cpuTemp" (NumStr.toFixed x 1 +++ " °C") p2
  | _ => p2
  end.

Definition set_load (v : value) (m : meta_cache) : meta_cache :=
  {| load := v; governor := governor m; min := min m; max := max m;
     up := up m; freq := freq m; temp := temp m |}.

Definition set_governor (v : value) (m : meta_cache) : meta_cache :=
  {| load := load m; governor := v; min := min m; max := max m;
     up := up m; freq := freq m; temp := temp m |}.

Definition set_min (v : value) (m : meta_cache) : meta_cache :=
  {| load := load m; governor := governor m; min := v; max := max m;
     up := up m; freq := freq m; temp := temp m |}.

Definition set_max (v : value) (m : meta_cache) : meta_cache :=
  {| load := load m; governor := governor m; min := min m; max := v;
     up := up m; freq := freq m; temp := temp m |}.

Definition set_up (v : value) (m : meta_cache) : meta_cache :=
  {| load := load m; governor := governor m; min := min m; max := max m;
     up := v; freq := freq m; temp := temp m |}.

Definition set_freq (v : value) (m : meta_cache) : meta_cache :=
  {| load := load m; governor := governor m; min := min m; max := max m;
     up := up m; freq := v; temp := temp m |}.

Definition set_temp (v : value) (m : meta_cache) : meta_cache :=
  {| load := load m; governor := governor m; min := min m; max := max m;
     up := up m; freq := freq m; temp := v |}.

(** [a || b] *)
Definition or_else (a b : value) : value := if to_boolean a then a else b.

(** [(a != null) ? a : b] *)
Definition unless_null (a b : value) : value := if nullish a then b else a.

(** The seven assignments that open [setMetaFull]. *)
Definition merge (j : value) : M unit :=
  let* v := lift (get j "load") in
  modify (with_meta (fun m => set_load (or_else v (load m)) m)) ;;
  let* v := lift (get j "governor") in
  modify (with_meta (fun m => set_governor (unless_null v (governor m)) m)) ;;
  let* v := lift (get j "freq_min_khz") in
  modify (with_meta (fun m => set_min (unless_null v (min m)) m)) ;;
  let* v := lift (get j "freq_max_khz") in
  modify (with_meta (fun m => set_max (unless_null v (max m)) m)) ;;
  let* v := lift (get j "uptime_seconds") in
  modify (with_meta (fun m => set_up (unless_null v (up m)) m)) ;;
  let* v := lift (get j "freq_khz") in
  modify (with_meta (fun m => set_freq (unless_null v (freq m)) m)) ;;
  let* v := lift (get j "temp_c") in
  modify (with_meta (fun m => set_temp (unless_null v (temp m)) m)).

(** The load line: the three averages with two decimals. *)
Definition render_load : M unit :=
  let* m := gets meta in
  let* d := gets dom in
  if bool_decide (is_Some (d !! "cpuLoad")) && to_boolean (load m)
     && is_number (get_safe (load m) "1m")
  then
    let* a := lift (call_toFixed (get_safe (load m) "1m") 2) in
    let* b := lift (call_toFixed (get_safe (load m) "5m") 2) in
    let* c := lift (call_toFixed (get_safe (load m) "15m") 2) in
    modify (text_if "cpuLoad" (a +++ " / " +++ b +++ " / " +++ c))
  else ret tt.

Definition render_governor : M unit :=
  let* m := gets meta in
  let* d := gets dom in
  if bool_decide (is_Some (d !! "cpuGov")) then
    let* s := lift (to_string (or_else (governor m) (VStr "—"))) in
    modify (text_if "cpuGov" s)
  else ret tt.

(** [setMetaFull(j)] *)
Definition setMetaFull (j : value) : M unit :=
  merge j ;;
  let* m := gets meta in
  modify (setFreqTemp (freq m) (temp m)) ;;
  render_load ;;
  render_governor ;;
  let* m := gets meta in
  modify (text_if "cpuBounds" (Fmt.fmtBounds (min m) (max m))) ;;
  modify (text_if "cpuUptime" (Fmt.fmtUptime (up m))).

(** The [onmessage] handler of the telemetry stream, on the parsed
    message [j]. *)
Definition onmessage (j : value) : M unit :=
  let* cpu := lift (get j "cpu") in
  (match cpu with
   | VNum x => modify (with_lastCpu x)
   | _ => ret tt
   end) ;;
  let* hf := lift (has "freq_khz" j) in
  let* ht := if hf then ret true else lift (has "temp_c" j) in
  if hf || ht then
    let* f := lift (get j "freq_khz") in
    let* t := lift (get j "temp_c") in
    modify (setFreqTemp f t)
  else ret tt.

End Telemetry.

(** ** What the browser supplies *)

Module Env.
Import JS.

(** The parts of the engine the script's results depend on and the
    language leaves open: the message of a [TypeError], the parsing of
    a date string (the milliseconds since the epoch, or nothing for an
    invalid date) and the locale formats of a time value. *)
Record engine := {
  type_error_text : string -> value -> string;
  date_parse : string -> option Z;
  toLocaleDateString : Num.number -> string;
  toLocaleTimeString : Num.number -> string;
}.

(** [String(e)] *)
Definition exn_text (eng : engine) (e : exn) : string :=
  match e with
  | TypeError op v => "TypeError: " +++ type_error_text eng op v
  | Failure text => text
  end.

(** What [r.json()] settles with. *)
Inductive body :=
| NotJson (e : exn)
| Json (j : value).

(** What [fetch] settles with: a rejection, or a response with its
    status and body. *)
Inductive reply :=
| Rejected (e : exn)
| Response (status : Z) (b : body).

(** [r.ok] *)
Definition status_ok (status : Z) : bool := (200 <=? status) && (status <=? 299).

End Env.

(** ** Lock, unlock and the dependent fields *)

Module Lock.
Import JS Page Env.
Local Open Scope js_scope.

Definition network_fields : list string := ["ip"; "subnet"; "gateway"; "dns"].
Definition time_fields : list string := ["date"; "time"].

(** The body of the two [forEach] loops: [el.disabled = off] and
    [el.classList.toggle('opacity-60', el.disabled)]. *)
Definition dim (off : bool) (el : Dom.element) : Dom.element :=
  Dom.class_toggle "opacity-60" off (Dom.set_disabled off el).

Definition dependent (selector activating : string) (fields : list string)
    (p : page) : page :=
  match dom p !! selector with
  | None => p
  | Some sel =>
      let unlocked := to_boolean (win_unlocked p) in
      let active := String.eqb (Dom.value sel) activating in
      let off := negb unlocked || negb active in
      with_dom (fun d => fold_left (fun d id => alter (dim off) id d) fields d) p
  end.

(** [setNetworkFieldState()] *)
Definition setNetworkFieldState : page -> page :=
  dependent "network_mode" "static" network_fields.

(** [setTimeFieldState()] *)
Definition setTimeFieldState : page -> page :=
  dependent "time_source" "manual" time_fields.

Definition gate (enabled : bool) (el : Dom.element) : Dom.element :=
  if Dom.has_class "need-unlock" el then Dom.set_disabled (negb enabled) el
  else el.

(** [setEditable(enabled)] *)
Definition setEditable (enabled : bool) (p : page) : page :=
  let p1 := with_win_unlocked (VBool enabled) p in
  let p2 := with_dom (fmap (gate enabled)) p1 in
  let p3 := with_dom (alter (Dom.set_disabled (negb enabled)) "applyBtn") p2 in
  setTimeFieldState (setNetworkFieldState p3).

(** [refresh()] of [initLockUI] *)
Definition lock_refresh (p : page) : page :=
  let u := unlocked p in
  let p1 := setEditable u p in
  let p2 := text_if "unlockBtn" (if u then "Lock" else "Unlock to Edit") p1 in
  text_if "lockStatus" (if u then "Unlocked" else "Locked") p2.

(** [initLockUI()], with the value of [window.IS_UNLOCKED]. *)
Definition initLockUI (is_unlocked : value) (p : page) : page :=
  lock_refresh (with_unlocked (to_boolean is_unlocked) p).

(** [lockNow()]: the awaited lock request, settled with [r]. *)
Definition lockNow (r : reply) : M unit :=
  match r with
  | Rejected e => throw e
  | Response _ _ => ret tt
  end.

(** [unlockFlow()] up to the promise it returns: the dialog is reset
    and shown and the two handlers are installed. *)
Definition unlockFlow : M unit :=
  must "unlockErr" "textContent" ;;
  modify (text_if "unlockErr" "") ;;
  must "unlockModal" "classList" ;;
  modify (with_dom (alter (Dom.class_remove "hidden") "unlockModal")) ;;
  must "pwdInput" "value" ;;
  modify (with_dom (alter (Dom.set_value "") "pwdInput")) ;;
  must "cancelUnlock" "onclick" ;;
  let* d := gets dlg in
  modify (with_dlg {| cancel_on := true; confirm_on := confirm_on d;
                      pending := false |}) ;;
  must "confirmUnlock" "onclick" ;;
  modify (with_dlg {| cancel_on := true; confirm_on := true;
                      pending := true |}).

(** [done(ok)]: the dialog is hidden and the promise resolved; if the
    click handler of the lock button still awaits it, that handler goes
    on: [if(ok){ unlocked = true; refresh(); }]. *)
Definition done (ok : bool) (p : page) : page :=
  let p1 := with_dom (alter (Dom.class_add "hidden") "unlockModal") p in
  if pending (dlg p1) then
    let d := dlg p1 in
    let p2 :=
      with_dlg {| cancel_on := cancel_on d; confirm_on := confirm_on d;
                  pending := false |} p1 in
    if ok then lock_refresh (with_unlocked true p2) else p2
  else p1.

End Lock.

(** ** The handlers

    An awaited request is given by the reply it settles with; the code
    of a handler before and after its [await] runs as one step. *)

Module Handlers.
Import JS Page Env Lock.
Local Open Scope js_scope.

Section WithEngine.
Variable eng : engine.

(** The [else] branch of the confirm handler:
    [err.textContent = j.error || 'Unlock failed']. *)
Definition unlock_failed (j : value) : M unit :=
  let* e := lift (get j "error") in
  let* s := lift (to_string (Telemetry.or_else e (VStr "Unlock failed"))) in
  modify (text_if "unlockErr" s).

(** The [onclick] handler of the confirm button of the unlock dialog,
    for the reply [r] to the unlock request. *)
Definition confirmUnlock (r : reply) (p : page) : page :=
  if confirm_on (dlg p) then
    run
      (try_catch
         (match r with
          | Rejected e => throw e
          | Response status (NotJson e) => throw e
          | Response status (Json j) =>
              if status_ok status then
                let* ok := lift (get j "ok") in
                if to_boolean ok then modify (done true) else unlock_failed j
              else unlock_failed j
          end)
         (fun e => modify (text_if "unlockErr" ("Error: " +++ exn_text eng e))))
      p
  else p.

(** The [onclick] handler of the cancel button of the unlock dialog. *)
Definition cancelUnlock (p : page) : page :=
  if cancel_on (dlg p) then done false p else p.

(** The click handler of the lock button; [r] is the reply to the lock
    request, which is sent only when the page is unlocked. *)
Definition lockButton (r : reply) (p : page) : page :=
  match dom p !! "unlockBtn" with
  | None => p
  | Some _ =>
      if unlocked p then
        run (lockNow r ;; modify (with_unlocked false) ;; modify lock_refresh) p
      else run unlockFlow p
  end.

Definition form_fields : list string :=
  ["hostname"; "network_mode"; "ip"; "subnet"; "gateway"; "dns";
   "pressure_unit"; "temperature_unit"; "mode"; "time_source"; "date";
   "time"; "instrument_name"; "instrument_ip"].

(** The payload: [qs(id).value] for every field of the form. *)
Fixpoint read_form (ids : list string) : M (list (string * string)) :=
  match ids with
  | [] => ret []
  | id :: rest =>
      let* el := must id "value" in
      let* vs := read_form rest in
      ret ((id, Dom.value el) :: vs)
  end.

Definition msg_class (c : string) : page -> page :=
  with_dom (alter (Dom.set_classes ["mt-3"; "text-sm"; c]) "msg").

Definition msg_append (s : string) : page -> page :=
  with_dom (alter (fun el => Dom.set_textContent (Dom.textContent el +++ s) el)
              "msg").

Definition has_msg : M bool :=
  gets (fun p => bool_decide (is_Some (dom p !! "msg"))).

(** [(j && (j.error || j.message)) || `HTTP ${r.status}`] *)
Definition failure_text (j : value) (status : Z) : value :=
  let inner :=
    if to_boolean j
    then Telemetry.or_else (get_safe j "error") (get_safe j "message")
    else j in
  Telemetry.or_else inner
    (VStr ("HTTP " +++ NumStr.to_string (Num.of_Z status))).

Definition unlock_hint : string := " (Unlock to Edit first)".
Definition root_hint : string := " (Run as root to apply system settings)".

(** The two branches of [applyConfig] on a response. *)
Definition on_response (status : Z) (j : value) : M unit :=
  let* m := has_msg in
  if status_ok status then
    if m then
      modify (msg_class "msg-ok") ;;
      let* v := lift (get j "message") in
      let* s := lift (to_string (Telemetry.or_else v (VStr "Saved."))) in
      modify (text_if "msg" s)
    else ret tt
  else
    (if m then
       modify (msg_class "msg-err") ;;
       let* s := lift (to_string (failure_text j status)) in
       modify (text_if "msg" s)
     else ret tt) ;;
    (if (status =? 403) && m then modify (msg_append unlock_hint) else ret tt) ;;
    (if to_boolean j && to_boolean (get_safe j "requires_root") && m
     then modify (msg_append root_hint) else ret tt).

(** [applyConfig()], for the reply [r] to the submit request. *)
Definition applyConfig (r : reply) : M unit :=
  modify (with_dom (alter (fun el =>
            Dom.set_classes ["mt-3"; "text-sm"] (Dom.set_textContent "" el))
            "msg")) ;;
  read_form form_fields ;;
  try_catch
    (match r with
     | Rejected e => throw e
     | Response status (NotJson _) => on_response status (VObj [])
     | Response status (Json j) => on_response status j
     end)
    (fun e =>
       modify (msg_class "msg-err") ;;
       modify (text_if "msg" ("Unexpected error: " +++ exn_text eng e))).

End WithEngine.
End Handlers.

(** ** The display clock and the snapshot poll *)

Module Clock.
Import JS Page Env.
Local Open Scope js_scope.

(** The largest time value, in milliseconds. *)
Definition max_time : Z := 8640000000000000.

(** The integer part of a number, towards zero. *)
Definition trunc (x : Num.number) : Num.number :=
  match x with
  | S754_finite true m e =>
      match Num.floor (S754_finite false m e) with
      | S754_zero _ => S754_zero false
      | y => SFopp y
      end
  | S754_finite false _ _ => Num.floor x
  | S754_zero _ => S754_zero false
  | _ => x
  end.

(** The time value a [Date] keeps for the number [x]: the integer part
    within the range of dates, NaN outside. *)
Definition time_clip (x : Num.number) : Num.number :=
  if Num.is_finite x && Num.le (SFabs x) (Num.of_Z max_time) then trunc x
  else S754_nan.

Section WithEngine.
Variable eng : engine.

Definition parse_time (s : string) : Num.number :=
  match date_parse eng s with
  | Some t => time_clip (Num.of_Z t)
  | None => S754_nan
  end.

(** [new Date(v).getTime()]: a string is parsed, an object or an array
    is first turned into a string, any other value into a number. *)
Definition date_value (v : value) : outcome Num.number :=
  match v with
  | VStr s => Ok (parse_time s)
  | VNum x => Ok (time_clip x)
  | VBool b => Ok (Num.of_Z (if b then 1 else 0))
  | VNull => Ok (S754_zero false)
  | VUndefined => Ok S754_nan
  | VObj _ | VArr _ =>
      match to_string v with
      | Ok s => Ok (parse_time s)
      | Throw e => Throw e
      end
  end.

(** [updateGeneralClockTick()], when [Date.now()] reads [now]. *)
Definition updateGeneralClockTick (now : Z) (p : page) : page :=
  let d := time_clip (Num.add (Num.of_Z now) (devTimeOffsetMs p)) in
  text_if "genTime" (toLocaleTimeString eng d)
    (text_if "genDate" (toLocaleDateString eng d) p).

(** [syncClockFromServer(iso)]; [now] and [now'] are the two readings
    of [Date.now()]. *)
Definition syncClockFromServer (iso : value) (now now' : Z) : M unit :=
  if negb (to_boolean iso) then ret tt
  else
    let* serverMs := lift (date_value iso) in
    if Num.is_nan serverMs then ret tt
    else
      modify (with_offset (Num.sub serverMs (Num.of_Z now))) ;;
      modify (updateGeneralClockTick now').

(** [refresh()] of [init]: one poll of the full snapshot, settled with
    the reply [r]. *)
Definition init_refresh (r : reply) (now now' : Z) (p : page) : page :=
  run
    (try_catch
       (match r with
        | Rejected e => throw e
        | Response _ (NotJson e) => throw e
        | Response _ (Json j) =>
            Telemetry.setMetaFull j ;;
            let* st := lift (get j "server_time") in
            if to_boolean st then syncClockFromServer st now now' else ret tt
        end)
       (fun _ => ret tt))
    p.

End WithEngine.
End Clock.

(** ** The page as a reactive system *)

Module Events.
Import JS Page Env.

Inductive event :=
| LockButtonClick (r : reply)
| CancelUnlockClick
| ConfirmUnlockClick (r : reply)
| NetworkModeChange (v : string)
| TimeSourceChange (v : string)
| ApplyClick (r : reply)
| SnapshotPoll (r : reply) (now now' : Z)
| TelemetryMessage (j : value)
| ClockTick (now : Z).

Section WithEngine.
Variable eng : engine.

(** The part of [init()] that sets the lock state and the fields, with
    the value of [window.IS_UNLOCKED]: [initLockUI()],
    [setNetworkFieldState()], [setTimeFieldState()].  The segments of
    the CPU bar are built by [Cpu.buildCpuSegments], and the first
    [updateGeneralClockTick()] of [init()] is the event [ClockTick]. *)
Definition init (is_unlocked : value) (p : page) : page :=
  Lock.setTimeFieldState
    (Lock.setNetworkFieldState (Lock.initLockUI is_unlocked p)).

(** One event: the user's change of a selector sets its value before
    the [change] listener runs. *)
Definition handle (ev : event) (p : page) : page :=
  match ev with
  | LockButtonClick r => Handlers.lockButton r p
  | CancelUnlockClick => Handlers.cancelUnlock p
  | ConfirmUnlockClick r => Handlers.confirmUnlock eng r p
  | NetworkModeChange v =>
      Lock.setNetworkFieldState
        (with_dom (alter (Dom.set_value v) "network_mode") p)
  | TimeSourceChange v =>
      Lock.setTimeFieldState
        (with_dom (alter (Dom.set_value v) "time_source") p)
  | ApplyClick r =>
      match dom p !! "applyBtn" with
      | Some _ => run (Handlers.applyConfig eng r) p
      | None => p
      end
  | SnapshotPoll r now now' => Clock.init_refresh eng r now now' p
  | TelemetryMessage j => run (Telemetry.onmessage j) p
  | ClockTick now => Clock.updateGeneralClockTick eng now p
  end.

Definition handle_all (evs : list event) (p : page) : page :=
  fold_left (fun p ev => handle ev p) evs p.

End WithEngine.
End Events.

(** ** Notions the properties are stated with *)

Module Spec.
Import JS Page Env.

(** The seven fields of the cache, the property of the snapshot each is
    fed from, and its place in the cache. *)
Inductive field := Load | Governor | Min | Max | Up | Freq | Temp.

Definition key (f : field) : string :=
  match f with
  | Load => "load"
  | Governor => "governor"
  | Min => "freq_min_khz"
  | Max => "freq_max_khz"
  | Up => "uptime_seconds"
  | Freq => "freq_khz"
  | Temp => "temp_c"
  end.

Definition cached (f : field) (m : meta_cache) : value :=
  match f with
  | Load => load m
  | Governor => governor m
  | Min => min m
  | Max => max m
  | Up => up m
  | Freq => freq m
  | Temp => temp m
  end.

(** The value an update carries for a field: [undefined] when the
    update does not have the property (or is itself [null]). *)
Definition carried (f : field) (j : value) : value := get_safe j (key f).

(** The field is present in the update and not [null]. *)
Definition supplied (f : field) (j : value) : bool := negb (nullish (carried f j)).

Definition is_object (v : value) : bool :=
  match v with
  | VObj _ => true
  | _ => false
  end.

(** The update writes the field: its load is truthy, or, for any other
    field, the field is present and not [null]. *)
Definition written (f : field) (j : value) : bool :=
  match f with
  | Load => to_boolean (carried f j)
  | _ => supplied f j
  end.

(** A run of full-snapshot updates. *)
Definition apply_snapshots (js : list value) (p : page) : page :=
  fold_left (fun p j => run (Telemetry.setMetaFull j) p) js p.

(** The unlock request was answered with a 2xx status and a body whose
    [ok] holds. *)
Definition accepted (r : reply) : bool :=
  match r with
  | Response status (Json j) => status_ok status && to_boolean (get_safe j "ok")
  | _ => false
  end.

(** The element of id [id] is there and enabled. *)
Definition enabled (p : page) (id : string) : bool :=
  match dom p !! id with
  | Some el => negb (Dom.disabled el)
  | None => false
  end.

Definition text_of (p : page) (id : string) : option string :=
  Dom.textContent <$> dom p !! id.

Definition display_of (p : page) (id : string) : option string :=
  Dom.display <$> dom p !! id.

(** [s] occurs in [t]. *)
Fixpoint contains (s t : string) : bool :=
  Str.prefix s t ||
  match t with
  | EmptyString => false
  | String _ t' => contains s t'
  end.

(** Every element the form reads is in the document. *)
Definition form_present (p : page) : Prop :=
  Forall (fun id => is_Some (dom p !! id)) Handlers.form_fields.

(** The body [applyConfig] works with: [{}] when the response is not
    JSON. *)
Definition body_json (b : body) : value :=
  match b with
  | NotJson _ => VObj []
  | Json j => j
  end.

(** The page when the request is sent: the message line is reset. *)
Definition sent (p : page) : page :=
  with_dom (alter (fun el =>
     Dom.set_classes ["mt-3"; "text-sm"] (Dom.set_textContent "" el)) "msg") p.

(** A property that is absent, [null] or a string. *)
Definition str_or_absent (v : value) : Prop :=
  nullish v = true \/ exists s, v = VStr s.

(** The string [v] when it is a non-empty string, [dflt] otherwise. *)
Definition text_or (v : value) (dflt : string) : string :=
  match v with
  | VStr s => if String.eqb s "" then dflt else s
  | _ => dflt
  end.

(** The status code as the message shows it. *)
Definition http_status (status : Z) : string :=
  "HTTP " +++ NumStr.to_string (Num.of_Z status).

(** The nearest integer to [num / den], the larger one on a tie. *)
Definition nearest (num den : Z) : Z := (2 * num + den) / (2 * den).

(** The two decimal digits of a number below 100. *)
Definition two_digits (k : Z) : string :=
  String (Str.digit_char (k / 10)) (String (Str.digit_char (k mod 10)) "").

(** The bound [fmtBounds] shows for a frequency. *)
Definition bound (khz : value) : string :=
  if String.eqb (Fmt.fmtFreq khz) Fmt.placeholder then "MHz"
  else Fmt.fmtFreq khz.

(** The first byte of the dash of the placeholder. *)
Definition dash_byte : ascii := Ascii.ascii_of_nat 226.

(** No character of [s] is the first byte of the dash. *)
Definition dashless (s : string) : Prop :=
  Forall (fun c => c <> dash_byte) (list_ascii_of_string s).

End Spec.

(** ** A sample page *)

Module Sample.
Import JS Page Env.

Definition el (cls : list string) (v : string) : Dom.element :=
  {| Dom.textContent := ""; Dom.classes := cls; Dom.disabled := false;
     Dom.display := ""; Dom.value := v |}.

Definition document : gmap string Dom.element :=
  list_to_map
    [("cpuFreq", el [] ""); ("rowTemp", el [] ""); ("cpuTemp", el [] "");
     ("cpuLoad", el [] ""); ("cpuGov", el [] ""); ("cpuBounds", el [] "");
     ("cpuUptime", el [] ""); ("genDate", el [] ""); ("genTime", el [] "");
     ("unlockBtn", el [] ""); ("lockStatus", el [] "");
     ("unlockModal", el ["hidden"] ""); ("pwdInput", el [] "");
     ("unlockErr", el [] ""); ("cancelUnlock", el [] "");
     ("confirmUnlock", el [] ""); ("applyBtn", el [] ""); ("msg", el [] "");
     ("hostname", el ["need-unlock"] "beaglebone");
     ("network_mode", el ["need-unlock"] "dhcp");
     ("ip", el ["need-unlock"] ""); ("subnet", el ["need-unlock"] "");
     ("gateway", el ["need-unlock"] ""); ("dns", el ["need-unlock"] "");
     ("pressure_unit", el ["need-unlock"] "bar");
     ("temperature_unit", el ["need-unlock"] "C");
     ("mode", el ["need-unlock"] "auto");
     ("time_source", el ["need-unlock"] "ntp");
     ("date", el ["need-unlock"] ""); ("time", el ["need-unlock"] "");
     ("instrument_name", el ["need-unlock"] "");
     ("instrument_ip", el ["need-unlock"] "")].

Definition engine0 : engine :=
  {| type_error_text := fun op _ => "cannot use " +++ op;
     date_parse := fun s => if String.eqb s "1970-01-02T00:00:00Z"
                            then Some 86400000 else None;
     toLocaleDateString := fun x => NumStr.to_string x;
     toLocaleTimeString := fun x => NumStr.to_string x |}.

Definition blank : page :=
  {| dom := document; meta := meta0; win_unlocked := VUndefined;
     unlocked := false; dlg := dialog0;
     devTimeOffsetMs := S754_zero false; lastCpu := S754_zero false |}.

(** The page after [Events.init], locked and unlocked; no tick has
    written the date and the time yet. *)
Definition locked : page := Events.init (VBool false) blank.
Definition unlocked_page : page := Events.init (VBool true) blank.

(** [45.5] *)
Definition n45_5 : Num.number := Num.div (Num.of_Z 91) (Num.of_Z 2).

Definition snapshot1 : value :=
  VObj [("load", VObj [("1m", VNum (Num.of_Z 1)); ("5m", VNum (Num.of_Z 2));
                       ("15m", VNum (Num.of_Z 3))]);
        ("governor", VStr "ondemand");
        ("freq_min_khz", VNum (Num.of_Z 300000));
        ("freq_max_khz", VNum (Num.of_Z 1000000));
        ("uptime_seconds", VNum (Num.of_Z 90061));
        ("freq_khz", VNum (Num.of_Z 900000));
        ("temp_c", VNum n45_5)].

End Sample.

(** ** Numbers of the form [n * 2 ^ e] *)

Module Dyadic.
Import Num Binary.

(** The number of value [n * 2 ^ e], for [n] below [2 ^ 53] and [e]
    an exponent of the format. *)
Definition dyadic (n e : Z) : number :=
  match n with
  | Z.pos p =>
      let ec := fexp (Z.pos (digits2_pos p) + e) in
      S754_finite false (Pos.shiftl p (Z.to_N (e - ec))) ec
  | _ => S754_zero false
  end.

End Dyadic.

(** ** The uptime as text *)

Module Uptime.
Import Num.

(** Days, hours, minutes and seconds of [t] whole seconds, as the
    uptime is shown. *)
Definition uptime_text (t : Z) : string :=
  (if 0 <? t / 86400 then Str.of_Z (t / 86400) +++ "d " else "")
  +++ Spec.two_digits (t / 3600 mod 24) +++ ":"
  +++ Spec.two_digits (t / 60 mod 60) +++ ":"
  +++ Spec.two_digits (t mod 60).

End Uptime.

(** ** The tabs *)

Module Tabs.

(** A node of the document, in document order: its [id], whether it is
    one of the tab buttons (the nodes that [.flex.space-x-4 button]
    selects when the page has loaded), its [data-tab] attribute and the
    element. *)
Record node := {
  id : option string;
  tab_button : bool;
  data_tab : option string;
  elem : Dom.element;
}.

Definition with_elem (f : Dom.element -> Dom.element) (n : node) : node :=
  {| id := id n; tab_button := tab_button n; data_tab := data_tab n;
     elem := f (elem n) |}.

(** A content container: [[id^="content-"]]. *)
Definition content (n : node) : bool :=
  match id n with
  | Some s => Str.prefix "content-" s
  | None => false
  end.

(** [`content-${button.getAttribute('data-tab')}`] *)
Definition target_id (b : node) : string :=
  "content-" +++ default "null" (data_tab b).

(** [document.getElementById(i)]: the first node with that id. *)
Definition by_id (i : string) (doc : list node) : option nat :=
  fst <$> list_find (fun n => id n = Some i) doc.

Definition hide (n : node) : node :=
  if content n then with_elem (Dom.class_add "hidden") n else n.

Definition show_target (i : string) (doc : list node) : list node :=
  match by_id i doc with
  | Some k => alter (with_elem (Dom.class_remove "hidden")) k doc
  | None => doc
  end.

Definition deactivate (el : Dom.element) : Dom.element :=
  Dom.class_add "hover:border-gray"
    (Dom.class_add "border-transparent"
       (Dom.class_remove "border-blue-500" el)).

Definition activate (el : Dom.element) : Dom.element :=
  Dom.class_add "border-blue-500"
    (Dom.class_remove "hover:border-gray"
       (Dom.class_remove "border-transparent" el)).

Definition dim_button (n : node) : node :=
  if tab_button n then with_elem deactivate n else n.

(** The click handler of the tab button at position [i]. *)
Definition click (i : nat) (doc : list node) : list node :=
  match doc !! i with
  | Some b =>
      if tab_button b then
        let d1 := hide <$> doc in
        let d2 := show_target (target_id b) d1 in
        let d3 := dim_button <$> d2 in
        alter (with_elem activate) i d3
      else doc
  | None => doc
  end.

(** The node is shown: it does not have the class [hidden]. *)
Definition shown (n : node) : bool := negb (Dom.has_class "hidden" (elem n)).

Definition active (n : node) : bool :=
  Dom.has_class "border-blue-500" (elem n).

(** The node at [k] after a click on the tab button [b] at [i]. *)
Definition after (doc : list node) (i : nat) (b : node) (k : nat) (n : node)
    : node :=
  let n1 := hide n in
  let n2 :=
    if bool_decide (by_id (target_id b) doc = Some k)
    then with_elem (Dom.class_remove "hidden") n1 else n1 in
  let n3 := dim_button n2 in
  if bool_decide (k = i) then with_elem activate n3 else n3.

(** What an element has besides its classes. *)
Definition rest (el : Dom.element) : string * bool * string * string :=
  (Dom.textContent el, Dom.disabled el, Dom.display el, Dom.value el).

(** The two stages of a click, on the element of one node: the
    [hidden] class, for a content container ([c]) and for the target
    ([tg]); the border classes, for a tab button ([tb]) and for the
    clicked one ([ki]). *)
Definition stage_hidden (c tg : bool) (el : Dom.element) : Dom.element :=
  let e1 := if c then Dom.class_add "hidden" el else el in
  if tg then Dom.class_remove "hidden" e1 else e1.

Definition stage_border (tb ki : bool) (el : Dom.element) : Dom.element :=
  let e1 := if tb then deactivate el else el in
  if ki then activate e1 else e1.

End Tabs.

(** ** The CPU bar *)

Module Cpu.
Import Num.

(** The bar [cpuBar]: its [data-init] and the class names of its
    children, in order. *)
Record bar := {
  data_init : option string;
  segs : list string;
}.

(** The two elements of the widget: the bar and the text of the label
    [cpuPct]; each may be missing from the document. *)
Record widget := {
  cpuBar : option bar;
  cpuPct : option string;
}.

(** [bar.dataset.init] as a condition. *)
Definition initialised (b : bar) : bool :=
  match data_init b with
  | Some s => negb (String.eqb s "")
  | None => false
  end.

(** [buildCpuSegments(n)], for a whole number [n]. *)
Definition buildCpuSegments (n : nat) (w : widget) : widget :=
  match cpuBar w with
  | None => w
  | Some b =>
      if initialised b then w
      else
        {| cpuBar := Some {| data_init := Some "1";
                             segs := segs b ++ replicate n "cpu-seg" |};
           cpuPct := cpuPct w |}
  end.

(** [colorForPct(p)] *)
Definition colorForPct (p : number) : string :=
  if le p (of_Z 35) then "green"
  else if le p (of_Z 50) then "yellow"
  else if le p (of_Z 75) then "orange"
  else "red".

(** The class name of the segment at [idx]. *)
Definition seg_class (active : number) (color : string) (idx : nat) : string :=
  "cpu-seg" +++
  (if gt active (of_Z (Z.of_nat idx)) then " on " +++ color else "").

(** [updateCpuBar(pct)] *)
Definition updateCpuBar (pct : number) (w : widget) : widget :=
  match cpuBar w with
  | None => w
  | Some b =>
      let n := of_Z (Z.of_nat (length (segs b))) in
      let active := round (mul (div pct (of_Z 100)) n) in
      let color := colorForPct pct in
      {| cpuBar := Some {| data_init := data_init b;
                           segs := imap (fun idx _ => seg_class active color idx)
                                     (segs b) |};
         cpuPct := (fun _ => NumStr.to_string (round pct) +++ "%") <$> cpuPct w |}
  end.

(** [Math.min(a, b)] and [Math.max(a, b)] *)
Definition math_min (a b : number) : number :=
  if is_nan a || is_nan b then S754_nan
  else
    match a, b with
    | S754_zero false, S754_zero true => b
    | _, _ => if SFltb b a then b else a
    end.

Definition math_max (a b : number) : number :=
  if is_nan a || is_nan b then S754_nan
  else
    match a, b with
    | S754_zero true, S754_zero false => b
    | _, _ => if SFltb a b then b else a
    end.

(** [0.2] *)
Definition fifth : number := div (of_Z 1) (of_Z 5).

(** The animation: [cpuAnim] and the widget. *)
Definition anim : Type := number * widget.

(** One run of [raf], when [lastCpu] holds [last]. *)
Definition raf (last : number) (st : anim) : anim :=
  let cpuAnim := add (fst st) (mul (sub last (fst st)) fifth) in
  (cpuAnim,
   updateCpuBar (math_max JS.zero (math_min (of_Z 100) cpuAnim)) (snd st)).

(** The runs of [raf] over the values [lastCpu] holds at each. *)
Definition frames (lasts : list number) (st : anim) : anim :=
  fold_left (fun st last => raf last st) lasts st.

Definition is_infinite (x : number) : bool :=
  match x with
  | S754_infinity _ => true
  | _ => false
  end.

(** The bar shows no lit segment and the label reads [NaN%]. *)
Definition dead (w : widget) : Prop :=
  (forall b, cpuBar w = Some b -> Forall (fun c => c = "cpu-seg") (segs b))
  /\ (forall t, cpuPct w = Some t -> cpuBar w <> None -> t = "NaN%").

(** The number of segments of the bar, none when there is no bar. *)
Definition count (w : widget) : nat :=
  match cpuBar w with
  | Some b => length (segs b)
  | None => 0
  end.

Definition built (w : widget) : bool :=
  match cpuBar w with
  | Some b => initialised b
  | None => true
  end.

End Cpu.

(** ** Connectivity and the log viewer *)

Module Net.
Import JS Page Env.
Local Open Scope js_scope.

Definition dot_class (c : string) : page -> page :=
  with_dom (alter (Dom.set_classes ["dot"; c]) "genNetDot").

(** [pingInternet()], for the reply [r] to the connectivity request. *)
Definition pingInternet (r : reply) : M unit :=
  try_catch
    (match r with
     | Rejected e => throw e
     | Response _ (NotJson e) => throw e
     | Response _ (Json j) =>
         let* d := gets dom in
         if bool_decide (is_Some (d !! "genNetDot"))
            && bool_decide (is_Some (d !! "genNetTxt"))
         then
           let* online := lift (get j "online") in
           if to_boolean online then
             modify (dot_class "green-blink") ;;
             modify (text_if "genNetTxt" "Online")
           else
             modify (dot_class "red") ;;
             modify (text_if "genNetTxt" "Offline")
         else ret tt
     end)
    (fun _ => ret tt).

(** What [fetch] and then [r.text()] settle with: a rejected request,
    or a response with its status and its text, if the body can be
    read. *)
Inductive text_reply :=
| NoReply (e : exn)
| TextReply (status : Z) (text : outcome string).

Section WithEngine.
Variable eng : engine.

(** [viewDbLog()] while the request is awaited. *)
Definition viewDbLog_pending (p : page) : page :=
  match dom p !! "dbLog" with
  | None => p
  | Some _ => text_if "dbLog" "Loading log..." p
  end.

(** [viewDbLog()] when the request has settled with [r]. *)
Definition viewDbLog (r : text_reply) (p : page) : page :=
  match dom p !! "dbLog" with
  | None => p
  | Some _ =>
      let p1 := text_if "dbLog" "Loading log..." p in
      match r with
      | TextReply _ (Ok txt) =>
          text_if "dbLog" (if String.eqb txt "" then "No log yet." else txt) p1
      | TextReply _ (Throw e) | NoReply e =>
          text_if "dbLog" ("Error loading log: " +++ exn_text eng e) p1
      end
  end.

End WithEngine.

(** The classes of the element of id [id]. *)
Definition classes_of (p : page) (id : string) : option (list string) :=
  Dom.classes <$> dom p !! id.

(** The reply carries a body that has properties: an answer that is
    JSON and neither [null] nor absent. *)
Definition answered (r : reply) : option value :=
  match r with
  | Response _ (Json j) => if nullish j then None else Some j
  | _ => None
  end.

End Net.

(** ** The form and the lock, together *)

Module Coherence.
Import JS Page Env Spec.

Definition value_of (p : page) (id : string) : option string :=
  Dom.value <$> dom p !! id.

Definition disabled_of (p : page) (id : string) : option bool :=
  Dom.disabled <$> dom p !! id.

(** What the enabled state of the form depends on, seen at the element
    of id [k]: the lock state, in both places it is kept, whether the
    element is disabled, and what the two selectors hold. *)
Definition controls (k : string) (p : page)
    : bool * value * option bool * option string * option string :=
  (unlocked p, win_unlocked p, disabled_of p k,
   value_of p "network_mode", value_of p "time_source").

(** The two places the lock state is kept in agree. *)
Definition lock_agrees (p : page) : Prop :=
  win_unlocked p = VBool (unlocked p).

(** The apply button is enabled exactly when the page is unlocked. *)
Definition apply_follows (p : page) : Prop :=
  is_Some (dom p !! "applyBtn") -> enabled p "applyBtn" = unlocked p.

(** The fields that depend on a selector are enabled exactly when the
    page is unlocked and the selector holds the activating value. *)
Definition fields_follow (selector activating : string) (fields : list string)
    (p : page) : Prop :=
  forall id sel, id ∈ fields -> is_Some (dom p !! id) ->
    value_of p selector = Some sel ->
    enabled p id = unlocked p && String.eqb sel activating.

Definition form_follows_lock (p : page) : Prop :=
  lock_agrees p /\ apply_follows p
  /\ fields_follow "network_mode" "static" Lock.network_fields p
  /\ fields_follow "time_source" "manual" Lock.time_fields p.

(** A step of a handler keeps the form following the lock. *)
Definition stays {A} (c : M A) : Prop :=
  forall p, form_follows_lock p -> form_follows_lock (snd (c p)).

End Coherence.

(** ** Sample documents for the tabs, the CPU bar and the indicators *)

Module Examples.
Import JS Page Env.

Definition tab (name : string) (cls : list string) : Tabs.node :=
  {| Tabs.id := None; Tabs.tab_button := true; Tabs.data_tab := Some name;
     Tabs.elem := Sample.el cls "" |}.

Definition pane (name : string) (cls : list string) : Tabs.node :=
  {| Tabs.id := Some ("content-" +++ name); Tabs.tab_button := false;
     Tabs.data_tab := None; Tabs.elem := Sample.el cls "" |}.

Definition heading : Tabs.node :=
  {| Tabs.id := Some "title"; Tabs.tab_button := false; Tabs.data_tab := None;
     Tabs.elem := Sample.el ["text-xl"] "" |}.

(** Two tabs, the first one active, and their two panes. *)
Definition tabs : list Tabs.node :=
  [heading;
   tab "general" ["border-blue-500"];
   tab "network" ["border-transparent"; "hover:border-gray"];
   pane "general" [];
   pane "network" ["hidden"]].

(** The bar before [init] and the label. *)
Definition gauge : Cpu.widget :=
  {| Cpu.cpuBar := Some {| Cpu.data_init := None; Cpu.segs := [] |};
     Cpu.cpuPct := Some "" |}.

(** The page with the connectivity indicator and the log box. *)
Definition general : page :=
  with_dom (fun d => <["genNetDot" := Sample.el ["dot"] ""]>
                     (<["genNetTxt" := Sample.el [] ""]>
                      (<["dbLog" := Sample.el [] ""]> d)))
    Sample.unlocked_page.

(** The page without the [hostname] field. *)
Definition no_hostname : page :=
  with_dom (delete "hostname") Sample.unlocked_page.


End Examples.


(** * Properties *)

(** ** Strings *)

Module StrFacts.

Lemma app_cons c s t : String c s +++ t = String c (s +++ t).
Proof. reflexivity. Qed.

Lemma app_nil_l s : "" +++ s = s.
Proof. reflexivity. Qed.

Lemma app_nil_r s : s +++ "" = s.
Proof.
  induction s as [|c s IH]; [reflexivity|]. now rewrite app_cons, IH.
Qed.

Lemma app_assoc s t u : (s +++ t) +++ u = s +++ t +++ u.
Proof.
  induction s as [|c s IH]; [reflexivity|]. now rewrite !app_cons, IH.
Qed.

Lemma length_app s t :
  String.length (s +++ t) = (String.length s + String.length t)%nat.
Proof.
  induction s as [|c s IH]; [reflexivity|]. rewrite app_cons. cbn.
  now rewrite IH.
Qed.

(** *** Decimal digits *)

Lemma digits_go_acc fuel n acc :
  Str.digits_go fuel n acc = Str.digits_go fuel n "" +++ acc.
Proof.
  revert n acc. induction fuel as [|fuel IH]; intros n acc; [reflexivity|].
  cbn [Str.digits_go]. destruct (n <? 10); [reflexivity|].
  rewrite IH, (IH _ (String _ "")). now rewrite app_assoc.
Qed.

Lemma digits_go_more fuel n acc :
  (1 <= fuel)%nat -> 0 <= n < 10 ^ Z.of_nat fuel ->
  Str.digits_go (S fuel) n acc = Str.digits_go fuel n acc.
Proof.
  revert n acc. induction fuel as [|fuel IH]; intros n acc Hf Hn; [lia|].
  cbn [Str.digits_go]. destruct (Z.ltb_spec n 10) as [|Hge]; [reflexivity|].
  change (Str.digits_go (S fuel) (n / 10) (String (Str.digit_char (n mod 10)) acc)
          = Str.digits_go fuel (n / 10) (String (Str.digit_char (n mod 10)) acc)).
  assert (Hq : 0 <= n / 10 < 10 ^ Z.of_nat fuel).
  { split; [apply Z.div_pos; lia|].
    apply Z.div_lt_upper_bound; [lia|].
    rewrite Nat2Z.inj_succ, Z.pow_succ_r in Hn by lia. lia. }
  destruct fuel as [|fuel]; [cbn in Hq; lia|].
  apply IH; [lia|exact Hq].
Qed.

Lemma digits_go_enough fuel fuel' n acc :
  (1 <= fuel <= fuel')%nat -> 0 <= n < 10 ^ Z.of_nat fuel ->
  Str.digits_go fuel' n acc = Str.digits_go fuel n acc.
Proof.
  intros [H1 Hle] Hn. induction Hle as [|fuel' Hle IH]; [reflexivity|].
  rewrite digits_go_more; [exact IH|lia|].
  split; [lia|]. eapply Z.lt_le_trans; [apply Hn|].
  apply Z.pow_le_mono_r; lia.
Qed.

Lemma log2_fuel n : 0 < n -> n < 10 ^ Z.of_nat (S (Z.to_nat (Z.log2 n))).
Proof.
  intros Hn. rewrite Nat2Z.inj_succ, Z2Nat.id by apply Z.log2_nonneg.
  destruct (Z.log2_spec n Hn) as [_ Hhi].
  eapply Z.lt_le_trans; [exact Hhi|].
  apply Z.pow_le_mono_l. lia.
Qed.

Lemma of_Z_small n : 0 <= n < 10 -> Str.of_Z n = String (Str.digit_char n) "".
Proof.
  intros Hn. unfold Str.of_Z. cbn [Str.digits_go].
  rewrite (proj2 (Z.ltb_lt n 10)) by lia. now rewrite Z.mod_small by lia.
Qed.

Lemma of_Z_step n :
  10 <= n ->
  Str.of_Z n = Str.of_Z (n / 10) +++ String (Str.digit_char (n mod 10)) "".
Proof.
  intros Hn. unfold Str.of_Z at 1. cbn [Str.digits_go].
  rewrite (proj2 (Z.ltb_ge n 10)) by lia. rewrite digits_go_acc. f_equal.
  assert (Hq : 0 < n / 10) by (apply Z.div_str_pos; lia).
  unfold Str.of_Z.
  apply (digits_go_enough (S (Z.to_nat (Z.log2 (n / 10))))).
  - split; [lia|].
    assert (3 <= Z.log2 n) by (apply (Z.log2_le_pow2 n 3); lia).
    assert (Z.log2 (n / 10) < Z.log2 n - 1); [|lia].
    apply Z.log2_lt_pow2; [assumption|].
    destruct (Z.log2_spec n ltac:(lia)) as [Hlo Hhi].
    apply Z.div_lt_upper_bound; [lia|].
    replace (Z.succ (Z.log2 n)) with (Z.log2 n - 1 + 2) in Hhi by lia.
    rewrite Z.pow_add_r in Hhi by lia. change (2 ^ 2) with 4 in Hhi. lia.
  - split; [lia|]. now apply log2_fuel.
Qed.

Lemma length_of_Z_pos n : (1 <= String.length (Str.of_Z n))%nat.
Proof.
  unfold Str.of_Z. cbn [Str.digits_go]. destruct (n <? 10); [cbn; lia|].
  rewrite digits_go_acc, length_app. cbn. lia.
Qed.

Lemma length_of_Z_small n : 0 <= n < 10 -> String.length (Str.of_Z n) = 1%nat.
Proof. intros Hn. now rewrite of_Z_small. Qed.

Lemma of_Z_two n :
  10 <= n < 100 ->
  Str.of_Z n
  = String (Str.digit_char (n / 10)) (String (Str.digit_char (n mod 10)) "").
Proof.
  intros Hn. rewrite of_Z_step by lia. rewrite of_Z_small; [reflexivity|].
  split; [apply Z.div_pos; lia|apply Z.div_lt_upper_bound; lia].
Qed.

(** [padStart(2, '0')] on the digits of a number below 100. *)
Lemma padStart2_of_Z n :
  0 <= n < 100 -> Str.padStart2 (Str.of_Z n) = Spec.two_digits n.
Proof.
  intros Hn. unfold Spec.two_digits. destruct (Z.lt_ge_cases n 10) as [Hlt|Hge].
  - rewrite of_Z_small by lia. rewrite Z.div_small, Z.mod_small by lia.
    reflexivity.
  - now rewrite of_Z_two by lia.
Qed.

Lemma take_app s t : Str.take (String.length s) (s +++ t) = s.
Proof.
  induction s as [|c s IH]; [now destruct t|].
  rewrite app_cons. cbn. now rewrite IH.
Qed.

Lemma drop_app s t : Str.drop (String.length s) (s +++ t) = t.
Proof. induction s as [|c s IH]; [reflexivity|]. rewrite app_cons. exact IH. Qed.

(** The digits of a number, cut before its last two. *)
Lemma of_Z_hundreds n :
  100 <= n ->
  Str.of_Z n = Str.of_Z (n / 100) +++ Spec.two_digits (n mod 100).
Proof.
  intros Hn. rewrite of_Z_step by lia.
  assert (Hq : 10 <= n / 10) by (apply Z.div_le_lower_bound; lia).
  rewrite (of_Z_step (n / 10)) by lia.
  rewrite Z.div_div by lia. change (10 * 10) with 100.
  rewrite app_assoc. unfold Spec.two_digits. rewrite app_cons, app_nil_l.
  replace (n mod 100 / 10) with ((n / 10) mod 10)
    by (Z.div_mod_to_equations; lia).
  replace ((n mod 100) mod 10) with (n mod 10)
    by (Z.div_mod_to_equations; lia).
  reflexivity.
Qed.

End StrFacts.

(** ** The monad, and what a piece of code leaves untouched *)

Module Frame.
Import JS Page.

Section Keeps.
Context {B : Type} (proj : page -> B).

(** [c] keeps the part [proj] of the page, whether it returns or
    throws. *)
Definition keeps {A} (c : M A) : Prop := forall p, proj (snd (c p)) = proj p.

Lemma keeps_ret {A} (a : A) : keeps (ret a).
Proof. intros p; reflexivity. Qed.

Lemma keeps_throw {A} (e : exn) : keeps (@throw A e).
Proof. intros p; reflexivity. Qed.

Lemma keeps_lift {A} (o : outcome A) : keeps (lift o).
Proof. intros p; reflexivity. Qed.

Lemma keeps_gets {A} (f : page -> A) : keeps (gets f).
Proof. intros p; reflexivity. Qed.

Lemma keeps_must id prop : keeps (must id prop).
Proof. intros p; unfold must; destruct (dom p !! id); reflexivity. Qed.

Lemma keeps_modify (f : page -> page) :
  (forall p, proj (f p) = proj p) -> keeps (modify f).
Proof. intros H p; apply H. Qed.

Lemma keeps_bind {A C} (c : M A) (k : A -> M C) :
  keeps c -> (forall a, keeps (k a)) -> keeps (bind c k).
Proof.
  intros Hc Hk p. unfold bind.
  destruct (c p) as [[a|e] p'] eqn:E.
  - rewrite Hk. specialize (Hc p). now rewrite E in Hc.
  - specialize (Hc p). now rewrite E in Hc.
Qed.

Lemma keeps_try {A} (c : M A) (h : exn -> M A) :
  keeps c -> (forall e, keeps (h e)) -> keeps (try_catch c h).
Proof.
  intros Hc Hh p. unfold try_catch.
  destruct (c p) as [[a|e] p'] eqn:E.
  - specialize (Hc p). now rewrite E in Hc.
  - rewrite Hh. specialize (Hc p). now rewrite E in Hc.
Qed.

Lemma keeps_if {A} (b : bool) (c d : M A) :
  keeps c -> keeps d -> keeps (if b then c else d).
Proof. destruct b; auto. Qed.

Lemma keeps_run {A} (c : M A) p : keeps c -> proj (run c p) = proj p.
Proof. intros H; apply H. Qed.

End Keeps.

Create HintDb keeps discriminated.
#[export] Hint Resolve keeps_ret keeps_throw keeps_lift keeps_gets keeps_must
  keeps_bind keeps_try keeps_if : keeps.

Ltac keeps_tac :=
  repeat first
    [ apply keeps_bind; [|intros ?]
    | apply keeps_try; [|intros ?]
    | apply keeps_if
    | apply keeps_ret | apply keeps_throw | apply keeps_lift
    | apply keeps_gets | apply keeps_must
    | apply keeps_modify; intros ?; reflexivity ].

End Frame.

(** ** The cache under full snapshots *)

Module CacheFacts.
Import JS Page Spec Telemetry Frame.

Lemma setFreqTemp_meta f t p : meta (setFreqTemp f t p) = meta p.
Proof. unfold setFreqTemp. destruct t; reflexivity. Qed.

Lemma render_keeps_meta : keeps meta render_load /\ keeps meta render_governor.
Proof.
  split.
  - unfold render_load. keeps_tac.
  - unfold render_governor. keeps_tac.
Qed.

(** The cache after [setMetaFull] is the cache after its seven
    assignments: the rendering only writes to the document. *)
Lemma setMetaFull_meta j p :
  meta (run (setMetaFull j) p) = meta (run (merge j) p).
Proof.
  unfold run, setMetaFull, bind at 1.
  destruct (merge j p) as [[[]|e] p1]; [|reflexivity].
  cbn [snd].
  match goal with |- meta (snd (?c p1)) = _ =>
    refine ((_ : keeps meta c) p1) end.
  destruct render_keeps_meta as [Hl Hg].
  apply keeps_bind; [apply keeps_gets|intros m].
  apply keeps_bind; [apply keeps_modify; intros; apply setFreqTemp_meta|intros _].
  apply keeps_bind; [exact Hl|intros _].
  apply keeps_bind; [exact Hg|intros _].
  keeps_tac.
Qed.

(** What the seven assignments write. *)
Lemma merge_meta j p :
  meta (run (merge j) p) =
  {| load := or_else (carried Load j) (load (meta p));
     governor := unless_null (carried Governor j) (governor (meta p));
     min := unless_null (carried Min j) (min (meta p));
     max := unless_null (carried Max j) (max (meta p));
     up := unless_null (carried Up j) (up (meta p));
     freq := unless_null (carried Freq j) (freq (meta p));
     temp := unless_null (carried Temp j) (temp (meta p)) |}.
Proof.
  destruct p as [d m w u dl off cpu], m; destruct j; reflexivity.
Qed.

Lemma cached_after j p f :
  cached f (meta (run (setMetaFull j) p)) =
  match f with
  | Load => or_else (carried f j) (cached f (meta p))
  | _ => unless_null (carried f j) (cached f (meta p))
  end.
Proof. rewrite setMetaFull_meta, merge_meta. destruct f; reflexivity. Qed.

(** C1, as the code has it.  A full snapshot overwrites exactly the
    fields of the cache that it writes: the load when the update's load
    is truthy, each of the six other fields when it is present and not
    null in the update; a field that is written holds the update's
    value, every other field its old value.  A field that is written
    is present and not null, and a field that is present and not null
    is written unless it is a load that is not an object.  Hence over
    any run of full snapshots a field that no update supplies never
    changes. *)
Theorem setMetaFull_overwrites_written :
  (forall j p f,
     cached f (meta (run (setMetaFull j) p)) =
     if written f j then carried f j else cached f (meta p))
  /\ (forall j f, written f j = true -> supplied f j = true)
  /\ (forall j f, supplied f j = true ->
        f <> Load \/ is_object (carried f j) = true -> written f j = true)
  /\ (forall js p f, Forall (fun j => supplied f j = false) js ->
        cached f (meta (apply_snapshots js p)) = cached f (meta p)).
Proof.
  assert (Hone : forall j p f,
            cached f (meta (run (setMetaFull j) p)) =
            if written f j then carried f j else cached f (meta p)).
  { intros j p f. rewrite cached_after.
    destruct f; unfold written, supplied, unless_null, or_else;
      try (now destruct (nullish _)); reflexivity. }
  assert (Hsub : forall j f, written f j = true -> supplied f j = true).
  { intros j f. destruct f; cbn [written]; try easy.
    unfold supplied. now destruct (carried Load j). }
  split; [exact Hone|]. split; [exact Hsub|]. split.
  - intros j f Hs [Hf|Ho]; destruct f; cbn [written]; try assumption;
      try congruence.
    now destruct (carried Load j).
  - intros js. induction js as [|j js IH]; intros p f Hall; [reflexivity|].
    inversion Hall as [|? ? Hj Hjs]; subst. cbn [apply_snapshots fold_left].
    change (cached f (meta (apply_snapshots js (run (setMetaFull j) p)))
            = cached f (meta p)).
    rewrite IH by assumption. rewrite Hone.
    destruct (written f j) eqn:Hw; [|reflexivity].
    apply Hsub in Hw. congruence.
Qed.

(** The claim's "present and not null" is not what decides the load:
    a load that is [false] is present and not null, and is not
    written. *)
Lemma falsy_load_not_written :
  supplied Load (VObj [("load", VBool false)]) = true
  /\ cached Load (meta (run (setMetaFull (VObj [("load", VBool false)]))
                          Sample.blank)) = VNull
  /\ cached Load (meta (run (setMetaFull (VObj [("load", VBool false)]))
                          Sample.blank))
     <> carried Load (VObj [("load", VBool false)]).
Proof.
  split; [reflexivity|].
  assert (H : cached Load (meta (run (setMetaFull (VObj [("load", VBool false)]))
                                   Sample.blank)) = VNull).
  { rewrite cached_after. reflexivity. }
  split; [exact H|]. rewrite H. discriminate.
Qed.

Lemma setMetaFull_overwrites_written_witness :
  supplied Governor Sample.snapshot1 = true
  /\ cached Load (meta (apply_snapshots
        [VObj [("temp_c", VNum Sample.n45_5)]; VNull] Sample.blank)) = VNull.
Proof.
  split.
  - apply (proj1 (proj2 setMetaFull_overwrites_written) Sample.snapshot1
             Governor).
    reflexivity.
  - apply (proj2 (proj2 (proj2 setMetaFull_overwrites_written))
             [VObj [("temp_c", VNum Sample.n45_5)]; VNull] Sample.blank Load).
    repeat constructor.
Defined.

End CacheFacts.

(** ** The fast channel *)

Module FastFacts.
Import JS Page Spec Telemetry.

(** C2. After a full snapshot has shown 45.5 degrees, a message of the
    fast channel that carries only [freq_khz] hides the temperature
    row, and one that carries only [temp_c] puts the placeholder in the
    frequency display; the cache is not touched by either. *)
Theorem fast_update_clobbers_display :
  let p1 := run (setMetaFull Sample.snapshot1) Sample.locked in
  let p2 := run (onmessage (VObj [("freq_khz", VNum (Num.of_Z 1000000))])) p1 in
  let p3 := run (onmessage (VObj [("temp_c", VNum Sample.n45_5)])) p1 in
  (display_of p1 "rowTemp" = Some "" /\ text_of p1 "cpuTemp" = Some "45.5 °C"
   /\ text_of p1 "cpuFreq" = Some "900 MHz")
  /\ (display_of p2 "rowTemp" = Some "none" /\ temp (meta p2) = VNum Sample.n45_5)
  /\ (text_of p3 "cpuFreq" = Some "— MHz"
      /\ freq (meta p3) = VNum (Num.of_Z 900000)).
Proof. vm_compute. repeat split. Qed.

(** The same for any page and any message that has [freq_khz] and no
    [temp_c]: the row, if there is one, ends up hidden. *)
Lemma fast_update_hides_row p props f :
  lookup "freq_khz" props = Some f ->
  lookup "temp_c" props = None ->
  display_of (run (onmessage (VObj props)) p) "rowTemp"
  = (fun _ => "none") <$> display_of p "rowTemp".
Proof.
  intros Hf Ht. unfold run, onmessage, bind, lift, get, has, modify, ret.
  cbn. rewrite Hf, Ht. cbn.
  assert (H : forall q, display_of (setFreqTemp f VUndefined q) "rowTemp"
                        = (fun _ => "none") <$> display_of q "rowTemp").
  { intros q. unfold display_of, setFreqTemp, text_if, with_dom. cbn.
    rewrite lookup_alter_eq, lookup_alter_ne by discriminate.
    destruct (dom q !! "rowTemp"); reflexivity. }
  destruct (default VUndefined (lookup "cpu" props)) as [| | | x | | |];
    first [exact (H p) | exact (H (with_lastCpu x p))].
Qed.

End FastFacts.

(** ** Dependent fields *)

Module FieldFacts.
Import JS Page Spec Lock.

Lemma fold_alter_lookup (f : Dom.element -> Dom.element) ids (d : Dom.document) k :
  NoDup ids ->
  fold_left (fun d id => alter f id d) ids d !! k
  = if bool_decide (k ∈ ids) then f <$> d !! k else d !! k.
Proof.
  revert d. induction ids as [|id ids IH]; intros d Hnd; [reflexivity|].
  inversion Hnd as [|? ? Hid Hrest]; subst. cbn [fold_left].
  rewrite IH by assumption.
  destruct (decide (k = id)) as [->|Hne].
  - rewrite (bool_decide_eq_false_2 (id ∈ ids)) by assumption.
    rewrite bool_decide_eq_true_2 by constructor.
    now rewrite lookup_alter_eq.
  - rewrite lookup_alter_ne by congruence.
    assert (Hiff : k ∈ id :: ids <-> k ∈ ids).
    { rewrite elem_of_cons. tauto. }
    now rewrite (bool_decide_ext _ _ Hiff).
Qed.

Lemma dim_disabled off el : Dom.disabled (dim off el) = off.
Proof.
  unfold dim, Dom.class_toggle, Dom.class_add, Dom.class_remove.
  destruct off; [destruct (Dom.has_class _ _)|]; reflexivity.
Qed.

(** After the dependent fields of a selector are recomputed, each of
    them is enabled exactly when the page is unlocked and the selector
    holds the activating value. *)
Lemma dependent_enabled selector activating fields p sel id :
  NoDup fields ->
  dom p !! selector = Some sel ->
  id ∈ fields ->
  is_Some (dom p !! id) ->
  enabled (dependent selector activating fields p) id
  = to_boolean (win_unlocked p) && String.eqb (Dom.value sel) activating.
Proof.
  intros Hnd Hsel Hin [el Hel]. unfold enabled, dependent. rewrite Hsel. cbn.
  rewrite fold_alter_lookup by assumption.
  rewrite bool_decide_eq_true_2 by assumption. rewrite Hel. cbn.
  rewrite dim_disabled. now rewrite negb_orb, !negb_involutive.
Qed.

Lemma dependent_other selector activating fields p k :
  NoDup fields -> k ∉ fields ->
  dom (dependent selector activating fields p) !! k = dom p !! k.
Proof.
  intros Hnd Hk. unfold dependent. destruct (dom p !! selector); [|reflexivity].
  cbn. rewrite fold_alter_lookup by assumption.
  now rewrite bool_decide_eq_false_2.
Qed.

Lemma fields_disjoint id : id ∈ network_fields -> id ∉ time_fields.
Proof.
  unfold network_fields, time_fields.
  rewrite !elem_of_cons, !elem_of_nil. intros H1 H2.
  decompose [or] H1; subst; decompose [or] H2; discriminate || contradiction.
Qed.

Lemma dependent_win selector activating fields p :
  win_unlocked (dependent selector activating fields p) = win_unlocked p.
Proof. unfold dependent. now destruct (dom p !! selector). Qed.





End FieldFacts.

(** ** Unlocking and locking *)

Module LockFacts.
Import JS Page Env Spec Lock Handlers Frame.

Lemma unlock_failed_cases j p :
  (exists s, unlock_failed j p = (Ok tt, text_if "unlockErr" s p))
  \/ (exists e, unlock_failed j p = (Throw e, p)).
Proof.
  unfold unlock_failed, bind, lift, modify.
  destruct (get j "error") as [v|e]; [|right; eauto].
  destruct (to_string _) as [s|e]; [left|right]; eauto.
Qed.

(** A refused unlock attempt writes at most the text of the error
    line. *)
Lemma confirm_refused eng r p :
  accepted r = false ->
  confirmUnlock eng r p = p
  \/ exists s, confirmUnlock eng r p = text_if "unlockErr" s p.
Proof.
  intros Hacc. unfold confirmUnlock.
  destruct (confirm_on (dlg p)); [|now left].
  right. unfold run, try_catch.
  destruct r as [e|status [e|j]]; cbn; eauto.
  cbn in Hacc.
  assert (Hfail : exists s,
            (let (o, p') := unlock_failed j p in
             match o with
             | Ok a => (Ok a, p')
             | Throw e => modify (text_if "unlockErr"
                                    ("Error: " +++ exn_text eng e)) p'
             end).2 = text_if "unlockErr" s p).
  { destruct (unlock_failed_cases j p) as [[s ->]|[e ->]]; cbn; eauto. }
  destruct (status_ok status); [|exact Hfail].
  unfold bind at 1, lift at 1.
  destruct j; cbn in *; eauto;
    match goal with
    | H : to_boolean ?v = false |- _ => rewrite H; exact Hfail
    end.
Qed.

Lemma text_if_disabled id s p k :
  Dom.disabled <$> dom (text_if id s p) !! k = Dom.disabled <$> dom p !! k.
Proof.
  unfold text_if. cbn. destruct (decide (k = id)) as [->|Hne].
  - rewrite lookup_alter_eq. now destruct (dom p !! id).
  - now rewrite lookup_alter_ne by congruence.
Qed.

Lemma done_false_unlocked p : unlocked (done false p) = unlocked p.
Proof. unfold done. cbn. now destruct (pending (dlg p)). Qed.

Lemma dependent_unlocked s a fs p : unlocked (dependent s a fs p) = unlocked p.
Proof. unfold dependent. now destruct (dom p !! s). Qed.

Lemma setFreqTemp_unlocked f t p :
  unlocked (Telemetry.setFreqTemp f t p) = unlocked p.
Proof. unfold Telemetry.setFreqTemp. now destruct t. Qed.

Ltac keeps_unlocked :=
  repeat first
    [ apply keeps_bind; [|intros ?]
    | apply keeps_try; [|intros ?]
    | apply keeps_if
    | apply keeps_ret | apply keeps_throw | apply keeps_lift
    | apply keeps_gets | apply keeps_must
    | apply keeps_modify; intros ?;
      first [reflexivity | apply setFreqTemp_unlocked]
    | match goal with
      | |- keeps _ (match ?x with _ => _ end) => destruct x
      end ].

Lemma setMetaFull_unlocked j : keeps unlocked (Telemetry.setMetaFull j).
Proof.
  unfold Telemetry.setMetaFull, Telemetry.merge, Telemetry.render_load,
    Telemetry.render_governor.
  keeps_unlocked.
Qed.

Lemma applyConfig_unlocked eng r : keeps unlocked (applyConfig eng r).
Proof.
  unfold applyConfig. apply keeps_bind; [keeps_unlocked|intros _].
  apply keeps_bind.
  { generalize form_fields. intros ids.
    induction ids as [|id ids IH]; cbn [read_form]; keeps_unlocked.
    exact IH. }
  intros _. unfold on_response, has_msg. keeps_unlocked.
Qed.

(** Only an accepted unlock request takes the page from locked to
    unlocked. *)
Lemma unlock_only_when_accepted eng ev p :
  unlocked p = false ->
  unlocked (Events.handle eng ev p) = true ->
  exists r, ev = Events.ConfirmUnlockClick r /\ accepted r = true.
Proof.
  intros Hl Hu.
  destruct ev as [r| |r|v|v|r|r now now'|j|now]; cbn [Events.handle] in *.
  - exfalso. revert Hu. unfold lockButton.
    destruct (dom p !! "unlockBtn"); [|congruence]. rewrite Hl.
    rewrite (keeps_run unlocked); [congruence|].
    unfold unlockFlow. keeps_unlocked.
  - exfalso. revert Hu. unfold cancelUnlock.
    destruct (cancel_on (dlg p)); [rewrite done_false_unlocked|]; congruence.
  - exists r. split; [reflexivity|].
    destruct (accepted r) eqn:Hacc; [reflexivity|exfalso].
    destruct (confirm_refused eng r p Hacc) as [E|[s E]];
      rewrite E in Hu; cbn in Hu; congruence.
  - exfalso. revert Hu. unfold setNetworkFieldState.
    rewrite dependent_unlocked. cbn. congruence.
  - exfalso. revert Hu. unfold setTimeFieldState.
    rewrite dependent_unlocked. cbn. congruence.
  - exfalso. revert Hu. destruct (dom p !! "applyBtn"); [|congruence].
    rewrite (keeps_run unlocked) by apply applyConfig_unlocked. congruence.
  - exfalso. revert Hu. unfold Clock.init_refresh.
    rewrite (keeps_run unlocked); [congruence|].
    apply keeps_try; [|intros; apply keeps_ret].
    destruct r as [e|status [e|j]]; try apply keeps_throw.
    apply keeps_bind; [apply setMetaFull_unlocked|intros _].
    unfold Clock.syncClockFromServer. keeps_unlocked.
  - exfalso. revert Hu. rewrite (keeps_run unlocked); [congruence|].
    unfold Telemetry.onmessage. keeps_unlocked.
  - exfalso. revert Hu. cbn. congruence.
Qed.

Lemma enabled_text_if id s p k : enabled (text_if id s p) k = enabled p k.
Proof.
  unfold enabled. pose proof (text_if_disabled id s p k) as H.
  destruct (dom (text_if id s p) !! k), (dom p !! k); cbn in H;
    congruence.
Qed.

Lemma text_of_text_if id s p :
  text_of (text_if id s p) id = (fun _ => s) <$> text_of p id.
Proof.
  unfold text_of, text_if. cbn. rewrite lookup_alter_eq.
  now destruct (dom p !! id).
Qed.

(** What the confirm handler does with a refused attempt, by the text
    it leaves in the error line. *)
Lemma confirm_refused_shows eng r p :
  accepted r = false -> confirm_on (dlg p) = true ->
  exists s, confirmUnlock eng r p = text_if "unlockErr" s p
    /\ match r with
       | Rejected e | Response _ (NotJson e) => s = "Error: " +++ exn_text eng e
       | Response status (Json j) =>
           if nullish j
           then s = "Error: " +++ exn_text eng
                      (TypeError (if status_ok status then "ok" else "error") j)
           else
             match to_string (Telemetry.or_else (get_safe j "error")
                                (VStr "Unlock failed")) with
             | Ok t => s = t
             | Throw e => s = "Error: " +++ exn_text eng e
             end
       end.
Proof.
  intros Hacc Hon. unfold confirmUnlock. rewrite Hon.
  destruct r as [e|status [e|j]]; [eexists; split; reflexivity..|].
  cbn in Hacc. unfold run, try_catch.
  destruct (nullish j) eqn:Hj.
  - destruct j; try discriminate;
      destruct (status_ok status); eexists; split; reflexivity.
  - assert (Hget : forall k, get j k = Ok (get_safe j k))
      by (intros k; destruct j; try reflexivity; discriminate).
    assert (Hfail : exists s,
              snd (let (o, p') := unlock_failed j p in
                   match o with
                   | Ok a => (Ok a, p')
                   | Throw e => modify (text_if "unlockErr"
                                          ("Error: " +++ exn_text eng e)) p'
                   end) = text_if "unlockErr" s p
              /\ match to_string (Telemetry.or_else (get_safe j "error")
                                    (VStr "Unlock failed")) with
                 | Ok t => s = t
                 | Throw e => s = "Error: " +++ exn_text eng e
                 end).
    { unfold unlock_failed, bind, lift, modify. rewrite Hget.
      destruct (to_string _) as [t|e]; eexists; split; reflexivity. }
    destruct (status_ok status); [|exact Hfail].
    unfold bind at 1, lift at 1. rewrite Hget.
    cbn [andb] in Hacc. rewrite Hacc. exact Hfail.
Qed.

Lemma text_if_elsewhere id s p k :
  k <> id -> dom (text_if id s p) !! k = dom p !! k.
Proof. intros Hne. unfold text_if. cbn. now rewrite lookup_alter_ne by congruence. Qed.

(** C5, as the code has it.  An unlock attempt that is not answered
    with a 2xx status and a body whose [ok] is truthy leaves the page
    locked and the dialog open: the lock state, the enabled state of
    every element, the handlers of the dialog and every element but
    the error line are as before.  The error line of the dialog then
    shows: the body's [error] when the body is JSON, not [null], and
    its [error] is truthy; ["Unlock failed"] when that [error] is
    absent or falsy; ["Error: "] and the error when the request was
    rejected, when the body is not JSON, when it is [null], or when
    its [error] cannot be turned into a string.  No event other than
    an unlock attempt answered with a 2xx status and a truthy [ok]
    takes the page from locked to unlocked. *)
Theorem refused_unlock_stays_locked :
  (forall eng r p, accepted r = false ->
     let p' := confirmUnlock eng r p in
     unlocked p' = unlocked p /\ win_unlocked p' = win_unlocked p
     /\ (forall id, enabled p' id = enabled p id)
     /\ dlg p' = dlg p
     /\ (forall id, id <> "unlockErr" -> dom p' !! id = dom p !! id))
  /\
  (forall eng r p, accepted r = false -> confirm_on (dlg p) = true ->
     let shown := text_of (confirmUnlock eng r p) "unlockErr" in
     let line s := (fun _ : string => s) <$> text_of p "unlockErr" in
     (forall status j, r = Response status (Json j) -> nullish j = false ->
        let err := get_safe j "error" in
        (to_boolean err = false -> shown = line "Unlock failed")
        /\ (forall s, to_boolean err = true -> to_string err = Ok s ->
              shown = line s)
        /\ (forall s, err = VStr s -> s <> "" -> shown = line s)
        /\ (forall e, to_boolean err = true -> to_string err = Throw e ->
              shown = line ("Error: " +++ exn_text eng e)))
     /\ (forall e, r = Rejected e \/ (exists status, r = Response status (NotJson e)) ->
           shown = line ("Error: " +++ exn_text eng e))
     /\ (forall status j, r = Response status (Json j) -> nullish j = true ->
           shown = line ("Error: " +++ exn_text eng
                           (TypeError (if status_ok status then "ok" else "error")
                              j))))
  /\
  (forall eng ev p, unlocked p = false ->
     unlocked (Events.handle eng ev p) = true ->
     exists r, ev = Events.ConfirmUnlockClick r /\ accepted r = true).
Proof.
  split; [|split].
  - intros eng r p Hacc p'. subst p'.
    destruct (confirm_refused eng r p Hacc) as [->|[s ->]].
    + auto.
    + repeat split; try reflexivity.
      * intros id. apply enabled_text_if.
      * intros id Hid. now apply text_if_elsewhere.
  - intros eng r p Hacc Hon shown line.
    destruct (confirm_refused_shows eng r p Hacc Hon) as (s & Hp' & Hs).
    assert (Hshown : shown = line s).
    { subst shown line. rewrite Hp'. apply text_of_text_if. }
    split; [|split].
    + intros status j -> Hj err. rewrite Hj in Hs. fold err in Hs.
      assert (Hfalse : to_boolean err = false -> shown = line "Unlock failed").
      { intros Hb. unfold Telemetry.or_else in Hs. rewrite Hb in Hs.
        cbn in Hs. now rewrite Hshown, Hs. }
      assert (Htrue : forall t, to_boolean err = true -> to_string err = Ok t ->
                shown = line t).
      { intros t Hb Ht. unfold Telemetry.or_else in Hs. rewrite Hb, Ht in Hs.
        now rewrite Hshown, Hs. }
      split; [exact Hfalse|]. split; [exact Htrue|]. split.
      * intros t Ht Hne. apply Htrue; rewrite Ht; [|reflexivity].
        cbn. now destruct (String.eqb_spec t "").
      * intros e Hb He. unfold Telemetry.or_else in Hs. rewrite Hb, He in Hs.
        now rewrite Hshown, Hs.
    + intros e [->|[status ->]]; now rewrite Hshown, Hs.
    + intros status j -> Hj. rewrite Hj in Hs. now rewrite Hshown, Hs.
  - apply unlock_only_when_accepted.
Qed.

(** The claim's [ok:true] is not what the code asks for: with the
    dialog open on the locked sample page, a 200 answer whose [ok] is
    the string ["false"] unlocks the page. *)
Lemma truthy_ok_unlocks :
  unlocked (lockButton (Rejected (Failure "")) Sample.locked) = false
  /\ get_safe (VObj [("ok", VStr "false")]) "ok" <> VBool true
  /\ unlocked (confirmUnlock Sample.engine0
                 (Response 200 (Json (VObj [("ok", VStr "false")])))
                 (lockButton (Rejected (Failure "")) Sample.locked)) = true
  /\ enabled (confirmUnlock Sample.engine0
                (Response 200 (Json (VObj [("ok", VStr "false")])))
                (lockButton (Rejected (Failure "")) Sample.locked)) "hostname"
     = true.
Proof. vm_compute. repeat split. discriminate. Qed.

(** The dialog open on the locked sample page, and the answer
    [{ok: false, error: "bad password"}] with status 401. *)
Lemma refused_unlock_stays_locked_witness :
  unlocked (confirmUnlock Sample.engine0
              (Response 401 (Json (VObj [("ok", VBool false);
                                         ("error", VStr "bad password")])))
              (lockButton (Rejected (Failure "")) Sample.locked))
  = unlocked (lockButton (Rejected (Failure "")) Sample.locked)
  /\ text_of (confirmUnlock Sample.engine0
                (Response 401 (Json (VObj [("ok", VBool false);
                                           ("error", VStr "bad password")])))
                (lockButton (Rejected (Failure "")) Sample.locked)) "unlockErr"
     = (fun _ => "bad password")
         <$> text_of (lockButton (Rejected (Failure "")) Sample.locked)
               "unlockErr".
Proof.
  split.
  - exact (proj1 (proj1 refused_unlock_stays_locked Sample.engine0
                    (Response 401 (Json (VObj [("ok", VBool false);
                                               ("error", VStr "bad password")])))
                    (lockButton (Rejected (Failure "")) Sample.locked)
                    eq_refl)).
  - apply (proj1 (proj2 (proj2 (proj1 (proj1 (proj2 refused_unlock_stays_locked)
             Sample.engine0
             (Response 401 (Json (VObj [("ok", VBool false);
                                        ("error", VStr "bad password")])))
             (lockButton (Rejected (Failure "")) Sample.locked)
             eq_refl eq_refl)
             401 (VObj [("ok", VBool false); ("error", VStr "bad password")])
             eq_refl eq_refl))) "bad password").
    + reflexivity.
    + discriminate.
Defined.

Lemma lock_rejected_noop e p :
  unlocked p = true -> lockButton (Rejected e) p = p.
Proof.
  intros Hu. unfold lockButton. destruct (dom p !! "unlockBtn"); [|reflexivity].
  rewrite Hu. reflexivity.
Qed.

Lemma lock_answered status b p :
  is_Some (dom p !! "unlockBtn") -> unlocked p = true ->
  lockButton (Response status b) p = lock_refresh (with_unlocked false p).
Proof.
  intros [el Hel] Hu. unfold lockButton. rewrite Hel, Hu. reflexivity.
Qed.

(** C6. On the unlocked sample page: when the lock request is rejected
    (the network is down), the click on the lock button changes
    nothing, the page stays unlocked and its fields enabled; when the
    request is answered, with whatever status, the page is locked and
    the fields are disabled. *)
Theorem rejected_lock_request_keeps_page_unlocked :
  let p := Sample.unlocked_page in
  let p1 := lockButton (Rejected (Failure "TypeError: Failed to fetch")) p in
  let p2 := lockButton (Response 500 (NotJson (Failure "SyntaxError"))) p in
  (unlocked p = true /\ enabled p "hostname" = true)
  /\ (p1 = p /\ unlocked p1 = true /\ enabled p1 "hostname" = true
      /\ text_of p1 "lockStatus" = Some "Unlocked")
  /\ (unlocked p2 = false /\ enabled p2 "hostname" = false
      /\ enabled p2 "applyBtn" = false
      /\ text_of p2 "lockStatus" = Some "Locked").
Proof. vm_compute. repeat split. Qed.

End LockFacts.

(** ** Submitting the configuration *)

Module SubmitFacts.
Import JS Page Env Spec Handlers.

Lemma read_form_ok ids p :
  Forall (fun id => is_Some (dom p !! id)) ids ->
  exists vs, read_form ids p = (Ok vs, p).
Proof.
  induction ids as [|id ids IH]; intros Hall; [now exists []|].
  inversion Hall as [|? ? [el Hel] Hrest]; subst.
  destruct (IH Hrest) as [vs Hvs].
  exists ((id, Dom.value el) :: vs).
  cbn [read_form]. unfold bind, must. rewrite Hel, Hvs. reflexivity.
Qed.

Lemma alter_is_Some (f : Dom.element -> Dom.element) k (d : Dom.document) i :
  is_Some (alter f k d !! i) <-> is_Some (d !! i).
Proof.
  destruct (decide (i = k)) as [->|Hne].
  - rewrite lookup_alter_eq. rewrite fmap_is_Some. reflexivity.
  - now rewrite lookup_alter_ne by congruence.
Qed.

Lemma get_ok j k : nullish j = false -> get j k = Ok (get_safe j k).
Proof. destruct j; try reflexivity; discriminate. Qed.

Lemma applyConfig_response eng status b p :
  form_present p ->
  run (applyConfig eng (Response status b)) p
  = run (try_catch (on_response status (body_json b))
           (fun e => bind (modify (msg_class "msg-err")) (fun _ =>
              modify (text_if "msg" ("Unexpected error: " +++ exn_text eng e)))))
      (sent p).
Proof.
  intros Hform. unfold run, applyConfig.
  unfold bind at 1, modify at 1. fold (sent p).
  destruct (read_form_ok form_fields (sent p)) as [vs Hvs].
  { unfold form_present in Hform. eapply Forall_impl; [exact Hform|].
    intros id Hid. cbn. now apply alter_is_Some. }
  unfold bind at 1. rewrite Hvs. destruct b; reflexivity.
Qed.

Lemma text_of_msg_append s p :
  text_of (msg_append s p) "msg" = (fun t => t +++ s) <$> text_of p "msg".
Proof.
  unfold text_of, msg_append. cbn. rewrite lookup_alter_eq.
  now destruct (dom p !! "msg").
Qed.

Lemma text_of_msg_class c p : text_of (msg_class c p) "msg" = text_of p "msg".
Proof.
  unfold text_of, msg_class. cbn. rewrite lookup_alter_eq.
  now destruct (dom p !! "msg").
Qed.

Lemma has_msg_true p q :
  is_Some (dom p !! "msg") -> has_msg (sent p) = (Ok true, sent p)
  /\ (q = sent p -> is_Some (dom q !! "msg")).
Proof.
  intros Hm. split.
  - unfold has_msg, gets. rewrite bool_decide_eq_true_2; [reflexivity|].
    cbn. now apply alter_is_Some.
  - intros ->. cbn. now apply alter_is_Some.
Qed.

(** The message line after a response. *)
Lemma surfaced eng status b p :
  form_present p -> is_Some (dom p !! "msg") ->
  let j := body_json b in
  let p' := run (applyConfig eng (Response status b)) p in
  (status_ok status = true -> nullish j = false ->
   forall s, to_string (Telemetry.or_else (get_safe j "message") (VStr "Saved."))
             = Ok s ->
   text_of p' "msg" = Some s)
  /\
  (status_ok status = false ->
   forall s, to_string (failure_text j status) = Ok s ->
   text_of p' "msg"
   = Some (s +++ (if status =? 403 then unlock_hint else "")
             +++ (if to_boolean j && to_boolean (get_safe j "requires_root")
                  then root_hint else ""))).
Proof.
  intros Hform Hmsg j p'. subst p'. rewrite applyConfig_response by assumption.
  fold j. destruct (has_msg_true p (sent p) Hmsg) as [Hhas Hsome].
  specialize (Hsome eq_refl).
  assert (Htext : forall c s q, q = text_if "msg" s (msg_class c (sent p)) ->
            text_of q "msg" = Some s).
  { intros c s q ->. rewrite LockFacts.text_of_text_if, text_of_msg_class.
    unfold text_of. destruct Hsome as [el ->]. reflexivity. }
  split.
  - intros Hok Hj s Hs.
    unfold run, try_catch, on_response, bind at 1. rewrite Hhas, Hok.
    unfold bind, modify, lift. rewrite get_ok by assumption. rewrite Hs.
    cbn [snd]. now apply (Htext "msg-ok").
  - intros Hok s Hs.
    unfold run, try_catch, on_response, bind at 1. rewrite Hhas, Hok.
    unfold bind, modify, lift, ret. rewrite Hs. rewrite !andb_true_r.
    pose proof (Htext "msg-err" s _ eq_refl) as Ht.
    destruct (status =? 403);
      destruct (to_boolean j && to_boolean (get_safe j "requires_root"));
      cbn [snd fst]; rewrite ?text_of_msg_append, Ht; cbn [fmap option_fmap option_map];
      rewrite ?StrFacts.app_assoc, ?StrFacts.app_nil_r; reflexivity.
Qed.

Lemma to_string_text_or v dflt :
  str_or_absent v ->
  to_string (Telemetry.or_else v (VStr dflt)) = Ok (text_or v dflt).
Proof.
  intros [Hn|[t ->]].
  - destruct v; try discriminate; reflexivity.
  - unfold Telemetry.or_else, text_or. cbn [to_boolean].
    destruct (String.eqb t ""); reflexivity.
Qed.

Lemma prefix_app s t : Str.prefix s (s +++ t) = true.
Proof.
  induction s as [|c s IH]; [reflexivity|]. rewrite StrFacts.app_cons. cbn.
  now rewrite Ascii.eqb_refl.
Qed.

Lemma contains_here s t : contains s (s +++ t) = true.
Proof.
  destruct s; [now destruct t|].
  rewrite StrFacts.app_cons. cbn [contains].
  rewrite <- StrFacts.app_cons, prefix_app. reflexivity.
Qed.

Lemma contains_later s u t : contains s t = true -> contains s (u +++ t) = true.
Proof.
  intros H. induction u as [|c u IH]; [exact H|].
  rewrite StrFacts.app_cons. cbn [contains]. rewrite IH. apply orb_true_r.
Qed.

(** The message line after a response, by cases.  With the form and
    the message line in the document, and a body whose [error] and [message] are strings when present: a 2xx
    response shows the body's message, or ["Saved."] when it has none;
    any other response shows the body's error text, else its message,
    else ["HTTP "] and the status code, followed by the hint to unlock
    first exactly when the status is 403 and by the hint to run as
    root exactly when [requires_root] holds.  So a 403 shows a message
    that contains both the server's text and the unlock hint, a
    response with [requires_root] one that contains the root hint, and
    every other failure the server's text or the status code alone. *)
Theorem submit_message eng status b p :
  form_present p -> is_Some (dom p !! "msg") ->
  let j := body_json b in
  let shown := text_of (run (applyConfig eng (Response status b)) p) "msg" in
  let raw :=
    text_or (get_safe j "error")
      (text_or (get_safe j "message") (http_status status)) in
  let root := to_boolean (get_safe j "requires_root") in
  (status_ok status = true -> nullish j = false ->
   str_or_absent (get_safe j "message") ->
   shown = Some (text_or (get_safe j "message") "Saved."))
  /\
  (status_ok status = false ->
   str_or_absent (get_safe j "error") -> str_or_absent (get_safe j "message") ->
   shown = Some (raw +++ (if status =? 403 then unlock_hint else "")
                     +++ (if root then root_hint else ""))
   /\ (status = 403 -> exists t, shown = Some t /\ contains raw t = true
                                 /\ contains unlock_hint t = true)
   /\ (root = true -> exists t, shown = Some t /\ contains root_hint t = true)
   /\ (status <> 403 -> root = false -> shown = Some raw))
  /\ unlock_hint <> root_hint.
Proof.
  intros Hform Hmsg j shown raw root.
  destruct (surfaced eng status b p Hform Hmsg) as [Hsucc Hfail].
  fold j in Hsucc, Hfail. split; [|split; [|discriminate]].
  - intros Hok Hj Hm. apply Hsucc; try assumption.
    now apply to_string_text_or.
  - intros Hok He Hm.
    assert (Hroot : to_boolean j && to_boolean (get_safe j "requires_root")
                    = root).
    { subst root. clearbody j. destruct j; cbn [get_safe to_boolean];
        rewrite ?andb_false_r; reflexivity. }
    assert (Hraw : to_string (failure_text j status) = Ok raw).
    { unfold failure_text, raw.
      assert (Hinner : forall v, v = (if to_boolean j
                 then Telemetry.or_else (get_safe j "error") (get_safe j "message")
                 else j) ->
               to_string (Telemetry.or_else v (VStr (http_status status)))
               = Ok (text_or (get_safe j "error")
                       (text_or (get_safe j "message") (http_status status)))).
      { intros v ->. unfold http_status at 1.
        destruct (to_boolean j) eqn:Hj.
        - unfold Telemetry.or_else, text_or.
          destruct He as [He|[e He]], Hm as [Hm|[m Hm]];
            rewrite ?He, ?Hm;
            try (destruct (get_safe j "error"); try discriminate);
            try (destruct (get_safe j "message"); try discriminate);
            cbn [to_boolean];
            try (destruct (String.eqb e "") eqn:Ee; cbn [negb to_boolean];
                 rewrite ?Ee; cbn [negb]);
            try (destruct (String.eqb m "") eqn:Em; cbn [negb to_boolean];
                 rewrite ?Em; cbn [negb]);
            reflexivity.
        - destruct j as [| |[]|[]|s| |]; try discriminate; try reflexivity.
          cbn in Hj. apply negb_false_iff, String.eqb_eq in Hj. subst s.
          reflexivity. }
      now apply Hinner. }
    specialize (Hfail Hok raw Hraw). rewrite Hroot in Hfail.
    fold shown in Hfail. split; [exact Hfail|]. split; [|split].
    + intros ->. eexists. split; [exact Hfail|]. cbn [Z.eqb Pos.eqb]. split.
      * apply contains_here.
      * apply contains_later. apply contains_here.
    + intros Hr. eexists. split; [exact Hfail|]. rewrite Hr.
      do 2 apply contains_later. rewrite <- (StrFacts.app_nil_r root_hint).
      apply contains_here.
    + intros Hne Hr. rewrite Hfail, Hr.
      destruct (Z.eqb_spec status 403); [contradiction|].
      now rewrite !StrFacts.app_nil_r.
Qed.

Lemma sample_form_present : form_present Sample.unlocked_page.
Proof.
  unfold form_present, form_fields.
  repeat (constructor; [eexists; vm_compute; reflexivity|]). constructor.
Qed.

(** A 403 with [{error: "locked"}] on the sample page. *)
Lemma submit_message_witness :
  text_of (run (applyConfig Sample.engine0
                  (Response 403 (Json (VObj [("error", VStr "locked")]))))
             Sample.unlocked_page) "msg"
  = Some "locked (Unlock to Edit first)".
Proof.
  apply (proj1 (proj1 (proj2 (submit_message Sample.engine0 403
           (Json (VObj [("error", VStr "locked")])) Sample.unlocked_page
           sample_form_present ltac:(eexists; vm_compute; reflexivity)))
           eq_refl ltac:(right; eexists; reflexivity)
           ltac:(left; reflexivity))).
Defined.

(** C7. On the unlocked sample page, a submit that the server answers
    with status 200 and the body [null] is shown as a failure: the
    message line reads ["Unexpected error: "] and the engine's
    [TypeError] for [j.message], with the class [msg-err], not the
    message or ["Saved."].  The other paths do what the claim says of
    them: a 200 with the body [{}] or with a body that is not JSON
    shows ["Saved."], a 200 with a message shows the message, and the
    failure path, which tests [j] before it reads from it, shows
    ["HTTP 500"] for a 500 with the body [null]. *)
Theorem null_body_success_shown_as_error :
  let p := Sample.unlocked_page in
  let after r := run (applyConfig Sample.engine0 (Response 200 r)) p in
  (status_ok 200 = true
   /\ text_of (after (Json VNull)) "msg"
      = Some "Unexpected error: TypeError: cannot use message"
   /\ Dom.classes <$> dom (after (Json VNull)) !! "msg"
      = Some ["mt-3"; "text-sm"; "msg-err"])
  /\ (text_of (after (Json (VObj []))) "msg" = Some "Saved."
      /\ text_of (after (NotJson (Failure "SyntaxError"))) "msg" = Some "Saved."
      /\ text_of (after (Json (VObj [("message", VStr "Stored")]))) "msg"
         = Some "Stored"
      /\ Dom.classes <$> dom (after (Json (VObj []))) !! "msg"
         = Some ["mt-3"; "text-sm"; "msg-ok"])
  /\ text_of (run (applyConfig Sample.engine0 (Response 500 (Json VNull))) p)
       "msg"
     = Some "HTTP 500".
Proof. vm_compute. repeat split. Qed.

End SubmitFacts.

(** ** The display clock *)

Module ClockFacts.
Import JS Page Env Spec Clock Frame.

Lemma setFreqTemp_offset f t p :
  devTimeOffsetMs (Telemetry.setFreqTemp f t p) = devTimeOffsetMs p.
Proof. unfold Telemetry.setFreqTemp. now destruct t. Qed.

Lemma setMetaFull_offset j : keeps devTimeOffsetMs (Telemetry.setMetaFull j).
Proof.
  unfold Telemetry.setMetaFull, Telemetry.merge, Telemetry.render_load,
    Telemetry.render_governor.
  repeat first
    [ apply keeps_bind; [|intros ?]
    | apply keeps_if
    | apply keeps_ret | apply keeps_lift | apply keeps_gets
    | apply keeps_modify; intros ?;
      first [reflexivity | apply setFreqTemp_offset] ].
Qed.

(** The offset after a poll: the old one, or the server's time minus
    the local time when the snapshot carries a truthy [server_time]
    whose date is valid. *)
Lemma offset_after eng r now now' p :
  let p' := init_refresh eng r now now' p in
  devTimeOffsetMs p' = devTimeOffsetMs p
  \/ exists status j ms,
       r = Response status (Json j)
       /\ to_boolean (get_safe j "server_time") = true
       /\ date_value eng (get_safe j "server_time") = Ok ms
       /\ Num.is_nan ms = false
       /\ devTimeOffsetMs p' = Num.sub ms (Num.of_Z now).
Proof.
  cbn zeta.
  remember (devTimeOffsetMs (init_refresh eng r now now' p)) as off eqn:Hoff.
  unfold init_refresh, run, try_catch in Hoff.
  destruct r as [e|status [e|j]]; [now left..|].
  unfold bind at 1 in Hoff.
  pose proof (setMetaFull_offset j p) as Hkeep.
  destruct (Telemetry.setMetaFull j p) as [[[]|e] p1]; cbn [snd] in Hkeep;
    [|left; subst off; exact Hkeep].
  unfold bind at 1, lift at 1 in Hoff.
  destruct (get j "server_time") as [st|e] eqn:Hget;
    [|left; subst off; exact Hkeep].
  assert (Hst' : st = get_safe j "server_time").
  { destruct j; cbn in Hget |- *; try discriminate; congruence. }
  destruct (to_boolean st) eqn:Hst; [|left; subst off; exact Hkeep].
  unfold syncClockFromServer in Hoff. rewrite Hst in Hoff. cbn [negb] in Hoff.
  unfold bind at 1, lift at 1 in Hoff.
  destruct (date_value eng st) as [ms|e] eqn:Hd;
    [|left; subst off; exact Hkeep].
  destruct (Num.is_nan ms) eqn:Hnan; [left; subst off; exact Hkeep|].
  right. exists status, j, ms. subst st. repeat split; assumption.
Qed.

(** *** The elements of the document stay *)

Lemma alter_there (f : Dom.element -> Dom.element) id k p :
  (fun _ => tt) <$> dom (with_dom (alter f id) p) !! k
  = (fun _ => tt) <$> dom p !! k.
Proof.
  cbn. destruct (decide (k = id)) as [->|Hne].
  - rewrite lookup_alter_eq. now destruct (dom p !! id).
  - now rewrite lookup_alter_ne by congruence.
Qed.

Lemma setFreqTemp_there f t k p :
  (fun _ => tt) <$> dom (Telemetry.setFreqTemp f t p) !! k
  = (fun _ => tt) <$> dom p !! k.
Proof.
  unfold Telemetry.setFreqTemp, text_if.
  destruct t; now rewrite !alter_there.
Qed.

Lemma tick_there eng t k p :
  (fun _ => tt) <$> dom (updateGeneralClockTick eng t p) !! k
  = (fun _ => tt) <$> dom p !! k.
Proof. unfold updateGeneralClockTick, text_if. now rewrite !alter_there. Qed.

Lemma poll_there eng r now now' k p :
  (fun _ => tt) <$> dom (init_refresh eng r now now' p) !! k
  = (fun _ => tt) <$> dom p !! k.
Proof.
  unfold init_refresh.
  apply (keeps_run (fun p => (fun _ => tt) <$> dom p !! k)).
  apply keeps_try; [|intros; apply keeps_ret].
  destruct r as [e|status [e|j]]; try apply keeps_throw.
  unfold Telemetry.setMetaFull, Telemetry.merge, Telemetry.render_load,
    Telemetry.render_governor, syncClockFromServer.
  repeat first
    [ apply keeps_bind; [|intros ?]
    | apply keeps_if
    | apply keeps_ret | apply keeps_lift | apply keeps_gets
    | apply keeps_modify; intros ?;
      first [ reflexivity | apply setFreqTemp_there | apply tick_there
            | apply alter_there ] ].
Qed.

(** What a tick shows: the date and the time of the browser's clock
    plus the offset, in the two elements that are there. *)
Lemma tick_text eng t p :
  let d := time_clip (Num.add (Num.of_Z t) (devTimeOffsetMs p)) in
  text_of (updateGeneralClockTick eng t p) "genDate"
  = (fun _ => toLocaleDateString eng d) <$> ((fun _ => tt) <$> dom p !! "genDate")
  /\ text_of (updateGeneralClockTick eng t p) "genTime"
     = (fun _ => toLocaleTimeString eng d) <$> ((fun _ => tt) <$> dom p !! "genTime").
Proof.
  cbn zeta. unfold updateGeneralClockTick, text_of, text_if. cbn. split.
  - rewrite lookup_alter_ne, lookup_alter_eq by discriminate.
    now destruct (dom p !! "genDate").
  - rewrite lookup_alter_eq, lookup_alter_ne by discriminate.
    now destruct (dom p !! "genTime").
Qed.

(** C10, as the code has it.  A poll of the full snapshot changes the
    clock offset only when the response carries a [server_time] that
    is truthy and that [new Date] turns into a valid date, and then the
    offset is that date minus the local time; for a [server_time] that
    is a string this means a non-empty string that the date parser
    accepts.  When [server_time] is absent, [null], the empty string or
    a string the parser rejects, the offset is the one stored before.
    And whenever the offset is the one stored before, the clock ticks
    on from it: a tick after the poll shows the date and the time that
    the same tick would have shown before it. *)
Theorem offset_changes_only_on_valid_server_time eng r now now' p :
  let p' := init_refresh eng r now now' p in
  (devTimeOffsetMs p' <> devTimeOffsetMs p ->
   exists status j ms,
     r = Response status (Json j)
     /\ to_boolean (get_safe j "server_time") = true
     /\ date_value eng (get_safe j "server_time") = Ok ms
     /\ Num.is_nan ms = false
     /\ devTimeOffsetMs p' = Num.sub ms (Num.of_Z now)
     /\ forall s, get_safe j "server_time" = VStr s ->
          s <> "" /\ exists t, date_parse eng s = Some t)
  /\
  (forall status j, r = Response status (Json j) ->
     nullish (get_safe j "server_time") = true
     \/ get_safe j "server_time" = VStr ""
     \/ (exists s, get_safe j "server_time" = VStr s
                   /\ date_parse eng s = None) ->
     devTimeOffsetMs p' = devTimeOffsetMs p)
  /\
  (devTimeOffsetMs p' = devTimeOffsetMs p ->
   forall t,
     text_of (updateGeneralClockTick eng t p') "genDate"
     = text_of (updateGeneralClockTick eng t p) "genDate"
     /\ text_of (updateGeneralClockTick eng t p') "genTime"
        = text_of (updateGeneralClockTick eng t p) "genTime").
Proof.
  intros p'. subst p'. split; [|split].
  - intros Hne.
    destruct (offset_after eng r now now' p)
      as [H|(status & j & ms & Hr & Hst & Hd & Hnan & Hoff)];
      [contradiction|].
    exists status, j, ms. repeat split; try assumption.
    + intros ->. rewrite H in Hst. discriminate.
    + rewrite H in Hd. cbn in Hd. injection Hd as <-.
      unfold parse_time in Hnan. destruct (date_parse eng s); [eauto|].
      discriminate.
  - intros status j -> Hcase.
    destruct (offset_after eng (Response status (Json j)) now now' p)
      as [H|(status' & j' & ms & Hr & Hst & Hd & Hnan & Hoff)];
      [exact H|exfalso].
    injection Hr as <- <-.
    destruct Hcase as [Hn|[He|[s [Hs Hp]]]].
    + destruct (get_safe j "server_time"); discriminate.
    + rewrite He in Hst. discriminate.
    + rewrite Hs in Hd. cbn in Hd. injection Hd as <-.
      unfold parse_time in Hnan. rewrite Hp in Hnan. discriminate.
  - intros Hoff t.
    destruct (tick_text eng t (init_refresh eng r now now' p)) as [-> ->].
    destruct (tick_text eng t p) as [-> ->].
    now rewrite Hoff, !poll_there.
Qed.

(** The claim's "string" is not asked for: a [server_time] that is
    the number [86400000] sets the offset on the sample page. *)
Lemma numeric_server_time_sets_offset :
  devTimeOffsetMs Sample.locked = S754_zero false
  /\ is_number (get_safe (VObj [("server_time", VNum (Num.of_Z 86400000))])
                  "server_time") = true
  /\ devTimeOffsetMs
       (init_refresh Sample.engine0
          (Response 200 (Json (VObj [("server_time",
                                      VNum (Num.of_Z 86400000))])))
          1000 1001 Sample.locked)
     = Num.of_Z 86399000.
Proof. vm_compute. repeat split. Qed.

(** A poll that carries an accepted date, and one without a date, on
    the sample page. *)
Lemma offset_changes_only_on_valid_server_time_witness :
  (exists status j ms,
     Response 200 (Json (VObj [("server_time", VStr "1970-01-02T00:00:00Z")]))
     = Response status (Json j)
     /\ to_boolean (get_safe j "server_time") = true
     /\ date_value Sample.engine0 (get_safe j "server_time") = Ok ms
     /\ Num.is_nan ms = false
     /\ devTimeOffsetMs
          (init_refresh Sample.engine0
             (Response 200 (Json (VObj [("server_time",
                                         VStr "1970-01-02T00:00:00Z")])))
             1000 1001 Sample.locked)
        = Num.sub ms (Num.of_Z 1000)
     /\ forall s, get_safe j "server_time" = VStr s ->
          s <> "" /\ exists t, date_parse Sample.engine0 s = Some t)
  /\ devTimeOffsetMs
       (init_refresh Sample.engine0
          (Response 200 (Json (VObj [("temp_c", VNum Sample.n45_5)])))
          1000 1001 Sample.locked)
     = devTimeOffsetMs Sample.locked
  /\ text_of (updateGeneralClockTick Sample.engine0 2000
                (init_refresh Sample.engine0
                   (Response 200 (Json (VObj [("temp_c", VNum Sample.n45_5)])))
                   1000 1001 Sample.locked)) "genTime"
     = text_of (updateGeneralClockTick Sample.engine0 2000 Sample.locked)
         "genTime".
Proof.
  split; [|split].
  - apply (proj1 (offset_changes_only_on_valid_server_time Sample.engine0
                    (Response 200 (Json (VObj [("server_time",
                                                VStr "1970-01-02T00:00:00Z")])))
                    1000 1001 Sample.locked)).
    vm_compute. discriminate.
  - apply (proj1 (proj2 (offset_changes_only_on_valid_server_time
                    Sample.engine0
                    (Response 200 (Json (VObj [("temp_c", VNum Sample.n45_5)])))
                    1000 1001 Sample.locked)) 200 _ eq_refl).
    left. reflexivity.
  - apply (proj2 (proj2 (offset_changes_only_on_valid_server_time
                    Sample.engine0
                    (Response 200 (Json (VObj [("temp_c", VNum Sample.n45_5)])))
                    1000 1001 Sample.locked))
             ltac:(vm_compute; reflexivity) 2000).
Defined.

End ClockFacts.

(** ** Binary64 arithmetic *)

Module FloatFacts.
Import Num Binary.

Lemma digits2_bounds p :
  2 ^ (Z.pos (digits2_pos p) - 1) <= Z.pos p < 2 ^ Z.pos (digits2_pos p).
Proof.
  induction p as [p IH|p IH|]; cbn [digits2_pos].
  - rewrite Pos2Z.inj_succ. change (Z.pos p~1) with (2 * Z.pos p + 1).
    replace (Z.succ (Z.pos (digits2_pos p)) - 1) with
      (Z.succ (Z.pos (digits2_pos p) - 1)) by lia.
    rewrite !Z.pow_succ_r by lia. lia.
  - rewrite Pos2Z.inj_succ. change (Z.pos p~0) with (2 * Z.pos p).
    replace (Z.succ (Z.pos (digits2_pos p)) - 1) with
      (Z.succ (Z.pos (digits2_pos p) - 1)) by lia.
    rewrite !Z.pow_succ_r by lia. lia.
  - cbn. lia.
Qed.

Lemma Zdigits2_nonneg m : 0 <= Zdigits2 m.
Proof. destruct m; cbn; lia. Qed.

Lemma Zdigits2_bounds m :
  0 < m -> 2 ^ (Zdigits2 m - 1) <= m < 2 ^ Zdigits2 m.
Proof. destruct m; try lia. intros _. apply digits2_bounds. Qed.

(** A positive number below [2 ^ k] has at most [k] binary digits. *)
Lemma Zdigits2_le m k : 0 <= k -> 0 <= m < 2 ^ k -> Zdigits2 m <= k.
Proof.
  intros Hk [H0 Hm]. destruct (Z.eq_dec m 0) as [->|Hne]; [cbn; lia|].
  destruct (Zdigits2_bounds m ltac:(lia)) as [Hlo _].
  destruct (Z.le_gt_cases (Zdigits2 m) k) as [|Hgt]; [assumption|].
  assert (2 ^ k <= 2 ^ (Zdigits2 m - 1)) by (apply Z.pow_le_mono_r; lia).
  lia.
Qed.

(** A number from [2 ^ k] on has more than [k] binary digits. *)
Lemma Zdigits2_gt m k : 0 <= k -> 2 ^ k <= m -> k < Zdigits2 m.
Proof.
  intros Hk Hm. assert (0 < m) by (pose proof (Z.pow_pos_nonneg 2 k); lia).
  destruct (Zdigits2_bounds m ltac:(lia)) as [_ Hhi].
  destruct (Z.lt_ge_cases k (Zdigits2 m)) as [|Hge]; [assumption|].
  assert (2 ^ Zdigits2 m <= 2 ^ k)
    by (apply Z.pow_le_mono_r; pose proof (Zdigits2_nonneg m); lia).
  lia.
Qed.

Lemma iter_pos_nat {A} (f : A -> A) p x :
  SpecFloat.iter_pos f p x = Nat.iter (Pos.to_nat p) f x.
Proof.
  revert x. induction p as [p IH|p IH|]; intros x; cbn [SpecFloat.iter_pos].
  - rewrite !IH, Pos2Nat.inj_xI.
    replace (S (2 * Pos.to_nat p)) with (Pos.to_nat p + S (Pos.to_nat p))%nat
      by lia.
    now rewrite Nat.iter_add, Nat.iter_succ_r.
  - rewrite !IH, Pos2Nat.inj_xO.
    replace (2 * Pos.to_nat p)%nat with (Pos.to_nat p + Pos.to_nat p)%nat by lia.
    now rewrite Nat.iter_add.
  - reflexivity.
Qed.

(** One step to the right: the mantissa is halved, the bit that falls
    off is the round bit, and the sticky bit collects what was there. *)
Lemma shr_1_spec r :
  0 <= shr_m r ->
  shr_m (shr_1 r) = shr_m r / 2
  /\ shr_r (shr_1 r) = Z.odd (shr_m r)
  /\ shr_s (shr_1 r) = shr_r r || shr_s r.
Proof.
  destruct r as [m rb sb]. cbn [shr_m shr_r shr_s]. intros Hm.
  destruct m as [|[p|p|]|p]; try lia; cbn [shr_1 shr_m shr_r shr_s];
    repeat split; try reflexivity.
  - change (Z.pos p~1) with (2 * Z.pos p + 1).
    apply Z.div_unique with 1; lia.
  - change (Z.pos p~0) with (2 * Z.pos p).
    apply Z.div_unique with 0; lia.
Qed.

Lemma shr_iter_m n r :
  0 <= shr_m r ->
  shr_m (Nat.iter n shr_1 r) = shr_m r / 2 ^ Z.of_nat n.
Proof.
  intros Hm. induction n as [|n IH].
  - cbn. now rewrite Z.div_1_r.
  - rewrite Nat.iter_succ.
    assert (H0 : 0 <= shr_m (Nat.iter n shr_1 r)).
    { rewrite IH. apply Z.div_pos; [lia|]. apply Z.pow_pos_nonneg; lia. }
    destruct (shr_1_spec _ H0) as [-> _]. rewrite IH.
    rewrite Nat2Z.inj_succ, Z.pow_succ_r by lia.
    rewrite Z.div_div by (try apply Z.pow_pos_nonneg; lia).
    f_equal. lia.
Qed.

(** The round bit after [n + 1] steps is bit [n] of the mantissa. *)
Lemma shr_iter_r n r :
  0 <= shr_m r ->
  shr_r (Nat.iter (S n) shr_1 r) = Z.odd (shr_m r / 2 ^ Z.of_nat n).
Proof.
  intros Hm. rewrite Nat.iter_succ.
  assert (H0 : 0 <= shr_m (Nat.iter n shr_1 r)).
  { rewrite shr_iter_m by assumption. apply Z.div_pos; [lia|].
    apply Z.pow_pos_nonneg; lia. }
  destruct (shr_1_spec _ H0) as (_ & -> & _). now rewrite shr_iter_m.
Qed.

(** [shr_fexp] cuts the excess bits off. *)
Lemma shr_fexp_spec m e l :
  shr_fexp prec emax m e l = (shorten m e l, rounded_exp m e).
Proof.
  unfold shr_fexp, shr, shorten, rounded_exp.
  change (SpecFloat.fexp prec emax (Zdigits2 m + e) - e) with (excess m e).
  destruct (excess m e) as [|n|n]; cbn [Z.to_nat Nat.iter Z.max].
  - now rewrite Z.add_0_r.
  - rewrite iter_pos_nat. reflexivity.
  - now rewrite Z.add_0_r.
Qed.

Lemma shorten_m m e l :
  0 <= m -> shr_m (shorten m e l) = m / 2 ^ Z.max (excess m e) 0.
Proof.
  intros Hm. unfold shorten. rewrite shr_iter_m.
  - destruct l as [|[]]; cbn [shr_record_of_loc shr_m]; f_equal; f_equal; lia.
  - destruct l as [|[]]; exact Hm.
Qed.

(** Rounding keeps the mantissa or adds one, and adds one only when
    the round bit is set. *)
Lemma round_nearest_even_cases r :
  let M := round_nearest_even (shr_m r) (loc_of_shr_record r) in
  M = shr_m r \/ (M = shr_m r + 1 /\ shr_r r = true).
Proof.
  destruct r as [m [] []]; cbn; auto. destruct (Z.even m); auto.
Qed.

Lemma rounded_cases m e l :
  0 <= m ->
  let q := m / 2 ^ Z.max (excess m e) 0 in
  rounded m e l = q
  \/ (rounded m e l = q + 1 /\ shr_r (shorten m e l) = true).
Proof.
  intros Hm. cbn zeta. unfold rounded. rewrite <- (shorten_m m e l) by assumption.
  apply round_nearest_even_cases.
Qed.

Lemma rounded_nonneg m e l : 0 <= m -> 0 <= rounded m e l.
Proof.
  intros Hm.
  assert (0 <= m / 2 ^ Z.max (excess m e) 0).
  { apply Z.div_pos; [lia|]. apply Z.pow_pos_nonneg; lia. }
  destruct (rounded_cases m e l Hm) as [->|[-> _]]; lia.
Qed.

(** [binary_round_aux] in two steps: round, then pack. *)
Lemma binary_round_aux_pack s m e l :
  0 <= m ->
  binary_round_aux prec emax s m e l
  = pack s (rounded m e l) (rounded_exp m e).
Proof.
  intros Hm. unfold binary_round_aux. rewrite shr_fexp_spec.
  fold (rounded m e l). rewrite shr_fexp_spec.
  rewrite shorten_m by now apply rounded_nonneg.
  unfold pack, rounded_exp at 2. reflexivity.
Qed.

Lemma div_pow_lt M k d :
  0 <= M < 2 ^ d -> 0 <= k -> d - k <= prec -> M / 2 ^ k < 2 ^ prec.
Proof.
  intros [H0 HM] Hk Hd.
  assert (Hp : 0 < 2 ^ k) by (apply Z.pow_pos_nonneg; lia).
  apply Z.div_lt_upper_bound; [assumption|].
  rewrite <- Z.pow_add_r by (unfold prec; lia).
  eapply Z.lt_le_trans; [exact HM|].
  destruct (Z.le_gt_cases 0 d).
  - apply Z.pow_le_mono_r; unfold prec in *; lia.
  - rewrite (Z.pow_neg_r 2 d) by lia. apply Z.pow_nonneg. lia.
Qed.

(** The mantissa of a packed number has at most 53 bits. *)
Lemma pack_bounded s M E s' m' e' :
  0 <= M -> pack s M E = S754_finite s' m' e' ->
  s' = s /\ Z.pos m' < 2 ^ prec /\ emin <= e'
  /\ Z.pos m' = M / 2 ^ Z.max (excess M E) 0
  /\ e' = E + Z.max (excess M E) 0.
Proof.
  intros HM. unfold pack.
  destruct (M / 2 ^ Z.max (excess M E) 0) as [|m|m] eqn:Hq; try discriminate.
  destruct (_ <=? _); try discriminate.
  intros [= -> -> <-]. repeat split.
  - rewrite <- Hq. apply (div_pow_lt M _ (Zdigits2 M)).
    + destruct (Z.eq_dec M 0) as [->|]; [cbn; lia|].
      split; [lia|]. apply Zdigits2_bounds. lia.
    + lia.
    + unfold excess, fexp. lia.
  - unfold excess, fexp. lia.
Qed.

Lemma iter_xO_value p k : Z.pos (Pos.iter xO p k) = Z.pos p * 2 ^ Z.pos k.
Proof.
  apply (Pos.iter_ind _ xO p
           (fun k q => Z.pos q = Z.pos p * 2 ^ Z.pos k)).
  - change (Z.pos p~0) with (2 * Z.pos p). change (2 ^ 1) with 2. lia.
  - intros k' q IH. change (Z.pos q~0) with (2 * Z.pos q).
    rewrite IH, Pos2Z.inj_succ, Z.pow_succ_r by lia. lia.
Qed.

Lemma iter_xO_digits p k :
  Z.pos (digits2_pos (Pos.iter xO p k)) = Z.pos (digits2_pos p) + Z.pos k.
Proof.
  apply (Pos.iter_ind _ xO p
           (fun k q => Z.pos (digits2_pos q) = Z.pos (digits2_pos p) + Z.pos k)).
  - cbn [digits2_pos]. lia.
  - intros k' q IH. cbn [digits2_pos]. lia.
Qed.

(** A mantissa that is not too long is packed as it is. *)
Lemma pack_canonical s m e :
  excess (Z.pos m) e <= 0 -> e <= emax - prec ->
  pack s (Z.pos m) e = S754_finite s m e.
Proof.
  intros Hx He. unfold pack. rewrite Z.max_r by assumption.
  rewrite Z.pow_0_r, Z.div_1_r, Z.add_0_r.
  now rewrite (proj2 (Z.leb_le _ _) He).
Qed.

Lemma rounded_exact m e :
  excess m e <= 0 -> rounded m e loc_Exact = m /\ rounded_exp m e = e.
Proof.
  intros Hx. unfold rounded, rounded_exp, shorten.
  rewrite Z.max_r by assumption.
  replace (Z.to_nat (excess m e)) with 0%nat by lia.
  cbn. split; [reflexivity|lia].
Qed.

(** The mantissa and exponent of an integer below [2 ^ 53]. *)
Lemma of_int_pos p :
  Z.pos p < 2 ^ prec ->
  exists m,
    of_int (Z.pos p) = S754_finite false m (Z.pos (digits2_pos p) - prec)
    /\ of_int (Z.neg p) = S754_finite true m (Z.pos (digits2_pos p) - prec)
    /\ Z.pos m = Z.pos p * 2 ^ (prec - Z.pos (digits2_pos p))
    /\ Z.pos (digits2_pos m) = prec.
Proof.
  intros Hp.
  assert (Hd : Z.pos (digits2_pos p) <= prec).
  { apply (Zdigits2_le (Z.pos p)); unfold prec in *; lia. }
  unfold of_int. eexists. split; [reflexivity|]. split; [reflexivity|].
  destruct (prec - Z.pos (digits2_pos p)) as [|k|k] eqn:Hk; try lia;
    cbn [Z.to_N].
  - change (Pos.shiftl p 0) with p.
    split; [rewrite Z.pow_0_r; lia|]. unfold prec in *. lia.
  - change (Pos.shiftl p (N.pos k)) with (Pos.iter xO p k).
    rewrite iter_xO_value, iter_xO_digits. split; lia.
Qed.

(** [binary_round] of an integer below [2 ^ 53] is exact. *)
Lemma binary_round_int s p m :
  Z.pos p < 2 ^ prec ->
  Z.pos m = Z.pos p * 2 ^ (prec - Z.pos (digits2_pos p)) ->
  Z.pos (digits2_pos m) = prec ->
  binary_round prec emax s p 0
  = S754_finite s m (Z.pos (digits2_pos p) - prec).
Proof.
  intros Hp Hm Hdm.
  assert (Hd : Z.pos (digits2_pos p) <= prec).
  { apply (Zdigits2_le (Z.pos p)); unfold prec in *; lia. }
  unfold binary_round, shl_align.
  change (SpecFloat.fexp prec emax (Z.pos (digits2_pos p) + 0))
    with (fexp (Z.pos (digits2_pos p) + 0)).
  assert (Hf : fexp (Z.pos (digits2_pos p) + 0)
               = Z.pos (digits2_pos p) - prec)
    by (unfold fexp, emin, prec, emax in *; lia).
  rewrite Hf, Z.sub_0_r.
  assert (Hx : excess (Z.pos m) (Z.pos (digits2_pos p) - prec) <= 0).
  { unfold excess. cbn [Zdigits2]. rewrite Hdm.
    unfold fexp, emin, prec, emax in *. lia. }
  assert (Hgoal : binary_round_aux prec emax s (Z.pos m)
                    (Z.pos (digits2_pos p) - prec) loc_Exact
                  = S754_finite s m (Z.pos (digits2_pos p) - prec)).
  { rewrite binary_round_aux_pack by lia.
    destruct (rounded_exact _ _ Hx) as [-> ->].
    apply pack_canonical; [assumption|]. unfold prec, emax in *. lia. }
  destruct (Z.pos (digits2_pos p) - prec) as [|k|k] eqn:Hk; try lia.
  - assert (m = p) as <-; [|exact Hgoal].
    replace (prec - Z.pos (digits2_pos p)) with 0 in Hm by lia.
    rewrite Z.pow_0_r in Hm. lia.
  - assert (Pos.iter xO p k = m) as ->; [|exact Hgoal].
    apply Pos2Z.inj. rewrite iter_xO_value, Hm. f_equal. f_equal. lia.
Qed.

(** [binary_normalize] of an integer below [2 ^ 53] is exact. *)
Lemma of_Z_of_int n : Z.abs n < 2 ^ prec -> of_Z n = of_int n.
Proof.
  intros Hn. destruct n as [|p|p]; [reflexivity| |].
  all: assert (Hp : Z.pos p < 2 ^ prec) by (cbn in Hn; lia).
  all: destruct (of_int_pos p Hp) as (m & Hof & Hof' & Hm & Hdm).
  all: unfold of_Z, binary_normalize.
  - rewrite Hof. now apply binary_round_int.
  - rewrite Hof'. now apply binary_round_int.
Qed.

(** *** Division *)

Lemma div_core m1 e1 m2 e2 :
  SFdiv_core_binary prec emax m1 e1 m2 e2
  = (dividend m1 e1 m2 e2 / m2, div_exp m1 e1 m2 e2,
     new_location m2 (dividend m1 e1 m2 e2 mod m2)).
Proof.
  unfold SFdiv_core_binary.
  change (Z.min (SpecFloat.fexp prec emax (Zdigits2 m1 + e1 - (Zdigits2 m2 + e2)))
            (e1 - e2)) with (div_exp m1 e1 m2 e2).
  assert (Hs : 0 <= e1 - e2 - div_exp m1 e1 m2 e2) by (unfold div_exp; lia).
  assert (Hm : match e1 - e2 - div_exp m1 e1 m2 e2 with
               | Z.pos _ => Z.shiftl m1 (e1 - e2 - div_exp m1 e1 m2 e2)
               | 0 => m1
               | Z.neg _ => 0
               end = dividend m1 e1 m2 e2).
  { unfold dividend. destruct (e1 - e2 - div_exp m1 e1 m2 e2) as [|k|k] eqn:Hk.
    - rewrite Z.pow_0_r. lia.
    - now rewrite Z.shiftl_mul_pow2 by lia.
    - lia. }
  rewrite Hm. unfold Z.div, Z.modulo.
  now destruct (Z.div_eucl (dividend m1 e1 m2 e2) m2).
Qed.

Lemma dividend_nonneg m1 e1 m2 e2 : 0 <= m1 -> 0 <= dividend m1 e1 m2 e2.
Proof.
  intros H. unfold dividend. apply Z.mul_nonneg_nonneg; [assumption|].
  apply Z.pow_nonneg. lia.
Qed.

(** The quotient of two positive numbers: the rounded and packed
    quotient of the mantissas. *)
Lemma div_pos_pack m1 e1 m2 e2 :
  let q := dividend (Z.pos m1) e1 (Z.pos m2) e2 / Z.pos m2 in
  let l := new_location (Z.pos m2)
             (dividend (Z.pos m1) e1 (Z.pos m2) e2 mod Z.pos m2) in
  let e := div_exp (Z.pos m1) e1 (Z.pos m2) e2 in
  0 <= q /\
  div (S754_finite false m1 e1) (S754_finite false m2 e2)
  = pack false (rounded q e l) (rounded_exp q e).
Proof.
  cbn zeta.
  assert (Hq : 0 <= dividend (Z.pos m1) e1 (Z.pos m2) e2 / Z.pos m2).
  { apply Z.div_pos; [apply dividend_nonneg|]; lia. }
  split; [exact Hq|].
  unfold div, SFdiv. rewrite div_core. cbn [xorb].
  now apply binary_round_aux_pack.
Qed.

(** What a packed number can be. *)
Lemma pack_cases s M E :
  0 <= M ->
  pack s M E = S754_zero s \/ pack s M E = S754_infinity s
  \/ exists m e, pack s M E = S754_finite s m e /\ Z.pos m < 2 ^ prec.
Proof.
  intros HM. destruct (pack s M E) as [s'|s'| |s' m e] eqn:Hp.
  - unfold pack in Hp. destruct (M / 2 ^ _); [|destruct (_ <=? _)|];
      try discriminate. injection Hp as <-. now left.
  - unfold pack in Hp. destruct (M / 2 ^ _); [|destruct (_ <=? _)|];
      try discriminate. injection Hp as <-. right. now left.
  - exfalso. unfold pack in Hp.
    assert (0 <= M / 2 ^ Z.max (excess M E) 0)
      by (apply Z.div_pos; [lia|apply Z.pow_pos_nonneg; lia]).
    destruct (M / 2 ^ _); [|destruct (_ <=? _)|]; try discriminate. lia.
  - destruct (pack_bounded s M E s' m e HM Hp) as (-> & Hm & _).
    right. right. eauto.
Qed.

Lemma div_pos_cases m1 e1 m2 e2 :
  let z := div (S754_finite false m1 e1) (S754_finite false m2 e2) in
  z = S754_zero false \/ z = S754_infinity false
  \/ exists m e, z = S754_finite false m e /\ Z.pos m < 2 ^ prec.
Proof.
  cbn zeta. destruct (div_pos_pack m1 e1 m2 e2) as [Hq ->].
  apply pack_cases. now apply rounded_nonneg.
Qed.

End FloatFacts.

(** ** Numbers as strings *)

Module NumStrFacts.
Import Num Binary NumStr FloatFacts StrFacts.

(** An integer below [2 ^ 53] is printed with its decimal digits. *)
Lemma to_string_of_int n :
  0 <= n < 2 ^ prec -> to_string (of_int n) = Str.of_Z n.
Proof.
  intros [Hn0 Hn]. destruct n as [|p|p]; [reflexivity| |lia].
  destruct (of_int_pos p Hn) as (m & -> & _ & Hm & Hdm).
  assert (Hd : Z.pos (digits2_pos p) <= prec)
    by (apply (Zdigits2_le (Z.pos p)); unfold prec in *; lia).
  cbn [to_string]. rewrite app_nil_l. unfold pos_to_string.
  rewrite Z.max_r by lia. rewrite Z.pow_0_r, Z.mul_1_r.
  rewrite Z.max_l by lia.
  replace (- (Z.pos (digits2_pos p) - prec)) with (prec - Z.pos (digits2_pos p))
    by lia.
  assert (Hpow : 0 < 2 ^ (prec - Z.pos (digits2_pos p)))
    by (apply Z.pow_pos_nonneg; lia).
  rewrite Hm, Z.mod_mul, Z.div_mul by lia.
  rewrite Z.eqb_refl, (proj2 (Z.ltb_lt _ _) Hn). reflexivity.
Qed.

(** Two decimals: the digits of the hundreds, a point, two digits. *)
Lemma fixed_digits_2 n :
  0 <= n ->
  fixed_digits n 2 = Str.of_Z (n / 100) +++ "." +++ Spec.two_digits (n mod 100).
Proof.
  intros Hn. unfold fixed_digits.
  destruct (Z.lt_ge_cases n 10) as [H10|H10];
    [|destruct (Z.lt_ge_cases n 100) as [H100|H100]].
  - rewrite of_Z_small by lia.
    rewrite (Z.div_small n 100), (Z.mod_small n 100) by lia.
    unfold Spec.two_digits. rewrite (Z.div_small n 10), (Z.mod_small n 10) by lia.
    reflexivity.
  - rewrite of_Z_two by lia.
    rewrite (Z.div_small n 100), (Z.mod_small n 100) by lia.
    reflexivity.
  - rewrite of_Z_hundreds by lia.
    set (h := Str.of_Z (n / 100)). set (t := Spec.two_digits (n mod 100)).
    assert (Hlen : String.length (h +++ t) = (String.length h + 2)%nat).
    { rewrite length_app. reflexivity. }
    rewrite Hlen. pose proof (length_of_Z_pos (n / 100)) as Hpos. fold h in Hpos.
    replace (3 - (String.length h + 2))%nat with 0%nat by lia.
    cbn [Str.repeat]. rewrite app_nil_l, Hlen.
    replace (String.length h + 2 - 2)%nat with (String.length h) by lia.
    now rewrite take_app, drop_app.
Qed.

End NumStrFacts.

(** ** The formatters *)

Module FmtFacts.
Import Num Binary NumStr JS Fmt Spec FloatFacts StrFacts NumStrFacts.

Lemma thousand : of_Z 1000 = S754_finite false 8796093022208000 (-43).
Proof. vm_compute. reflexivity. Qed.

Ltac thousand :=
  let c := fresh "c" in
  let T := fresh "T" in
  pose proof thousand as T; set (c := of_Z 1000) in *; clearbody c; subst c.

(** A positive number that is not [>= 1000] is below 1000. *)
Lemma below_1000 m e :
  Z.pos m < 2 ^ prec ->
  ge (S754_finite false m e) (of_Z 1000) = false ->
  e < 0 /\ Z.pos m < 1000 * 2 ^ (- e).
Proof.
  intros Hm. thousand.
  unfold ge, SFleb, SFcompare.
  destruct (Z.compare_spec (-43) e) as [<-|Hlt|Hgt]; try discriminate.
  - change (Pos.compare_cont Eq 8796093022208000 m)
      with (Pos.compare 8796093022208000 m).
    destruct (Pos.compare_spec 8796093022208000 m) as [| |Hc]; try discriminate.
    apply Pos2Z.pos_lt_pos in Hc.
    intros _. split; [lia|]. change (1000 * 2 ^ (- -43)) with 8796093022208000.
    exact Hc.
  - intros _. split; [lia|].
    assert (H : 2 ^ 44 <= 2 ^ (- e)) by (apply Z.pow_le_mono_r; lia).
    unfold prec in Hm. change (2 ^ 53) with 9007199254740992 in Hm.
    change (2 ^ 44) with 17592186044416 in H.
    set (P := 2 ^ (- e)) in *. clearbody P. lia.
Qed.

Lemma nearest_bounds num den :
  0 <= num -> 0 < den ->
  0 <= nearest num den
  /\ forall k, num < k * den -> nearest num den <= k.
Proof.
  intros Hn Hd. unfold nearest. split.
  - apply Z.div_pos; lia.
  - intros k Hk. apply Z.lt_succ_r. apply Z.div_lt_upper_bound; nia.
Qed.

(** The rounded MHz value of a number below 1000, printed. *)
Lemma round_to_string x :
  (x = S754_zero false
   \/ exists m e, x = S754_finite false m e /\ e < 0
                  /\ Z.pos m < 1000 * 2 ^ (- e)) ->
  NumStr.to_string (round x) = Str.of_Z (nearest (numer x) (denom x)).
Proof.
  intros [->|(m & e & -> & He & Hm)]; [reflexivity|].
  unfold round. rewrite (proj2 (Z.leb_gt 0 e)) by lia.
  change ((2 * numer (S754_finite false m e) + denom (S754_finite false m e))
          / (2 * denom (S754_finite false m e)))
    with (nearest (numer (S754_finite false m e))
            (denom (S754_finite false m e))).
  set (n := nearest _ _).
  assert (Hn : 0 <= n <= 1000).
  { subst n. cbn [numer denom signed].
    rewrite Z.max_r, Z.max_l by lia. rewrite Z.pow_0_r, Z.mul_1_r.
    assert (0 < 2 ^ (- e)) by (apply Z.pow_pos_nonneg; lia).
    destruct (nearest_bounds (Z.pos m) (2 ^ (- e))) as [H0 Hk]; try lia.
    split; [exact H0|]. apply Hk. lia. }
  destruct (Z.eqb_spec n 0) as [->|Hne]; [reflexivity|].
  rewrite of_Z_of_int by (unfold prec; change (2 ^ 53) with 9007199254740992; lia).
  apply to_string_of_int. unfold prec.
  change (2 ^ 53) with 9007199254740992. lia.
Qed.

(** Two decimals of a number that is zero or positive and below
    [10 ^ 21]. *)
Lemma toFixed_2 x :
  (x = S754_zero false \/ exists m e, x = S754_finite false m e) ->
  numer x < 10 ^ 21 * denom x ->
  let n := nearest (100 * numer x) (denom x) in
  NumStr.toFixed x 2 = Str.of_Z (n / 100) +++ "." +++ two_digits (n mod 100).
Proof.
  intros [->|(m & e & ->)] Hlt; [reflexivity|]. cbn zeta.
  unfold toFixed. cbn [numer denom signed] in *.
  rewrite (proj2 (Z.leb_gt _ _)) by lia.
  rewrite app_nil_l. change (10 ^ Z.of_nat 2) with 100.
  assert (0 < 2 ^ Z.max (- e) 0) by (apply Z.pow_pos_nonneg; lia).
  assert (0 <= 2 ^ Z.max e 0) by (apply Z.pow_nonneg; lia).
  replace (2 * (Z.pos m * 2 ^ Z.max e 0) * 100)
    with (2 * (100 * (Z.pos m * 2 ^ Z.max e 0))) by lia.
  apply fixed_digits_2. apply Z.div_pos; nia.
Qed.

Lemma le_zero_cases x :
  le x zero = false -> is_nan x = false ->
  x = S754_infinity false \/ exists m e, x = S754_finite false m e.
Proof.
  destruct x as [s|[]| |[] m e]; cbn; try discriminate; eauto.
Qed.

(** The MHz value of a positive number. *)
Lemma mhz_cases m e :
  let mhz := div (S754_finite false m e) (of_Z 1000) in
  (ge mhz (of_Z 1000) = false ->
   mhz = S754_zero false
   \/ exists m' e', mhz = S754_finite false m' e' /\ e' < 0
                     /\ Z.pos m' < 1000 * 2 ^ (- e'))
  /\ (mhz = S754_infinity false
      \/ mhz = S754_zero false \/ exists m' e', mhz = S754_finite false m' e').
Proof.
  cbn zeta. pose proof (below_1000) as Hb. thousand.
  destruct (div_pos_cases m e 8796093022208000 (-43))
    as [->|[->|(m' & e' & -> & Hm')]].
  - split; auto.
  - split; [|auto]. discriminate.
  - split; [|eauto]. intros Hge. right. exists m', e'. split; [reflexivity|].
    now apply Hb.
Qed.

(** C4, as the code has it.  [fmtFreq] gives the placeholder
    ["— MHz"] for a value that is not a number and for a number that is
    zero or negative.  For a number above zero (NaN aside), with the
    MHz value [khz / 1000]: when the MHz value is below 1000 it shows
    the MHz value rounded to the nearest integer; when it is at least
    1000, and the GHz value [MHz / 1000] is finite and below [10 ^ 21],
    it shows the GHz value rounded to two decimals.  In particular
    [fmtFreq(0)] and [fmtFreq(-5)] are the placeholder, [fmtFreq(900)]
    is ["1 MHz"], [fmtFreq(900000)] is ["900 MHz"] and
    [fmtFreq(1500000)] is ["1.50 GHz"]. *)
Theorem fmtFreq_spec :
  (forall v, is_number v = false -> fmtFreq v = "— MHz")
  /\ (forall x, le x zero = true -> fmtFreq (VNum x) = "— MHz")
  /\ (forall x, le x zero = false -> is_nan x = false ->
        let mhz := div x (of_Z 1000) in
        let ghz := div mhz (of_Z 1000) in
        (ge mhz (of_Z 1000) = false ->
         fmtFreq (VNum x)
         = Str.of_Z (nearest (numer mhz) (denom mhz)) +++ " MHz")
        /\ (ge mhz (of_Z 1000) = true -> is_finite ghz = true ->
            numer ghz < 10 ^ 21 * denom ghz ->
            let n := nearest (100 * numer ghz) (denom ghz) in
            fmtFreq (VNum x)
            = Str.of_Z (n / 100) +++ "." +++ two_digits (n mod 100) +++ " GHz"))
  /\ (fmtFreq (VNum (of_Z 0)) = "— MHz"
      /\ fmtFreq (VNum (of_Z (-5))) = "— MHz"
      /\ fmtFreq (VNum (of_Z 900)) = "1 MHz"
      /\ fmtFreq (VNum (of_Z 900000)) = "900 MHz"
      /\ fmtFreq (VNum (of_Z 1500000)) = "1.50 GHz").
Proof.
  split; [|split; [|split]].
  - intros v Hv. destruct v; try reflexivity. discriminate.
  - intros x Hx. unfold fmtFreq. now rewrite Hx.
  - intros x Hx Hnan mhz ghz. unfold fmtFreq. rewrite Hx.
    fold mhz. fold ghz. split.
    + intros Hge. rewrite Hge. f_equal.
      destruct (le_zero_cases x Hx Hnan) as [->|(m & e & ->)].
      * exfalso. subst mhz. thousand. discriminate.
      * apply round_to_string. now apply (proj1 (mhz_cases m e)).
    + intros Hge Hfin Hlt. rewrite Hge.
      rewrite (toFixed_2 ghz); [now rewrite !app_assoc| |assumption].
      destruct (le_zero_cases x Hx Hnan) as [->|(m & e & ->)].
      * exfalso. subst ghz mhz. thousand. discriminate.
      * destruct (proj2 (mhz_cases m e)) as [E|[E|(m' & e' & E)]];
          fold mhz in E; subst ghz; rewrite E in *.
        -- exfalso. thousand. discriminate.
        -- exfalso. thousand. discriminate.
        -- thousand.
           destruct (div_pos_cases m' e' 8796093022208000 (-43))
             as [->|[E'|(m2 & e2 & -> & _)]]; eauto.
           rewrite E' in Hfin. discriminate.
  - vm_compute. repeat split.
Qed.

(** The claim's [fmtFreq(900)] is not ["900 MHz"]: 900 kHz is shown as
    ["1 MHz"].  And [10 ^ 27] kHz, whose GHz value is [10 ^ 21], is not
    shown with two decimals. *)
Lemma fmtFreq_900_not_900_MHz :
  fmtFreq (VNum (of_Z 900)) = "1 MHz"
  /\ fmtFreq (VNum (of_Z 900)) <> "900 MHz"
  /\ fmtFreq (VNum (of_Z (10 ^ 27))) = "1e+21 GHz".
Proof. vm_compute. repeat split. discriminate. Qed.

Lemma fmtFreq_spec_witness :
  fmtFreq (VNum (of_Z 2400000))
  = Str.of_Z (240 / 100) +++ "." +++ two_digits (240 mod 100) +++ " GHz"
  /\ fmtFreq (VNum (of_Z 999999))
     = Str.of_Z (nearest (numer (div (of_Z 999999) (of_Z 1000)))
                   (denom (div (of_Z 999999) (of_Z 1000)))) +++ " MHz".
Proof.
  split.
  - apply (proj2 (proj1 (proj2 (proj2 fmtFreq_spec)) (of_Z 2400000)
             ltac:(vm_compute; reflexivity) ltac:(vm_compute; reflexivity)));
      vm_compute; reflexivity.
  - apply (proj1 (proj1 (proj2 (proj2 fmtFreq_spec)) (of_Z 999999)
             ltac:(vm_compute; reflexivity) ltac:(vm_compute; reflexivity))).
    vm_compute. reflexivity.
Defined.

End FmtFacts.

(** ** Strings without the dash *)

Module DashFacts.
Import Num NumStr JS Fmt Spec StrFacts.

Lemma list_app s t :
  list_ascii_of_string (s +++ t)
  = (list_ascii_of_string s ++ list_ascii_of_string t)%list.
Proof.
  induction s as [|c s IH]; [reflexivity|]. rewrite app_cons. cbn.
  now rewrite IH.
Qed.

Lemma dashless_app s t : dashless s -> dashless t -> dashless (s +++ t).
Proof.
  unfold dashless. rewrite list_app. intros Hs Ht.
  apply Forall_app. now split.
Qed.

Lemma dashless_check s :
  forallb (fun c => negb (Ascii.eqb c dash_byte)) (list_ascii_of_string s) = true ->
  dashless s.
Proof.
  unfold dashless. intros H. apply Forall_forall. intros c Hc.
  rewrite forallb_forall in H. apply list_elem_of_In in Hc.
  specialize (H c Hc). apply negb_true_iff in H. now apply Ascii.eqb_neq in H.
Qed.

Ltac is_literal s :=
  match s with
  | EmptyString => idtac
  | String (Ascii _ _ _ _ _ _ _ _) ?t => is_literal t
  end.

Ltac dashless_lit :=
  match goal with
  | |- dashless ?s => is_literal s; apply dashless_check; vm_compute; reflexivity
  end.

Lemma dashless_cons c s : c <> dash_byte -> dashless s -> dashless (String c s).
Proof. intros Hc Hs. unfold dashless. cbn. now constructor. Qed.

Lemma dashless_take n s : dashless s -> dashless (Str.take n s).
Proof.
  revert n. induction s as [|c s IH]; intros [|n] H; cbn [Str.take];
    try dashless_lit.
  inversion H; subst. apply dashless_cons; [assumption|]. now apply IH.
Qed.

Lemma dashless_drop n s : dashless s -> dashless (Str.drop n s).
Proof.
  revert n. induction s as [|c s IH]; intros [|n] H; try exact H.
  inversion H; subst. now apply IH.
Qed.

Lemma dashless_repeat n : dashless (Str.repeat Str.zero_char n).
Proof.
  induction n as [|n IH]; cbn [Str.repeat]; [dashless_lit|].
  apply dashless_cons; [discriminate|exact IH].
Qed.

Lemma digit_char_plain d : 0 <= d < 10 -> Str.digit_char d <> dash_byte.
Proof.
  intros Hd.
  assert (H : d = 0 \/ d = 1 \/ d = 2 \/ d = 3 \/ d = 4 \/ d = 5 \/ d = 6
              \/ d = 7 \/ d = 8 \/ d = 9) by lia.
  decompose [or] H; subst; discriminate.
Qed.

Lemma dashless_digits_go fuel n acc :
  dashless acc -> dashless (Str.digits_go fuel n acc).
Proof.
  revert n acc. induction fuel as [|fuel IH]; intros n acc Hacc; [exact Hacc|].
  cbn [Str.digits_go].
  assert (Hc : dashless (String (Str.digit_char (n mod 10)) acc)).
  { apply dashless_cons; [|exact Hacc]. apply digit_char_plain.
    apply Z.mod_pos_bound. lia. }
  destruct (n <? 10); [exact Hc|]. now apply IH.
Qed.

Lemma dashless_of_Z n : dashless (Str.of_Z n).
Proof. apply dashless_digits_go. dashless_lit. Qed.

Lemma dashless_strip s : dashless s -> dashless (Str.strip_trailing_zeros s).
Proof.
  unfold dashless, Str.strip_trailing_zeros. intros H.
  rewrite list_ascii_of_string_of_list_ascii.
  apply Forall_rev.
  assert (Hrev : Forall (fun c => c <> dash_byte)
                   (rev (list_ascii_of_string s))) by now apply Forall_rev.
  induction Hrev as [|c l Hc Hl IH]; cbn; [constructor|].
  destruct (Ascii.eqb c Str.zero_char); [exact IH|]. now constructor.
Qed.

Ltac dashless_tac :=
  repeat first
    [ assumption
    | apply dashless_of_Z | apply dashless_repeat
    | apply dashless_take | apply dashless_drop | apply dashless_strip
    | dashless_lit
    | apply dashless_app ].

Lemma dashless_layout ds n : dashless ds -> dashless (layout ds n).
Proof.
  intros H. unfold layout. cbn zeta.
  repeat match goal with
         | |- context [if ?b then _ else _] => destruct b
         end;
    dashless_tac.
Qed.

Lemma dashless_to_string x : dashless (NumStr.to_string x).
Proof.
  destruct x as [s|[]| |s m e]; cbn [NumStr.to_string]; try dashless_lit.
  apply dashless_app; [destruct s; dashless_lit|].
  unfold pos_to_string.
  destruct (_ && _); [apply dashless_of_Z|].
  destruct (shortest m e) as [c p].
  apply dashless_layout. dashless_tac.
Qed.

Lemma dashless_fixed_digits n f : dashless (fixed_digits n f).
Proof. unfold fixed_digits. destruct f; cbn zeta; dashless_tac. Qed.

Lemma dashless_toFixed x f : dashless (NumStr.toFixed x f).
Proof.
  destruct x as [s|s| |s m e]; cbn [NumStr.toFixed];
    try apply dashless_to_string; try apply dashless_fixed_digits.
  destruct (_ <=? _); [apply dashless_to_string|].
  apply dashless_app; [destruct s; dashless_lit|apply dashless_fixed_digits].
Qed.

(** A string without the dash is left as it is by the replacement. *)
Lemma replace_dashless s : dashless s -> Str.replace_first "— " "" s = s.
Proof.
  induction s as [|c s IH]; intros H; [reflexivity|].
  inversion H as [|? ? Hc Hs]; subst.
  cbn [Str.replace_first Str.prefix].
  assert (E : Ascii.eqb dash_byte c = false)
    by (apply Ascii.eqb_neq; congruence).
  unfold dash_byte in E.
  let v := eval vm_compute in (Ascii.ascii_of_nat 226) in
    change (Ascii.ascii_of_nat 226) with v in E.
  rewrite E.
  cbn [andb]. now rewrite IH.
Qed.

(** What [fmtFreq] returns is the placeholder or has no dash. *)
Lemma fmtFreq_dashless v : fmtFreq v = placeholder \/ dashless (fmtFreq v).
Proof.
  unfold fmtFreq. destruct v; auto. destruct (le x zero); auto.
  right. destruct (ge _ _).
  - apply dashless_app; [apply dashless_toFixed|dashless_lit].
  - apply dashless_app; [apply dashless_to_string|dashless_lit].
Qed.

Import Binary FloatFacts NumStrFacts FmtFacts.

Lemma strip_bound v : Str.replace_first "— " "" (fmtFreq v) = bound v.
Proof.
  unfold bound.
  destruct (String.eqb_spec (fmtFreq v) placeholder) as [->|Hne];
    [reflexivity|].
  destruct (fmtFreq_dashless v) as [|Hd]; [contradiction|].
  now apply replace_dashless.
Qed.

Lemma dashless_not_placeholder s : dashless s -> s <> placeholder.
Proof.
  intros Hd ->. unfold dashless, placeholder in Hd. cbn in Hd.
  inversion Hd as [|? ? Hc _]. apply Hc. reflexivity.
Qed.

(** The bound of a number above zero is what [fmtFreq] gives. *)
Lemma bound_positive x :
  le x zero = false -> bound (VNum x) = fmtFreq (VNum x).
Proof.
  intros Hx. unfold bound.
  destruct (String.eqb_spec (fmtFreq (VNum x)) placeholder) as [E|]; [|reflexivity].
  exfalso. revert E. apply dashless_not_placeholder.
  unfold fmtFreq. rewrite Hx. destruct (ge _ _).
  - apply dashless_app; [apply dashless_toFixed|dashless_lit].
  - apply dashless_app; [apply dashless_to_string|dashless_lit].
Qed.

(** The text of a frequency above zero, by its MHz and GHz values. *)
Lemma positive_freq_text x :
  le x zero = false -> is_nan x = false ->
  let mhz := div x (of_Z 1000) in
  let ghz := div mhz (of_Z 1000) in
  (ge mhz (of_Z 1000) = false ->
   fmtFreq (VNum x) = Str.of_Z (nearest (numer mhz) (denom mhz)) +++ " MHz")
  /\ (ge mhz (of_Z 1000) = true -> is_finite ghz = true ->
      numer ghz < 10 ^ 21 * denom ghz ->
      let n := nearest (100 * numer ghz) (denom ghz) in
      fmtFreq (VNum x)
      = Str.of_Z (n / 100) +++ "." +++ two_digits (n mod 100) +++ " GHz").
Proof.
  intros Hx Hnan mhz ghz. unfold fmtFreq. rewrite Hx. fold mhz. fold ghz.
  destruct (le_zero_cases x Hx Hnan) as [->|(m & e & ->)].
  { split.
    - intros Hge. exfalso. revert Hge. subst ghz mhz. thousand. discriminate.
    - intros _ Hfin. exfalso. revert Hfin. subst ghz mhz. thousand.
      discriminate. }
  split.
  - intros Hge. rewrite Hge. f_equal.
    apply round_to_string. now apply (proj1 (mhz_cases m e)).
  - intros Hge Hfin Hlt. rewrite Hge.
    rewrite (toFixed_2 ghz); [now rewrite !app_assoc| |assumption].
    destruct (proj2 (mhz_cases m e)) as [E|[E|(m' & e' & E)]];
      fold mhz in E; subst ghz; rewrite E in *.
    + exfalso. revert Hfin. thousand. discriminate.
    + exfalso. revert Hge. thousand. discriminate.
    + thousand.
      destruct (div_pos_cases m' e' 8796093022208000 (-43))
        as [E'|[E'|(m2 & e2 & E' & _)]]; rewrite E' in *; eauto.
      discriminate.
Qed.

(** C9, as the code has it.  [fmtBounds] formats the two bounds each
    on its own and joins them with [" / "].  A bound that is not a
    number, or is zero or negative, formats to the placeholder and is
    shown as ["MHz"], the dash stripped.  A bound above zero (NaN
    aside) is shown by the frequency rule: with the MHz value
    [khz / 1000], the MHz value rounded to the nearest integer when it
    is below 1000, and the GHz value [MHz / 1000] rounded to two
    decimals when the MHz value is at least 1000 and the GHz value is
    finite and below [10 ^ 21].  So [fmtBounds(300000, 1000000)] is
    ["300 MHz / 1.00 GHz"], and two bounds that are missing give
    ["MHz / MHz"]. *)
Theorem fmtBounds_joins_bounds :
  (forall min_khz max_khz,
     fmtBounds min_khz max_khz = bound min_khz +++ " / " +++ bound max_khz)
  /\ (forall v, is_number v = false -> bound v = "MHz")
  /\ (forall x, le x zero = true -> bound (VNum x) = "MHz")
  /\ (forall x, le x zero = false -> is_nan x = false ->
        let mhz := div x (of_Z 1000) in
        let ghz := div mhz (of_Z 1000) in
        (ge mhz (of_Z 1000) = false ->
         bound (VNum x)
         = Str.of_Z (nearest (numer mhz) (denom mhz)) +++ " MHz")
        /\ (ge mhz (of_Z 1000) = true -> is_finite ghz = true ->
            numer ghz < 10 ^ 21 * denom ghz ->
            let n := nearest (100 * numer ghz) (denom ghz) in
            bound (VNum x)
            = Str.of_Z (n / 100) +++ "." +++ two_digits (n mod 100) +++ " GHz"))
  /\ (fmtBounds (VNum (of_Z 300000)) (VNum (of_Z 1000000))
      = "300 MHz / 1.00 GHz"
      /\ fmtBounds VNull VUndefined = "MHz / MHz"
      /\ fmtBounds (VNum (of_Z 0)) (VNum (of_Z 1500000)) = "MHz / 1.50 GHz").
Proof.
  split; [|split; [|split; [|split]]].
  - intros min_khz max_khz. unfold fmtBounds. now rewrite !strip_bound.
  - intros v Hv. destruct v; try reflexivity. discriminate.
  - intros x Hx. unfold bound, fmtFreq. now rewrite Hx.
  - intros x Hx Hnan mhz ghz. rewrite bound_positive by assumption.
    now apply positive_freq_text.
  - vm_compute. repeat split.
Qed.

(** The frequency rule's two decimals are not shown for every bound:
    an upper bound of [10 ^ 27] kHz, whose GHz value is [10 ^ 21], is
    shown in exponent form. *)
Lemma fmtBounds_beyond_two_decimals :
  fmtBounds (VNum (of_Z 300000)) (VNum (of_Z (10 ^ 27)))
  = "300 MHz / 1e+21 GHz"
  /\ fmtBounds (VNum (of_Z 300000)) (VNum (of_Z (10 ^ 27)))
     <> "300 MHz / 1000000000000000000000.00 GHz".
Proof. vm_compute. split; [reflexivity|discriminate]. Qed.

Lemma fmtBounds_joins_bounds_witness :
  bound (VStr "fast") = "MHz"
  /\ bound (VNum (of_Z 999999))
     = Str.of_Z (nearest (numer (div (of_Z 999999) (of_Z 1000)))
                   (denom (div (of_Z 999999) (of_Z 1000)))) +++ " MHz".
Proof.
  split.
  - apply (proj1 (proj2 fmtBounds_joins_bounds) (VStr "fast")). reflexivity.
  - apply (proj1 (proj1 (proj2 (proj2 (proj2 fmtBounds_joins_bounds)))
                    (of_Z 999999)
                    ltac:(vm_compute; reflexivity)
                    ltac:(vm_compute; reflexivity))).
    vm_compute. reflexivity.
Defined.

End DashFacts.

(** ** Exact results of the operations on numbers *)

Module ExactFacts.
Import Num Binary Dyadic FloatFacts.

Lemma pow2_pos k : 0 <= k -> 0 < 2 ^ k.
Proof. intros. apply Z.pow_pos_nonneg; lia. Qed.

Lemma pow2_split a b : 0 <= a -> 0 <= b -> 2 ^ (a + b) = 2 ^ a * 2 ^ b.
Proof. intros. now apply Z.pow_add_r. Qed.

(** Shifting to the left adds binary digits. *)
Lemma Zdigits2_shift a k :
  0 < a -> 0 <= k -> Zdigits2 (a * 2 ^ k) = Zdigits2 a + k.
Proof.
  intros Ha Hk. destruct (Zdigits2_bounds a Ha) as [Hlo Hhi].
  pose proof (Zdigits2_nonneg a) as Hd.
  assert (Hd1 : 1 <= Zdigits2 a) by (destruct a; cbn in *; lia).
  pose proof (pow2_pos k Hk) as Hp.
  apply Z.le_antisymm.
  - apply Zdigits2_le; [lia|]. split; [nia|].
    rewrite pow2_split by lia. nia.
  - assert (Zdigits2 a + k - 1 < Zdigits2 (a * 2 ^ k)); [|lia].
    apply Zdigits2_gt; [lia|].
    replace (Zdigits2 a + k - 1) with ((Zdigits2 a - 1) + k) by lia.
    rewrite pow2_split by lia. nia.
Qed.

Lemma Zdigits2_mono a b : 0 <= a <= b -> Zdigits2 a <= Zdigits2 b.
Proof.
  intros [Ha Hab]. destruct (Z.eq_dec b 0) as [->|Hb].
  - replace a with 0 by lia. lia.
  - apply Zdigits2_le; [apply Zdigits2_nonneg|].
    split; [assumption|]. destruct (Zdigits2_bounds b); lia.
Qed.

Lemma fexp_mono a b : a <= b -> fexp a <= fexp b.
Proof. unfold fexp. lia. Qed.

Lemma shiftl_value p k :
  0 <= k -> Z.pos (Pos.shiftl p (Z.to_N k)) = Z.pos p * 2 ^ k.
Proof.
  intros Hk. destruct k as [|k|k]; try lia; cbn [Z.to_N].
  - change (Pos.shiftl p 0) with p. rewrite Z.pow_0_r. lia.
  - change (Pos.shiftl p (N.pos k)) with (Pos.iter xO p k).
    apply iter_xO_value.
Qed.

(** The mantissa and the exponent of [dyadic]. *)
Lemma dyadic_pos N e :
  0 < N -> fexp (Zdigits2 N + e) <= e ->
  exists m,
    dyadic N e = S754_finite false m (fexp (Zdigits2 N + e))
    /\ Z.pos m = N * 2 ^ (e - fexp (Zdigits2 N + e))
    /\ Zdigits2 (Z.pos m) + fexp (Zdigits2 N + e) = Zdigits2 N + e.
Proof.
  intros HN He. destruct N as [|p|p]; try lia.
  unfold dyadic. cbn [Zdigits2] in *. eexists. split; [reflexivity|].
  assert (Hv : Z.pos (Pos.shiftl p (Z.to_N (e - fexp (Z.pos (digits2_pos p) + e))))
               = Z.pos p * 2 ^ (e - fexp (Z.pos (digits2_pos p) + e)))
    by (apply shiftl_value; lia).
  split; [exact Hv|].
  change (Z.pos (digits2_pos (Pos.shiftl p (Z.to_N (e - fexp (Z.pos (digits2_pos p) + e))))))
    with (Zdigits2 (Z.pos (Pos.shiftl p (Z.to_N (e - fexp (Z.pos (digits2_pos p) + e)))))).
  rewrite Hv, Zdigits2_shift by lia. cbn [Zdigits2]. lia.
Qed.

(** In the range of the uptime: at most 53 bits, a negative or zero
    exponent. *)
Lemma fexp_le N e :
  0 <= N < 2 ^ prec -> emin <= e -> fexp (Zdigits2 N + e) <= e.
Proof.
  intros HN He.
  assert (Zdigits2 N <= prec) by (apply Zdigits2_le; unfold prec in *; lia).
  unfold fexp. lia.
Qed.

Lemma of_int_dyadic n : 0 <= n < 2 ^ prec -> of_int n = dyadic n 0.
Proof.
  intros Hn. destruct n as [|p|p]; try lia; [reflexivity|].
  assert (Hd : Zdigits2 (Z.pos p) <= prec)
    by (apply Zdigits2_le; unfold prec in *; lia).
  cbn [Zdigits2] in Hd. unfold of_int, dyadic.
  assert (Hf : fexp (Z.pos (digits2_pos p) + 0) = Z.pos (digits2_pos p) - prec)
    by (unfold fexp, emin, prec, emax in *; lia).
  rewrite Hf. do 2 f_equal. f_equal. lia.
Qed.

(** A valid positive number is the [dyadic] of its mantissa and
    exponent. *)
Lemma valid_dyadic m e :
  valid (S754_finite false m e) = true ->
  S754_finite false m e = dyadic (Z.pos m) e
  /\ fexp (Zdigits2 (Z.pos m) + e) = e /\ e <= emax - prec.
Proof.
  unfold valid, valid_binary, bounded, canonical_mantissa.
  change (SpecFloat.fexp prec emax) with fexp.
  intros H. apply andb_prop in H as [Hc Hb].
  apply Z.eqb_eq in Hc. apply Z.leb_le in Hb.
  cbn [Zdigits2]. split; [|split; assumption].
  unfold dyadic. rewrite Hc, Z.sub_diag. reflexivity.
Qed.

(** *** Exact rounding *)

Lemma shr_1_even a :
  0 <= a ->
  shr_1 {| shr_m := 2 * a; shr_r := false; shr_s := false |}
  = {| shr_m := a; shr_r := false; shr_s := false |}.
Proof. intros Ha. destruct a; try lia; reflexivity. Qed.

Lemma shr_iter_exact n a :
  0 <= a ->
  Nat.iter n shr_1
    {| shr_m := a * 2 ^ Z.of_nat n; shr_r := false; shr_s := false |}
  = {| shr_m := a; shr_r := false; shr_s := false |}.
Proof.
  intros Ha. revert a Ha. induction n as [|n IH]; intros a Ha.
  - cbn [Nat.iter]. now rewrite Z.pow_0_r, Z.mul_1_r.
  - rewrite Nat.iter_succ_r, Nat2Z.inj_succ, Z.pow_succ_r by lia.
    replace (a * (2 * 2 ^ Z.of_nat n)) with (2 * (a * 2 ^ Z.of_nat n)) by lia.
    rewrite shr_1_even by (pose proof (pow2_pos (Z.of_nat n)); nia).
    now apply IH.
Qed.

(** A mantissa whose excess bits are all zero is rounded to itself. *)
Lemma rounded_shift a M E :
  0 <= a -> M = a * 2 ^ Z.max (excess M E) 0 ->
  rounded M E loc_Exact = a.
Proof.
  intros Ha HM. unfold rounded, shorten. cbn [shr_record_of_loc].
  set (n := Z.to_nat (excess M E)).
  assert (Hn : Z.of_nat n = Z.max (excess M E) 0) by (subst n; lia).
  assert (Hi : Nat.iter n shr_1
                 {| shr_m := M; shr_r := false; shr_s := false |}
               = {| shr_m := a; shr_r := false; shr_s := false |}).
  { rewrite <- Hn in HM. rewrite HM at 1. now apply shr_iter_exact. }
  rewrite Hi. reflexivity.
Qed.

(** [binary_round_aux] is exact on a mantissa that is [N * 2 ^ e]
    written with more bits. *)
Lemma round_aux_exact N e M E :
  0 < N -> fexp (Zdigits2 N + e) <= e -> e <= emax - prec ->
  E <= fexp (Zdigits2 N + e) -> M = N * 2 ^ (e - E) ->
  binary_round_aux prec emax false M E loc_Exact = dyadic N e.
Proof.
  intros HN Hf He HE HM.
  set (ec := fexp (Zdigits2 N + e)) in *.
  assert (HdM : Zdigits2 M + E = Zdigits2 N + e)
    by (rewrite HM, Zdigits2_shift by lia; lia).
  assert (Hx : excess M E = ec - E) by (unfold excess; now rewrite HdM).
  assert (HM0 : 0 <= M) by (pose proof (pow2_pos (e - E)); nia).
  destruct (dyadic_pos N e HN Hf) as (m & -> & Hm & Hdm). fold ec in Hm, Hdm.
  rewrite binary_round_aux_pack by assumption.
  assert (Hr : rounded M E loc_Exact = Z.pos m).
  { apply rounded_shift; [lia|]. rewrite Hx, Z.max_l by lia.
    rewrite Hm, HM, <- Z.mul_assoc, <- pow2_split by lia.
    do 2 f_equal. lia. }
  rewrite Hr. unfold rounded_exp. rewrite Hx, Z.max_l by lia.
  replace (E + (ec - E)) with ec by lia.
  apply pack_canonical; [|lia].
  unfold excess. cbn [Zdigits2] in Hdm |- *. fold ec. rewrite Hdm. fold ec. lia.
Qed.

(** [binary_round] is exact on [N * 2 ^ e] written at a smaller
    exponent. *)
Lemma round_exact N e p E :
  0 < N -> fexp (Zdigits2 N + e) <= e -> e <= emax - prec ->
  E <= e -> Z.pos p = N * 2 ^ (e - E) ->
  binary_round prec emax false p E = dyadic N e.
Proof.
  intros HN Hf He HE Hp.
  assert (Hdp : Z.pos (digits2_pos p) + E = Zdigits2 N + e).
  { change (Z.pos (digits2_pos p)) with (Zdigits2 (Z.pos p)).
    rewrite Hp, Zdigits2_shift by lia. lia. }
  unfold binary_round, shl_align.
  change (SpecFloat.fexp prec emax) with fexp. rewrite Hdp.
  set (ec := fexp (Zdigits2 N + e)) in *.
  destruct (ec - E) as [|k|k] eqn:Hk.
  - apply round_aux_exact; try assumption. fold ec. lia.
  - apply round_aux_exact; try assumption. fold ec. lia.
  - apply round_aux_exact; try assumption; [fold ec; lia|].
    rewrite iter_xO_value, Hp, <- Z.mul_assoc, <- pow2_split by lia.
    do 2 f_equal. lia.
Qed.

End ExactFacts.

Module OpFacts.
Import Num Binary Dyadic FloatFacts ExactFacts.

(** *** Multiplication of integers *)

Lemma mul_int a c :
  0 <= a -> 0 < c -> a * c < 2 ^ prec ->
  mul (of_int a) (of_int c) = of_int (a * c).
Proof.
  intros Ha Hc Hac.
  destruct c as [|pc|pc]; try lia.
  destruct a as [|pa|pa]; try lia; [reflexivity|].
  assert (Hpa : Z.pos pa < 2 ^ prec) by nia.
  assert (Hpc : Z.pos pc < 2 ^ prec) by nia.
  destruct (of_int_pos pa Hpa) as (ma & -> & _ & Hma & Hda).
  destruct (of_int_pos pc Hpc) as (mc & -> & _ & Hmc & Hdc).
  assert (Hda' : Zdigits2 (Z.pos pa) <= prec)
    by (apply Zdigits2_le; unfold prec in *; lia).
  assert (Hdc' : Zdigits2 (Z.pos pc) <= prec)
    by (apply Zdigits2_le; unfold prec in *; lia).
  assert (Hmono : Zdigits2 (Z.pos pa) <= Zdigits2 (Z.pos pa * Z.pos pc))
    by (apply Zdigits2_mono; nia).
  cbn [Zdigits2] in Hda', Hdc', Hmono.
  unfold mul, SFmul. cbn [xorb].
  rewrite of_int_dyadic by lia.
  apply round_aux_exact.
  - lia.
  - apply fexp_le; [lia|unfold emin, emax, prec; lia].
  - unfold emax, prec; lia.
  - cbn [Zdigits2 Z.mul] in *. unfold fexp, emin, emax, prec in *. lia.
  - rewrite Pos2Z.inj_mul, Hma, Hmc.
    replace (0 - (Z.pos (digits2_pos pa) - prec + (Z.pos (digits2_pos pc) - prec)))
      with ((prec - Z.pos (digits2_pos pa)) + (prec - Z.pos (digits2_pos pc)))
      by lia.
    rewrite pow2_split by lia. lia.
Qed.

(** *** Subtraction *)

Lemma shl_align_value m e e' :
  e' <= e -> Z.pos (fst (shl_align m e e')) = Z.pos m * 2 ^ (e - e').
Proof.
  intros He. unfold shl_align.
  destruct (e' - e) as [|k|k] eqn:Hk; cbn [fst]; try lia.
  - replace (e - e') with 0 by lia. rewrite Z.pow_0_r. lia.
  - rewrite iter_xO_value. do 2 f_equal. lia.
Qed.

(** Taking a whole number [b] off [N * 2 ^ e] is exact. *)
Lemma sub_dyadic N e b :
  0 <= N < 2 ^ prec -> emin <= e <= 0 -> 0 <= b -> b * 2 ^ (- e) <= N ->
  sub (dyadic N e) (of_int b) = dyadic (N - b * 2 ^ (- e)) e.
Proof.
  intros HN He Hb HbN.
  pose proof (pow2_pos (- e) ltac:(lia)) as HS.
  destruct (Z.eq_dec b 0) as [->|Hb0].
  { rewrite Z.mul_0_l, Z.sub_0_r. destruct N as [|p|p]; try lia; reflexivity. }
  assert (HN0 : 0 < N) by nia.
  assert (Hb53 : b < 2 ^ prec) by nia.
  pose proof (fexp_le N e HN ltac:(lia)) as Hf.
  destruct (dyadic_pos N e HN0 Hf) as (mx & -> & Hmx & Hdx).
  set (ex := fexp (Zdigits2 N + e)) in *.
  destruct b as [|pb|pb]; try lia.
  destruct (of_int_pos pb Hb53) as (my & -> & _ & Hmy & Hdy).
  assert (Hdb : Zdigits2 (Z.pos pb) <= prec)
    by (apply Zdigits2_le; unfold prec in *; lia).
  cbn [Zdigits2] in Hdb.
  set (ey := Z.pos (digits2_pos pb) - prec) in *.
  unfold sub, SFsub. cbn zeta. cbn [cond_Zopp].
  set (ez := Z.min ex ey).
  rewrite !shl_align_value by lia.
  assert (HX : Z.pos mx * 2 ^ (ex - ez) - Z.pos my * 2 ^ (ey - ez)
               = (N - Z.pos pb * 2 ^ (- e)) * 2 ^ (e - ez)).
  { rewrite Hmx, Hmy, <- !Z.mul_assoc, <- !pow2_split by lia.
    rewrite Z.mul_sub_distr_r, <- Z.mul_assoc, <- pow2_split by lia.
    f_equal; do 2 f_equal; lia. }
  rewrite HX.
  pose proof (pow2_pos (e - ez) ltac:(lia)) as HP.
  destruct (Z.eq_dec (N - Z.pos pb * 2 ^ (- e)) 0) as [->|Hne]; [reflexivity|].
  set (N' := N - Z.pos pb * 2 ^ (- e)) in *.
  assert (HN' : 0 < N' < 2 ^ prec) by lia.
  assert (Hpos : 0 < N' * 2 ^ (e - ez)) by (apply Z.mul_pos_pos; lia).
  destruct (N' * 2 ^ (e - ez)) as [|p|p] eqn:Hp; try lia.
  cbn [binary_normalize].
  apply round_exact; try lia.
  - apply fexp_le; lia.
  - unfold emax, prec; lia.
Qed.

(** *** The floor *)

Lemma floor_dyadic N e :
  0 <= N < 2 ^ prec -> emin <= e <= 0 ->
  floor (dyadic N e) = of_int (N / 2 ^ (- e)).
Proof.
  intros HN He.
  pose proof (pow2_pos (- e) ltac:(lia)) as HS.
  destruct (Z.eq_dec N 0) as [->|HN0]; [reflexivity|].
  pose proof (fexp_le N e HN ltac:(lia)) as Hf.
  destruct (dyadic_pos N e ltac:(lia) Hf) as (m & Hd & Hm & Hdm).
  set (ec := fexp (Zdigits2 N + e)) in *.
  unfold floor. rewrite Hd.
  destruct (Z.leb_spec 0 ec) as [H0|H0].
  - assert (e = 0) as -> by lia. rewrite Z.pow_0_r, Z.div_1_r.
    rewrite <- Hd. symmetry. now apply of_int_dyadic.
  - cbn [numer denom signed]. rewrite Z.max_r, Z.max_l by lia.
    rewrite Z.pow_0_r, Z.mul_1_r.
    assert (Hn : Z.pos m / 2 ^ (- ec) = N / 2 ^ (- e)).
    { rewrite Hm. replace (- ec) with (- e + (e - ec)) by lia.
      rewrite pow2_split by lia.
      apply Z.div_mul_cancel_r; pose proof (pow2_pos (e - ec)); lia. }
    rewrite Hn.
    assert (Hq : 0 <= N / 2 ^ (- e) <= N).
    { split; [apply Z.div_pos; lia|]. apply Z.div_le_upper_bound; nia. }
    destruct (Z.eqb_spec (N / 2 ^ (- e)) 0) as [->|Hne]; [reflexivity|].
    apply of_Z_of_int. lia.
Qed.

(** *** Comparisons with zero *)

Lemma gt_of_int n : 0 <= n -> gt (of_int n) JS.zero = (0 <? n).
Proof. intros Hn. destruct n; try lia; reflexivity. Qed.

Lemma ge_zero_cases x :
  ge x JS.zero = true -> is_finite x = true ->
  (exists s, x = S754_zero s) \/ exists m e, x = S754_finite false m e.
Proof.
  destruct x as [s|s| |[] m e]; cbn; try discriminate; eauto.
Qed.

End OpFacts.

Module DivFacts.
Import Num Binary Dyadic FloatFacts ExactFacts OpFacts.

Lemma pow2_le_inv a b : 0 <= a -> 2 ^ a <= 2 ^ b -> a <= b.
Proof.
  intros Ha H. destruct (Z.le_gt_cases a b) as [|Hlt]; [assumption|].
  exfalso. destruct (Z.le_gt_cases 0 b) as [Hb|Hb].
  - assert (2 ^ b < 2 ^ a) by (apply Z.pow_lt_mono_r; lia). lia.
  - rewrite (Z.pow_neg_r 2 b) in H by lia. pose proof (pow2_pos a Ha). lia.
Qed.

Lemma pow2_le a b : 0 <= a <= b -> 2 ^ a <= 2 ^ b.
Proof. intros. apply Z.pow_le_mono_r; lia. Qed.

Lemma div_succ_same Q P :
  0 < P -> (Q + 1) mod P <> 0 -> (Q + 1) / P = Q / P.
Proof.
  intros HP Hr. pose proof (Z.div_mod (Q + 1) P ltac:(lia)) as Hdm.
  pose proof (Z.mod_pos_bound (Q + 1) P HP) as Hb.
  apply Z.div_unique with ((Q + 1) mod P - 1); lia.
Qed.

(** The binary digits of a mantissa cut by [n] bits. *)
Lemma Zdigits2_div R n :
  0 <= n -> 2 ^ n <= R -> Zdigits2 (R / 2 ^ n) = Zdigits2 R - n.
Proof.
  intros Hn HR. pose proof (pow2_pos n Hn) as Hp.
  assert (HR0 : 0 < R) by lia.
  destruct (Zdigits2_bounds R HR0) as [Hlo Hhi].
  assert (Hdn : n < Zdigits2 R) by (now apply Zdigits2_gt).
  apply Z.le_antisymm.
  - apply Zdigits2_le; [lia|]. split; [apply Z.div_pos; lia|].
    apply Z.div_lt_upper_bound; [lia|].
    rewrite <- pow2_split by lia. now replace (n + (Zdigits2 R - n)) with (Zdigits2 R) by lia.
  - assert (Zdigits2 R - n - 1 < Zdigits2 (R / 2 ^ n)); [|lia].
    apply Zdigits2_gt; [lia|]. apply Z.div_le_lower_bound; [lia|].
    rewrite <- pow2_split by lia.
    now replace (n + (Zdigits2 R - n - 1)) with (Zdigits2 R - 1) by lia.
Qed.

(** *** The floor of a packed number *)

Lemma floor_pack R E :
  0 <= R < 2 ^ (prec - E) -> E < 0 ->
  floor (pack false R E) = of_int (R / 2 ^ (- E)).
Proof.
  intros [HR0 HR] HE.
  assert (HdR : Zdigits2 R <= prec - E)
    by (apply Zdigits2_le; unfold prec in *; lia).
  set (n := Z.max (excess R E) 0).
  assert (Hn : 0 <= n <= - E).
  { subst n. unfold excess, fexp, emin, emax, prec in *. lia. }
  pose proof (pow2_pos n ltac:(lia)) as Hpn.
  pose proof (pow2_pos (- E) ltac:(lia)) as HpE.
  pose proof (pow2_pos (- E - n) ltac:(lia)) as HpEn.
  assert (Hsplit : 2 ^ (- E) = 2 ^ n * 2 ^ (- E - n)).
  { rewrite <- pow2_split by lia. f_equal. lia. }
  assert (Hq : R / 2 ^ (- E) = R / 2 ^ n / 2 ^ (- E - n)).
  { rewrite Hsplit. symmetry. apply Z.div_div; lia. }
  assert (Hlt : R / 2 ^ (- E) < 2 ^ prec).
  { apply Z.div_lt_upper_bound; [lia|].
    rewrite <- pow2_split by (unfold prec; lia).
    now replace (- E + prec) with (prec - E) by lia. }
  assert (Hq0 : 0 <= R / 2 ^ (- E)) by (apply Z.div_pos; lia).
  unfold pack. fold n.
  assert (Hm0 : 0 <= R / 2 ^ n) by (apply Z.div_pos; lia).
  destruct (R / 2 ^ n) as [|m|m] eqn:Hm; try lia.
  - rewrite Hq, Z.div_0_l by lia. reflexivity.
  - rewrite (proj2 (Z.leb_le _ _)) by (unfold emax, prec; lia).
    unfold floor. destruct (Z.leb_spec 0 (E + n)) as [H0|H0].
    + assert (Hn' : n = - E) by lia.
      assert (Hx : excess R E = - E) by lia.
      assert (HdRe : Zdigits2 R = prec - E)
        by (unfold excess, fexp, emin, emax, prec in *; lia).
      assert (H2n : 2 ^ n <= R).
      { destruct (Z.le_gt_cases (2 ^ n) R) as [|Hgt]; [assumption|].
        rewrite Z.div_small in Hm by lia. discriminate. }
      pose proof (Zdigits2_div R n ltac:(lia) H2n) as Hdm.
      rewrite Hm in Hdm. cbn [Zdigits2] in Hdm.
      assert (HRm : R / 2 ^ (- E) = Z.pos m).
      { rewrite Hq. replace (- E - n) with 0 by lia.
        now rewrite Z.pow_0_r, Z.div_1_r. }
      rewrite HRm. unfold of_int.
      replace (Z.pos (digits2_pos m)) with prec by lia.
      rewrite Z.sub_diag. replace (E + n) with 0 by lia. reflexivity.
    + cbn [numer denom signed]. rewrite Z.max_r, Z.max_l by lia.
      rewrite Z.pow_0_r, Z.mul_1_r.
      replace (- (E + n)) with (- E - n) by lia. rewrite <- Hq.
      destruct (Z.eqb_spec (R / 2 ^ (- E)) 0) as [->|Hne]; [reflexivity|].
      apply of_Z_of_int. lia.
Qed.

(** *** Rounding up needs half a unit *)

Lemma shr_m_of_loc q l : shr_m (shr_record_of_loc q l) = q.
Proof. destruct l as [|[]]; reflexivity. Qed.

Lemma new_location_r q D r :
  0 <= r -> shr_r (shr_record_of_loc q (new_location D r)) = true ->
  D <= 2 * r.
Proof.
  intros Hr. unfold new_location, new_location_even, new_location_odd.
  destruct (Z.even D); destruct (Z.eqb_spec r 0) as [->|Hne];
    cbn [shr_record_of_loc shr_r]; try discriminate.
  - destruct (Z.compare_spec (2 * r) D); cbn [shr_record_of_loc shr_r];
      try discriminate; lia.
  - destruct (Z.compare_spec (2 * r + 1) D); cbn [shr_record_of_loc shr_r];
      try discriminate; lia.
Qed.

(** When the quotient [q] of [q * D + r] by [D] is rounded up, what was
    cut off is at least half a unit of the rounded mantissa. *)
Lemma round_up_half q E D r :
  0 <= q -> 0 < D -> 0 <= r ->
  shr_r (shorten q E (new_location D r)) = true ->
  (2 * (q / 2 ^ Z.max (excess q E) 0) + 1) * 2 ^ Z.max (excess q E) 0 * D
  <= 2 * (q * D + r).
Proof.
  intros Hq HD Hr. unfold shorten.
  destruct (Z.le_gt_cases (excess q E) 0) as [Hx|Hx].
  - replace (Z.to_nat (excess q E)) with 0%nat by lia.
    rewrite Z.max_r by lia. cbn [Nat.iter].
    intros H. apply new_location_r in H; [|assumption].
    rewrite Z.pow_0_r, Z.div_1_r. lia.
  - rewrite Z.max_l by lia. set (n := excess q E) in *.
    replace (Z.to_nat n) with (S (Z.to_nat (n - 1))) by lia.
    rewrite shr_iter_r by (rewrite shr_m_of_loc; assumption).
    rewrite shr_m_of_loc, Z2Nat.id by lia. intros Hodd.
    pose proof (pow2_pos (n - 1) ltac:(lia)) as Hp.
    assert (H2 : 2 ^ n = 2 ^ (n - 1) * 2).
    { replace n with (n - 1 + 1) at 1 by lia. now rewrite pow2_split by lia. }
    assert (Hh : q / 2 ^ n = q / 2 ^ (n - 1) / 2)
      by (rewrite H2; symmetry; apply Z.div_div; lia).
    set (h := q / 2 ^ (n - 1)) in *.
    assert (Hh2 : h = 2 * (h / 2) + 1).
    { rewrite (Z.div_mod h 2) at 1 by lia. rewrite Zmod_odd, Hodd. lia. }
    assert (Hqh : 2 ^ (n - 1) * h <= q)
      by (subst h; apply Z.mul_div_le; lia).
    rewrite Hh, H2. rewrite <- Hh2.
    replace (h * (2 ^ (n - 1) * 2) * D) with (2 * ((2 ^ (n - 1) * h) * D)) by lia.
    assert ((2 ^ (n - 1) * h) * D <= q * D) by (apply Z.mul_le_mono_nonneg_r; lia).
    lia.
Qed.

End DivFacts.

Module QuotFacts.
Import Num Binary Dyadic FloatFacts ExactFacts OpFacts DivFacts.

(** The arithmetic of the quotient: a rounded mantissa [Q + 1] that is
    a whole number [t] would need [c] to have more bits than it has. *)
Lemma no_carry N S W c T P Q t A :
  0 < S -> 0 < W -> 0 < c -> 0 < T -> 0 < P -> 0 <= N ->
  A = N * W -> P * T = S * W ->
  Q + 1 = P * t -> N < S * c * t ->
  (2 * Q + 1) * T * c <= 2 * A ->
  2 * W <= T * c.
Proof.
  intros HS HW Hc HT HP HN -> HPT HQ Ht Hup.
  assert (H1 : (2 * Q + 1) * T * c = 2 * (S * W) * t * c - T * c).
  { rewrite <- HPT. replace (2 * Q + 1) with (2 * (P * t) - 1) by lia. ring. }
  rewrite H1 in Hup.
  assert (H2 : 2 * W * (S * c * t - N) <= T * c).
  { replace (2 * W * (S * c * t - N))
      with (2 * (S * W) * t * c - 2 * (N * W)) by ring. lia. }
  assert (H3 : 2 * W * 1 <= 2 * W * (S * c * t - N))
    by (apply Z.mul_le_mono_nonneg_l; lia).
  lia.
Qed.

(** *** The floor of a quotient

    For [N * 2 ^ e] below [2 ^ 53] and a whole divisor [c], the floor
    of the rounded quotient is the floor of the quotient. *)
Lemma floor_div N e c :
  0 <= N < 2 ^ prec -> emin <= e <= 0 -> 2 <= c < 2 ^ prec ->
  floor (div (dyadic N e) (of_int c)) = of_int (N / (2 ^ (- e) * c)).
Proof.
  intros HN He Hc.
  destruct c as [|pc|pc]; try lia.
  destruct (Z.eq_dec N 0) as [->|HN0]; [reflexivity|].
  pose proof (fexp_le N e HN ltac:(lia)) as Hf.
  destruct (dyadic_pos N e ltac:(lia) Hf) as (mx & -> & Hmx & Hdx).
  set (gx := Zdigits2 N + e) in *. set (ex := fexp gx) in *.
  destruct (of_int_pos pc ltac:(lia)) as (mc & -> & _ & Hmc & Hdmc).
  destruct (Zdigits2_bounds (Z.pos pc) ltac:(lia)) as [Hclo Hchi].
  assert (Hdc : 2 <= Zdigits2 (Z.pos pc) <= prec).
  { split.
    - assert (1 < Zdigits2 (Z.pos pc)); [|lia].
      apply Zdigits2_gt; [lia|]. change (2 ^ 1) with 2. lia.
    - apply Zdigits2_le; unfold prec in *; lia. }
  cbn [Zdigits2] in Hclo, Hchi, Hdc.
  set (dc := Z.pos (digits2_pos pc)) in *.
  set (c := Z.pos pc) in *.
  pose proof (div_pos_pack mx ex mc (dc - prec)) as Hdiv. cbn zeta in Hdiv.
  destruct Hdiv as [Hq0 ->].
  set (E := div_exp (Z.pos mx) ex (Z.pos mc) (dc - prec)) in *.
  set (Dv := dividend (Z.pos mx) ex (Z.pos mc) (dc - prec)) in *.
  assert (HE : E = Z.min (fexp (gx - dc)) (ex - (dc - prec))).
  { unfold E, div_exp. cbn [Zdigits2] in *. f_equal. f_equal. lia. }
  assert (Hex : gx - prec <= ex /\ emin <= ex /\ ex <= e)
    by (unfold ex, fexp in *; lia).
  assert (HEe : E <= e /\ E <= -2)
    by (unfold fexp, emin, emax, prec in *; lia).
  (* the powers of two *)
  set (W := 2 ^ (e - E)). set (S := 2 ^ (- e)). set (s := 2 ^ (prec - dc)).
  assert (HW : 0 < W) by (apply pow2_pos; lia).
  assert (HS : 0 < S) by (apply pow2_pos; lia).
  assert (Hs : 0 < s) by (apply pow2_pos; lia).
  assert (HSW : 2 ^ (- E) = S * W).
  { unfold S, W. rewrite <- pow2_split by lia. f_equal. lia. }
  assert (HWle : W <= 2 ^ (- E)) by (apply pow2_le; lia).
  pose proof (pow2_pos (- E) ltac:(lia)) as HpE.
  set (A := N * W).
  assert (HA : 0 <= A < 2 ^ prec * 2 ^ (- E)).
  { unfold A. split; [apply Z.mul_nonneg_nonneg; lia|].
    apply Z.le_lt_trans with (N * 2 ^ (- E));
      [apply Z.mul_le_mono_nonneg_l; lia|].
    apply Z.mul_lt_mono_pos_r; lia. }
  assert (HDv : Dv = A * s).
  { unfold Dv, dividend. fold E. rewrite Hmx. unfold A, W, s.
    rewrite <- !Z.mul_assoc. f_equal.
    rewrite <- !pow2_split by lia. f_equal. lia. }
  assert (Hmcs : Z.pos mc = c * s) by exact Hmc.
  set (q0 := Dv / Z.pos mc) in *.
  assert (Hq0A : q0 = A / c).
  { unfold q0. rewrite HDv, Hmcs. apply Z.div_mul_cancel_r; lia. }
  assert (Hk : N / (S * c) = q0 / 2 ^ (- E)).
  { rewrite Hq0A, Z.div_div, HSW by lia. unfold A.
    replace (c * (S * W)) with (S * c * W) by ring.
    symmetry. apply Z.div_mul_cancel_r; lia. }
  assert (Hq0lt : q0 < 2 ^ (52 - E)).
  { rewrite Hq0A.
    apply Z.le_lt_trans with (A / 2);
      [apply Z.div_le_compat_l; lia|].
    apply Z.div_lt_upper_bound; [lia|].
    replace (52 - E) with (52 + - E) by lia.
    rewrite pow2_split by lia.
    unfold prec in HA. change (2 ^ 53) with (2 * 2 ^ 52) in HA.
    set (p52 := 2 ^ 52) in *. clearbody p52. lia. }
  assert (Hdq : Zdigits2 q0 <= 52 - E) by (apply Zdigits2_le; lia).
  set (dq := Zdigits2 q0) in *.
  assert (Hdq0 : 0 <= dq) by apply Zdigits2_nonneg.
  set (n1 := Z.max (excess q0 E) 0).
  assert (Hn1 : n1 = Z.max (fexp (dq + E) - E) 0) by reflexivity.
  assert (HE' : 0 <= n1 /\ E + n1 <= -1)
    by (unfold fexp, emin, emax, prec in *; lia).
  pose proof (pow2_pos n1 ltac:(lia)) as HT.
  pose proof (pow2_pos (- (E + n1)) ltac:(lia)) as HP.
  assert (HPT : 2 ^ (- (E + n1)) * 2 ^ n1 = S * W).
  { rewrite <- HSW, <- pow2_split by lia. f_equal. lia. }
  set (Q := q0 / 2 ^ n1).
  assert (HQ0 : 0 <= Q) by (apply Z.div_pos; lia).
  assert (HQlt : Q < 2 ^ (52 - (E + n1))).
  { apply Z.div_lt_upper_bound; [lia|].
    rewrite <- pow2_split by lia.
    now replace (n1 + (52 - (E + n1))) with (52 - E) by lia. }
  assert (HQP : Q / 2 ^ (- (E + n1)) = q0 / 2 ^ (- E)).
  { unfold Q. rewrite Z.div_div by lia. do 2 f_equal.
    rewrite HSW, <- HPT. ring. }
  assert (Hexp : rounded_exp q0 E = E + n1) by reflexivity.
  rewrite Hexp.
  set (l := new_location (Z.pos mc) (Dv mod Z.pos mc)) in *.
  assert (HRb : 2 ^ (52 - (E + n1)) + 1 <= 2 ^ (prec - (E + n1))).
  { replace (prec - (E + n1)) with (1 + (52 - (E + n1))) by (unfold prec; lia).
    rewrite pow2_split by lia. change (2 ^ 1) with 2.
    pose proof (pow2_pos (52 - (E + n1)) ltac:(lia)). lia. }
  replace (2 ^ (- e) * c) with (S * c) by reflexivity.
  rewrite Hk, <- HQP.
  pose proof (rounded_cases q0 E l Hq0) as HR. cbn zeta in HR. fold n1 Q in HR.
  destruct HR as [HR|[HR Hbit]]; rewrite floor_pack by lia; rewrite HR;
    [reflexivity|].
  f_equal. apply div_succ_same; [lia|]. intros Hmod.
  (* the rounded mantissa would be a whole number [t] *)
  set (P := 2 ^ (- (E + n1))) in *.
  pose proof (Z.div_mod (Q + 1) P ltac:(lia)) as Ht. rewrite Hmod in Ht.
  set (t := (Q + 1) / P) in *.
  assert (Ht1 : 1 <= t).
  { destruct (Z.le_gt_cases 1 t) as [|Hlt]; [assumption|exfalso].
    assert (P * t <= 0) by (apply Z.mul_nonneg_nonpos; lia). lia. }
  assert (HQt : Q / P = t - 1).
  { symmetry. apply Z.div_unique with (P - 1); lia. }
  assert (HNt : N < S * c * t).
  { pose proof (Z.div_mod N (S * c) ltac:(lia)) as HNd.
    pose proof (Z.mod_pos_bound N (S * c) ltac:(lia)) as HNr.
    rewrite Hk, <- HQP, HQt in HNd.
    replace (S * c * t) with (S * c * (t - 1) + S * c) by ring. lia. }
  pose proof (round_up_half q0 E (Z.pos mc) (Dv mod Z.pos mc) Hq0 ltac:(lia)
                (proj1 (Z.mod_pos_bound Dv (Z.pos mc) ltac:(lia))) Hbit) as Hup.
  fold n1 Q in Hup.
  assert (HDvq : q0 * Z.pos mc + Dv mod Z.pos mc = Dv).
  { pose proof (Z.div_mod Dv (Z.pos mc) ltac:(lia)) as H. fold q0 in H. lia. }
  rewrite HDvq, HDv, Hmcs in Hup.
  assert (Hup' : (2 * Q + 1) * 2 ^ n1 * c <= 2 * A).
  { apply (Z.mul_le_mono_pos_r _ _ s Hs). lia. }
  pose proof (no_carry N S W c (2 ^ n1) P Q t A HS HW ltac:(lia) HT HP
                ltac:(lia) eq_refl HPT ltac:(lia) HNt Hup') as Hcarry.
  (* but [c] has only [dc] bits *)
  assert (HQ53 : Q < 2 ^ prec).
  { apply (div_pow_lt q0 n1 dq); [|lia|unfold fexp in Hn1; lia].
    split; [assumption|]. destruct (Z.eq_dec q0 0) as [H0|H0].
    - rewrite H0. apply pow2_pos. lia.
    - apply Zdigits2_bounds. lia. }
  assert (HP53 : - (E + n1) <= prec).
  { apply pow2_le_inv; [lia|]. fold P.
    assert (P * 1 <= P * t) by (apply Z.mul_le_mono_nonneg_l; lia). lia. }
  assert (Hdq2 : dq <= 54 + e - E - dc).
  { apply Zdigits2_le; [unfold prec in *; lia|]. split; [assumption|].
    apply (Z.mul_lt_mono_pos_r (2 ^ (dc - 1))); [apply pow2_pos; lia|].
    rewrite <- pow2_split by (unfold prec in *; lia).
    replace (54 + e - E - dc + (dc - 1)) with (prec + (e - E))
      by (unfold prec; lia).
    rewrite pow2_split by (unfold prec; lia). fold W.
    assert (q0 * c <= A)
      by (rewrite Hq0A, Z.mul_comm; apply Z.mul_div_le; lia).
    assert (q0 * 2 ^ (dc - 1) <= q0 * c)
      by (apply Z.mul_le_mono_nonneg_l; lia).
    assert (A < 2 ^ prec * W) by (unfold A; apply Z.mul_lt_mono_pos_r; lia).
    lia. }
  assert (HE2 : n1 + dc <= 1 + (e - E))
    by (unfold fexp, emin, emax, prec in *; lia).
  assert (Hlt : 2 ^ n1 * c < 2 * W).
  { apply Z.lt_le_trans with (2 ^ n1 * 2 ^ dc);
      [apply Z.mul_lt_mono_pos_l; lia|].
    rewrite <- pow2_split by lia.
    replace (2 * W) with (2 ^ (1 + (e - E)))
      by (rewrite pow2_split by lia; reflexivity).
    apply pow2_le. lia. }
  lia.
Qed.

End QuotFacts.

Module SignFacts.
Import Num Binary Dyadic FloatFacts ExactFacts OpFacts.

Lemma round_sign p E :
  binary_round prec emax true p E = SFopp (binary_round prec emax false p E).
Proof.
  unfold binary_round. destruct (shl_align _ _ _) as [mz ez].
  unfold binary_round_aux. destruct (shr_fexp _ _ _ _ _) as [r e].
  destruct (shr_fexp _ _ _ _ _) as [r' e'].
  destruct (shr_m r'); try reflexivity. now destruct (_ <=? _).
Qed.

Lemma of_int_opp n : n <> 0 -> of_int (- n) = SFopp (of_int n).
Proof. now destruct n. Qed.

(** Rounding a whole number below [2 ^ 53] that is written at a
    negative exponent gives that number. *)
Lemma norm_int c T ez :
  Z.abs c < 2 ^ prec -> ez <= 0 -> T = c * 2 ^ (- ez) ->
  binary_normalize prec emax T ez false = of_int c.
Proof.
  intros Hc Hez HT.
  pose proof (pow2_pos (- ez) ltac:(lia)) as HP.
  assert (Hpos : forall c' p, 0 < c' < 2 ^ prec -> Z.pos p = c' * 2 ^ (- ez) ->
            binary_round prec emax false p ez = of_int c').
  { intros c' p Hc' Hp. rewrite of_int_dyadic by lia.
    apply round_exact;
      [ lia
      | apply fexp_le; [lia|unfold emin, emax, prec; lia]
      | unfold emax, prec; lia
      | lia
      | rewrite Hp; do 2 f_equal; lia ]. }
  destruct c as [|c|c].
  - subst T. reflexivity.
  - assert (H0 : 0 < T) by (subst T; apply Z.mul_pos_pos; lia).
    destruct T as [|p|p]; try lia. cbn [binary_normalize].
    apply Hpos; [lia|assumption].
  - assert (H0 : T < 0) by (subst T; apply Z.mul_neg_pos; lia).
    destruct T as [|p|p]; try lia. cbn [binary_normalize].
    rewrite round_sign, (Hpos (Z.pos c) p); [reflexivity|lia|lia].
Qed.

(** The mantissa of a whole number that is not zero. *)
Lemma of_int_finite n :
  n <> 0 -> Z.abs n < 2 ^ prec ->
  exists s m e, of_int n = S754_finite s m e
    /\ cond_Zopp s (Z.pos m) = n * 2 ^ (- e) /\ e <= 0
    /\ s = (n <? 0) /\ e = Zdigits2 (Z.abs n) - prec
    /\ Z.pos m = Z.abs n * 2 ^ (- e).
Proof.
  intros Hn Hb. destruct n as [|p|p]; try congruence.
  all: assert (Hp : Z.pos p < 2 ^ prec) by (cbn in Hb; lia).
  all: destruct (of_int_pos p Hp) as (m & Hof & Hof' & Hm & Hdm).
  all: assert (Hd : Z.pos (digits2_pos p) <= prec)
         by (apply (Zdigits2_le (Z.pos p)); unfold prec in *; lia).
  all: replace (prec - Z.pos (digits2_pos p))
         with (- (Z.pos (digits2_pos p) - prec)) in Hm by lia.
  - exists false, m, (Z.pos (digits2_pos p) - prec).
    cbn [cond_Zopp Z.abs Zdigits2]. repeat split; try assumption; lia.
  - exists true, m, (Z.pos (digits2_pos p) - prec).
    cbn [cond_Zopp Z.abs Zdigits2]. repeat split; try assumption; lia.
Qed.

Lemma aligned s m e n ez :
  cond_Zopp s (Z.pos m) = n * 2 ^ (- e) -> ez <= e -> e <= 0 ->
  cond_Zopp s (Z.pos (fst (shl_align m e ez))) = n * 2 ^ (- ez).
Proof.
  intros Hm Hez He. rewrite shl_align_value by assumption.
  replace (- ez) with (- e + (e - ez)) by lia.
  rewrite pow2_split, Z.mul_assoc, <- Hm by lia.
  destruct s; cbn [cond_Zopp]; lia.
Qed.

(** The sum and the difference of two whole numbers are exact while
    they stay below [2 ^ 53]. *)
Lemma add_int a b :
  Z.abs a < 2 ^ prec -> Z.abs b < 2 ^ prec -> Z.abs (a + b) < 2 ^ prec ->
  add (of_int a) (of_int b) = of_int (a + b).
Proof.
  intros Ha Hb Hab.
  destruct (Z.eq_dec a 0) as [->|Ha0].
  { cbn [Z.add]. destruct b as [|p|p]; reflexivity. }
  destruct (Z.eq_dec b 0) as [->|Hb0].
  { rewrite Z.add_0_r. destruct a as [|p|p]; try congruence; reflexivity. }
  destruct (of_int_finite a Ha0 Ha) as (sa & ma & ea & -> & Hma & Hea & _).
  destruct (of_int_finite b Hb0 Hb) as (sb & mb & eb & -> & Hmb & Heb & _).
  unfold add, SFadd. cbn zeta.
  apply norm_int; [assumption|lia|].
  rewrite (aligned sa ma ea a), (aligned sb mb eb b) by (assumption || lia).
  ring.
Qed.

Lemma sub_int a b :
  Z.abs a < 2 ^ prec -> Z.abs b < 2 ^ prec -> Z.abs (a - b) < 2 ^ prec ->
  sub (of_int a) (of_int b) = of_int (a - b).
Proof.
  intros Ha Hb Hab.
  destruct (Z.eq_dec b 0) as [->|Hb0].
  { rewrite Z.sub_0_r. destruct a as [|p|p]; reflexivity. }
  destruct (Z.eq_dec a 0) as [->|Ha0].
  { cbn [Z.sub Z.add]. rewrite of_int_opp by assumption.
    destruct b as [|p|p]; try congruence; reflexivity. }
  destruct (of_int_finite a Ha0 Ha) as (sa & ma & ea & -> & Hma & Hea & _).
  destruct (of_int_finite b Hb0 Hb) as (sb & mb & eb & -> & Hmb & Heb & _).
  unfold sub, SFsub. cbn zeta.
  apply norm_int; [assumption|lia|].
  rewrite (aligned sa ma ea a), (aligned sb mb eb b) by (assumption || lia).
  ring.
Qed.

(** The order of two whole numbers that are not negative. *)
Lemma le_of_int a b :
  0 <= a <= b -> b < 2 ^ prec -> le (of_int a) (of_int b) = true.
Proof.
  intros Hab Hb. unfold le, SFleb.
  destruct (Z.eq_dec a 0) as [->|Ha0].
  { destruct b as [|p|p]; try lia; reflexivity. }
  destruct (of_int_finite a Ha0 ltac:(lia))
    as (sa & ma & ea & -> & _ & _ & -> & -> & Hma).
  destruct (of_int_finite b ltac:(lia) ltac:(lia))
    as (sb & mb & eb & -> & _ & _ & -> & -> & Hmb).
  rewrite !Z.abs_eq in * by lia.
  destruct (Z.ltb_spec a 0), (Z.ltb_spec b 0); try lia.
  cbn [SFcompare].
  pose proof (Zdigits2_mono a b ltac:(lia)) as Hd.
  destruct (Z.compare_spec (Zdigits2 a - prec) (Zdigits2 b - prec)) as [He|He|He];
    try reflexivity; [|lia].
  rewrite He in Hma.
  assert (Hm : Z.pos ma <= Z.pos mb).
  { rewrite Hma, Hmb. apply Z.mul_le_mono_nonneg_r; [|lia].
    apply Z.pow_nonneg. lia. }
  change (Pos.compare_cont Eq ma mb) with (Pos.compare ma mb).
  destruct (Pos.compare_spec ma mb); try reflexivity. lia.
Qed.

End SignFacts.

(** ** The uptime *)

Module UptimeFacts.
Import Num Binary Dyadic JS Fmt Spec Uptime.
Import FloatFacts ExactFacts OpFacts DivFacts QuotFacts StrFacts NumStrFacts.

(** One step of the decomposition: the whole quotient by [c], and what
    is left, both exact. *)
Lemma split_step N e c :
  0 <= N < 2 ^ prec -> emin <= e <= 0 -> 2 <= c < 2 ^ prec ->
  let t := N / 2 ^ (- e) in
  let N' := N - t / c * c * 2 ^ (- e) in
  floor (div (dyadic N e) (of_Z c)) = of_int (t / c)
  /\ sub (dyadic N e) (mul (of_int (t / c)) (of_Z c)) = dyadic N' e
  /\ 0 <= N' <= N
  /\ N' / 2 ^ (- e) = t mod c
  /\ 0 <= t / c <= N.
Proof.
  intros HN He Hc t N'.
  pose proof (pow2_pos (- e) ltac:(lia)) as HS.
  set (S := 2 ^ (- e)) in *.
  assert (Ht0 : 0 <= t) by (apply Z.div_pos; lia).
  assert (HtN : S * t <= N) by (apply Z.mul_div_le; lia).
  assert (Hq0 : 0 <= t / c) by (apply Z.div_pos; lia).
  assert (Hqt : c * (t / c) <= t) by (apply Z.mul_div_le; lia).
  assert (Hqc : t / c * c * S <= N).
  { apply Z.le_trans with (S * t); [|assumption].
    replace (t / c * c * S) with (S * (c * (t / c))) by ring.
    apply Z.mul_le_mono_nonneg_l; lia. }
  assert (Hqle : t / c * c <= N).
  { apply Z.le_trans with (t / c * c * S); [|assumption].
    rewrite <- (Z.mul_1_r (t / c * c)) at 1.
    apply Z.mul_le_mono_nonneg_l; [apply Z.mul_nonneg_nonneg|]; lia. }
  assert (HqN : t / c <= N).
  { apply Z.le_trans with (t / c * c); [|assumption].
    rewrite <- (Z.mul_1_r (t / c)) at 1.
    apply Z.mul_le_mono_nonneg_l; lia. }
  rewrite of_Z_of_int by lia.
  split; [|split; [|split; [|split]]].
  - rewrite floor_div by assumption. fold S. f_equal.
    unfold t. now rewrite Z.div_div by lia.
  - rewrite mul_int by lia.
    apply sub_dyadic; [assumption|assumption| |exact Hqc].
    apply Z.mul_nonneg_nonneg; lia.
  - unfold N'. split; [lia|].
    assert (0 <= t / c * c * S)
      by (repeat apply Z.mul_nonneg_nonneg; lia). lia.
  - unfold N'.
    replace (N - t / c * c * S) with (N + (- (t / c * c)) * S) by ring.
    rewrite Z.div_add by lia. fold t.
    rewrite (Z.mod_eq t c) by lia. ring.
  - lia.
Qed.

Lemma mod_mul_div t a b :
  0 < a -> 0 < b -> t mod (a * b) / a = t / a mod b.
Proof.
  intros Ha Hb. rewrite Z.rem_mul_r by lia.
  rewrite Z.mul_comm, Z.div_add by lia.
  rewrite Z.div_small by (apply Z.mod_pos_bound; lia). lia.
Qed.

Lemma mod_mod_mul t a b :
  0 < a -> 0 < b -> (t mod (a * b)) mod a = t mod a.
Proof.
  intros Ha Hb. rewrite Z.rem_mul_r by lia.
  rewrite Z.mul_comm, Z.mod_add by lia. apply Z.mod_mod. lia.
Qed.

Lemma pad2_of_int n : 0 <= n < 100 -> pad2 (of_int n) = two_digits n.
Proof.
  intros Hn. unfold pad2. rewrite to_string_of_int.
  - now apply padStart2_of_Z.
  - unfold prec. change (2 ^ 53) with 9007199254740992. lia.
Qed.

(** A valid number that is not negative and below [2 ^ 53]. *)
Lemma below_2_53 m e :
  valid (S754_finite false m e) = true ->
  numer (S754_finite false m e) < 2 ^ prec * denom (S754_finite false m e) ->
  S754_finite false m e = dyadic (Z.pos m) e
  /\ Z.pos m < 2 ^ prec /\ emin <= e <= 0
  /\ numer (S754_finite false m e) = Z.pos m
  /\ denom (S754_finite false m e) = 2 ^ (- e).
Proof.
  intros Hv Hlt. destruct (valid_dyadic m e Hv) as (Hd & Hf & _).
  cbn [numer denom signed] in *.
  destruct (Zdigits2_bounds (Z.pos m) ltac:(lia)) as [Hlo Hhi].
  assert (Hdig : Zdigits2 (Z.pos m) <= prec /\ emin <= e)
    by (unfold fexp in Hf; lia).
  assert (Hm : Z.pos m < 2 ^ prec).
  { eapply Z.lt_le_trans; [exact Hhi|]. apply pow2_le.
    pose proof (Zdigits2_nonneg (Z.pos m)). lia. }
  assert (He : e <= 0).
  { destruct (Z.le_gt_cases e 0) as [|Hgt]; [assumption|exfalso].
    assert (Hd53 : Zdigits2 (Z.pos m) = prec)
      by (unfold fexp, emin, emax, prec in *; lia).
    rewrite Hd53 in Hlo.
    rewrite Z.max_l, Z.max_r, Z.pow_0_r, Z.mul_1_r in Hlt by lia.
    assert (H2 : 2 ^ 1 <= 2 ^ e) by (apply pow2_le; lia).
    change (2 ^ 1) with 2 in H2.
    assert (H3 : 2 ^ prec = 2 ^ (prec - 1) * 2).
    { replace prec with (prec - 1 + 1) at 1 by lia.
      now rewrite pow2_split by (unfold prec; lia). }
    assert (H4 : 2 ^ (prec - 1) * 2 <= Z.pos m * 2 ^ e).
    { pose proof (pow2_pos (prec - 1) ltac:(unfold prec; lia)).
      apply Z.mul_le_mono_nonneg; lia. }
    lia. }
  repeat split; try lia; try assumption.
  - rewrite Z.max_r, Z.pow_0_r by lia. lia.
  - f_equal. lia.
Qed.

(** The uptime of a number of seconds below [2 ^ 53]. *)
Lemma fmtUptime_dyadic N e :
  0 <= N < 2 ^ prec -> emin <= e <= 0 ->
  ge (dyadic N e) zero = true ->
  fmtUptime (VNum (dyadic N e)) = uptime_text (N / 2 ^ (- e)).
Proof.
  intros HN He Hge. unfold fmtUptime. rewrite Hge. cbn [negb].
  unfold split_uptime. cbn [days hours mins secs].
  assert (H53 : 2 ^ prec = 9007199254740992) by reflexivity.
  set (S := 2 ^ (- e)). set (t := N / S).
  destruct (split_step N e 86400 HN He ltac:(lia)) as (Hd & Hx1 & HN1 & Ht1 & Hq1).
  fold S t in Hd, Hx1, HN1, Ht1, Hq1. rewrite Hd, Hx1.
  set (N1 := N - t / 86400 * 86400 * S) in *.
  destruct (split_step N1 e 3600 ltac:(lia) He ltac:(lia))
    as (Hh & Hx2 & HN2 & Ht2 & Hq2).
  fold S in Hh, Hx2, HN2, Ht2, Hq2. rewrite Ht1 in *. rewrite Hh, Hx2.
  set (N2 := N1 - t mod 86400 / 3600 * 3600 * S) in *.
  destruct (split_step N2 e 60 ltac:(lia) He ltac:(lia))
    as (Hm & Hx3 & HN3 & Ht3 & Hq3).
  fold S in Hm, Hx3, HN3, Ht3, Hq3. rewrite Ht2 in *. rewrite Hm, Hx3.
  set (N3 := N2 - t mod 86400 mod 3600 / 60 * 60 * S) in *.
  rewrite floor_dyadic by lia. fold S. rewrite Ht3.
  (* the four parts *)
  change 86400 with (3600 * 24) in *. rewrite mod_mod_mul, mod_mul_div by lia.
  change 3600 with (60 * 60) in *. rewrite mod_mod_mul, mod_mul_div by lia.
  change (60 * 60 * 24) with 86400 in *. change (60 * 60) with 3600 in *.
  pose proof (Z.mod_pos_bound (t / 3600) 24 ltac:(lia)).
  pose proof (Z.mod_pos_bound (t / 60) 60 ltac:(lia)).
  pose proof (Z.mod_pos_bound t 60 ltac:(lia)).
  rewrite gt_of_int by lia.
  rewrite !pad2_of_int by lia.
  unfold uptime_text. fold t.
  destruct (0 <? t / 86400); [|reflexivity].
  rewrite to_string_of_int by lia. reflexivity.
Qed.

(** X1. [fmtUptime] shows ["—"] for a value that is not a number and for
    a number that is not [>= 0] (a negative number, NaN).  For a number
    of seconds from zero up to, not including, [2 ^ 53], whole or not,
    it shows the whole seconds cut into days, hours, minutes and
    seconds: the hours, minutes and seconds with two digits each, and
    before them the days and ["d "] when there is at least one day. *)
Theorem fmtUptime_spec :
  (forall v, is_number v = false -> fmtUptime v = "—")
  /\ (forall x, ge x zero = false -> fmtUptime (VNum x) = "—")
  /\ (forall x, valid x = true -> is_finite x = true -> ge x zero = true ->
        numer x < 2 ^ 53 * denom x ->
        fmtUptime (VNum x) = uptime_text (numer x / denom x)).
Proof.
  split; [|split].
  - intros v Hv. destruct v; try reflexivity. discriminate.
  - intros x Hx. unfold fmtUptime. now rewrite Hx.
  - intros x Hv Hfin Hge Hlt.
    destruct (ge_zero_cases x Hge Hfin) as [[s ->]|(m & e & ->)].
    + destruct s; vm_compute; reflexivity.
    + destruct (below_2_53 m e Hv Hlt) as (Hd & Hm & He & -> & ->).
      rewrite Hd in Hge |- *. apply fmtUptime_dyadic; [lia|lia|assumption].
Qed.

Lemma fmtUptime_spec_witness :
  fmtUptime (VNum (of_Z 90061))
  = uptime_text (numer (of_Z 90061) / denom (of_Z 90061)).
Proof.
  apply (proj2 (proj2 fmtUptime_spec) (of_Z 90061));
    vm_compute; reflexivity.
Defined.




End UptimeFacts.

(** ** The tabs *)

Module TabFacts.
Import Tabs.

Lemma has_add_same c el : Dom.has_class c (Dom.class_add c el) = true.
Proof.
  unfold Dom.class_add. destruct (Dom.has_class c el) eqn:E; [exact E|].
  unfold Dom.has_class. cbn. apply bool_decide_eq_true_2.
  apply elem_of_app. right. constructor.
Qed.

Lemma has_add_other c c' el :
  c <> c' -> Dom.has_class c (Dom.class_add c' el) = Dom.has_class c el.
Proof.
  intros Hne. unfold Dom.class_add. destruct (Dom.has_class c' el); [reflexivity|].
  unfold Dom.has_class. cbn. apply bool_decide_ext.
  rewrite elem_of_app, list_elem_of_singleton. tauto.
Qed.

Lemma has_remove_same c el : Dom.has_class c (Dom.class_remove c el) = false.
Proof.
  unfold Dom.class_remove, Dom.has_class. cbn. apply bool_decide_eq_false_2.
  rewrite list_elem_of_filter. tauto.
Qed.

Lemma has_remove_other c c' el :
  c <> c' -> Dom.has_class c (Dom.class_remove c' el) = Dom.has_class c el.
Proof.
  intros Hne. unfold Dom.class_remove, Dom.has_class. cbn.
  apply bool_decide_ext. rewrite list_elem_of_filter. tauto.
Qed.

Lemma hidden_deactivate el :
  Dom.has_class "hidden" (deactivate el) = Dom.has_class "hidden" el.
Proof.
  unfold deactivate.
  now rewrite !has_add_other, has_remove_other by discriminate.
Qed.

Lemma hidden_activate el :
  Dom.has_class "hidden" (activate el) = Dom.has_class "hidden" el.
Proof.
  unfold activate.
  now rewrite has_add_other, !has_remove_other by discriminate.
Qed.

Lemma by_id_Some i doc k :
  by_id i doc = Some k ->
  exists n, doc !! k = Some n /\ id n = Some i
            /\ forall j m, doc !! j = Some m -> (j < k)%nat -> id m <> Some i.
Proof.
  unfold by_id. destruct (list_find _ doc) as [[k' n]|] eqn:E; [|discriminate].
  intros [= <-]. apply list_find_Some in E as (Hk & Hid & Hfirst). eauto.
Qed.

Lemma by_id_cons i n doc :
  by_id i (n :: doc)
  = if decide (id n = Some i) then Some 0%nat else S <$> by_id i doc.
Proof.
  unfold by_id. cbn. destruct (decide (id n = Some i)); [reflexivity|].
  now destruct (list_find _ doc) as [[k m]|].
Qed.

Lemma by_id_fmap (f : node -> node) i doc :
  (forall n, id (f n) = id n) -> by_id i (f <$> doc) = by_id i doc.
Proof.
  intros Hf. induction doc as [|n doc IH]; [reflexivity|].
  rewrite fmap_cons, !by_id_cons, Hf, IH. reflexivity.
Qed.

Lemma id_hide n : id (hide n) = id n.
Proof. unfold hide. now destruct (content n). Qed.

Lemma click_lookup doc i b k n :
  doc !! i = Some b -> tab_button b = true -> doc !! k = Some n ->
  click i doc !! k = Some (after doc i b k n).
Proof.
  intros Hb Htab Hn. unfold click, after. rewrite Hb, Htab. cbn zeta.
  unfold show_target. rewrite by_id_fmap by apply id_hide.
  assert (H2 : (match by_id (target_id b) doc with
                | Some k' => alter (with_elem (Dom.class_remove "hidden")) k'
                               (hide <$> doc)
                | None => hide <$> doc
                end) !! k
               = Some (if bool_decide (by_id (target_id b) doc = Some k)
                       then with_elem (Dom.class_remove "hidden") (hide n)
                       else hide n)).
  { destruct (by_id (target_id b) doc) as [k'|].
    - destruct (decide (k' = k)) as [->|Hne].
      + rewrite bool_decide_eq_true_2 by reflexivity.
        now rewrite list_lookup_alter_eq, list_lookup_fmap, Hn.
      + rewrite bool_decide_eq_false_2 by congruence.
        now rewrite list_lookup_alter_ne, list_lookup_fmap, Hn by assumption.
    - rewrite bool_decide_eq_false_2 by discriminate.
      now rewrite list_lookup_fmap, Hn. }
  destruct (decide (k = i)) as [->|Hne].
  - rewrite bool_decide_eq_true_2 by reflexivity.
    now rewrite list_lookup_alter_eq, list_lookup_fmap, H2.
  - rewrite bool_decide_eq_false_2 by assumption.
    now rewrite list_lookup_alter_ne, list_lookup_fmap, H2 by congruence.
Qed.

Lemma click_length i doc : length (click i doc) = length doc.
Proof.
  unfold click. destruct (doc !! i) as [b|]; [|reflexivity].
  destruct (tab_button b); [|reflexivity]. cbn zeta.
  rewrite length_alter, length_fmap. unfold show_target.
  destruct (by_id _ _); now rewrite ?length_alter, length_fmap.
Qed.

(** X2. After a click on a tab button, a content container is shown
    exactly when it is the first node that has the id
    [content-<data-tab>] of the button; every other container is
    hidden, so no two containers are shown, and none is when no node
    has that id. *)
Theorem click_shows_target_only doc i b :
  doc !! i = Some b -> tab_button b = true ->
  (forall k n, doc !! k = Some n -> content n = true ->
     exists n', click i doc !! k = Some n'
       /\ (shown n' = true <-> by_id (target_id b) doc = Some k))
  /\ (forall k1 k2 n1 n2,
        click i doc !! k1 = Some n1 -> click i doc !! k2 = Some n2 ->
        content n1 = true -> content n2 = true ->
        shown n1 = true -> shown n2 = true -> k1 = k2)
  /\ (by_id (target_id b) doc = None ->
      forall k n, click i doc !! k = Some n -> content n = true ->
        shown n = false).
Proof.
  intros Hb Htab.
  assert (Hshown : forall k n, content n = true ->
            (shown (after doc i b k n) = true
             <-> by_id (target_id b) doc = Some k)).
  { intros k n Hc. unfold after, shown, dim_button, hide. rewrite Hc.
    assert (Hact : forall m, Dom.has_class "hidden"
                     (elem (if bool_decide (k = i) then with_elem activate m
                            else m))
                   = Dom.has_class "hidden" (elem m)).
    { intros m. destruct (bool_decide (k = i)); [apply hidden_activate|reflexivity]. }
    rewrite Hact.
    destruct (bool_decide (by_id (target_id b) doc = Some k)) eqn:E.
    - apply bool_decide_eq_true_1 in E. cbn [with_elem tab_button elem].
      destruct (tab_button n); cbn [with_elem elem];
        rewrite ?hidden_deactivate, has_remove_same; tauto.
    - apply bool_decide_eq_false_1 in E. cbn [with_elem tab_button elem].
      destruct (tab_button n); cbn [with_elem elem];
        rewrite ?hidden_deactivate, has_add_same; cbn; split;
        [discriminate|contradiction|discriminate|contradiction]. }
  assert (Hcontent : forall k n, content (after doc i b k n) = content n).
  { intros k n. unfold after, content, dim_button, hide, with_elem.
    repeat (match goal with |- context [if ?c then _ else _] => destruct c end);
      reflexivity. }
  assert (Hinv : forall k n', click i doc !! k = Some n' ->
            exists n, doc !! k = Some n /\ n' = after doc i b k n).
  { intros k n' Hk. destruct (doc !! k) as [n|] eqn:Hn.
    - rewrite (click_lookup doc i b k n Hb Htab Hn) in Hk.
      injection Hk as <-. eauto.
    - exfalso. apply lookup_ge_None in Hn.
      apply lookup_lt_Some in Hk. rewrite click_length in Hk. lia. }
  split; [|split].
  - intros k n Hn Hc. exists (after doc i b k n). split.
    + now apply click_lookup.
    + now apply Hshown.
  - intros k1 k2 n1 n2 H1 H2 Hc1 Hc2 Hs1 Hs2.
    destruct (Hinv k1 n1 H1) as (m1 & Hm1 & ->).
    destruct (Hinv k2 n2 H2) as (m2 & Hm2 & ->).
    rewrite Hcontent in Hc1, Hc2.
    apply Hshown in Hs1; [|assumption]. apply Hshown in Hs2; [|assumption].
    congruence.
  - intros Hnone k n' Hk Hc.
    destruct (Hinv k n' Hk) as (m & Hm & ->). rewrite Hcontent in Hc.
    destruct (shown (after doc i b k m)) eqn:Hs; [|reflexivity].
    apply Hshown in Hs; [|assumption]. congruence.
Qed.


Lemma click_lookup_inv doc i b k n' :
  doc !! i = Some b -> tab_button b = true -> click i doc !! k = Some n' ->
  exists n, doc !! k = Some n /\ n' = after doc i b k n.
Proof.
  intros Hb Htab Hk. destruct (doc !! k) as [n|] eqn:Hn.
  - rewrite (click_lookup doc i b k n Hb Htab Hn) in Hk.
    injection Hk as <-. eauto.
  - exfalso. apply lookup_ge_None in Hn.
    apply lookup_lt_Some in Hk. rewrite click_length in Hk. lia.
Qed.

Lemma hide_attrs n :
  id (hide n) = id n /\ tab_button (hide n) = tab_button n
  /\ data_tab (hide n) = data_tab n.
Proof. unfold hide. now destruct (content n). Qed.

Lemma dim_attrs n :
  id (dim_button n) = id n /\ tab_button (dim_button n) = tab_button n
  /\ data_tab (dim_button n) = data_tab n.
Proof. unfold dim_button. destruct (tab_button n) eqn:E; cbn; auto. Qed.

Lemma after_attrs doc i b k n :
  id (after doc i b k n) = id n
  /\ tab_button (after doc i b k n) = tab_button n
  /\ data_tab (after doc i b k n) = data_tab n.
Proof.
  unfold after. cbn zeta.
  set (n2 := if bool_decide (by_id _ _ = _) then _ else hide n).
  assert (H2 : id n2 = id n /\ tab_button n2 = tab_button n
                /\ data_tab n2 = data_tab n).
  { subst n2. destruct (hide_attrs n) as (? & ? & ?).
    destruct (bool_decide _); cbn; auto. }
  destruct H2 as (Hi & Ht & Hd). destruct (dim_attrs n2) as (Hi' & Ht' & Hd').
  destruct (bool_decide (k = i)); cbn; rewrite ?Hi', ?Ht', ?Hd'; auto.
Qed.

Lemma deactivate_has el :
  Dom.has_class "border-blue-500" (deactivate el) = false
  /\ Dom.has_class "border-transparent" (deactivate el) = true
  /\ Dom.has_class "hover:border-gray" (deactivate el) = true.
Proof.
  unfold deactivate. split; [|split].
  - rewrite has_add_other by discriminate. rewrite has_add_other by discriminate.
    apply has_remove_same.
  - rewrite has_add_other by discriminate. apply has_add_same.
  - apply has_add_same.
Qed.

Lemma activate_has el :
  Dom.has_class "border-blue-500" (activate el) = true
  /\ Dom.has_class "border-transparent" (activate el) = false
  /\ Dom.has_class "hover:border-gray" (activate el) = false.
Proof.
  unfold activate. split; [|split].
  - apply has_add_same.
  - rewrite has_add_other by discriminate.
    rewrite has_remove_other by discriminate. apply has_remove_same.
  - rewrite has_add_other by discriminate. apply has_remove_same.
Qed.

(** X3. After a click on a tab button, that button is the one tab button
    with the class [border-blue-500], and the one without the classes
    [border-transparent] and [hover:border-gray]. *)
Theorem click_activates_clicked_only doc i b :
  doc !! i = Some b -> tab_button b = true ->
  forall k n, click i doc !! k = Some n -> tab_button n = true ->
    (active n = true <-> k = i)
    /\ (Dom.has_class "border-transparent" (elem n) = true <-> k <> i)
    /\ (Dom.has_class "hover:border-gray" (elem n) = true <-> k <> i).
Proof.
  intros Hb Htab k n' Hk Hn'.
  destruct (click_lookup_inv doc i b k n' Hb Htab Hk) as (n & Hn & ->).
  destruct (after_attrs doc i b k n) as (_ & Ht & _). rewrite Ht in Hn'.
  unfold active, after, dim_button.
  set (n2 := if bool_decide _ then _ else hide n).
  assert (Ht2 : tab_button n2 = true).
  { subst n2. destruct (hide_attrs n) as (_ & Hh & _).
    destruct (bool_decide _); cbn; congruence. }
  rewrite Ht2. case_bool_decide as Hki; cbn [with_elem elem].
  - destruct (activate_has (deactivate (elem n2))) as (-> & -> & ->).
    repeat split; intros; try discriminate; congruence.
  - destruct (deactivate_has (elem n2)) as (-> & -> & ->).
    repeat split; intros; try discriminate; congruence.
Qed.

(** *** A second click changes nothing *)

Lemma set_classes_same el : Dom.set_classes (Dom.classes el) el = el.
Proof. now destruct el. Qed.

Lemma class_add_present c el :
  Dom.has_class c el = true -> Dom.class_add c el = el.
Proof. intros H. unfold Dom.class_add. now rewrite H. Qed.

Lemma filter_absent (c : string) (l : list string) :
  c ∉ l -> filter (fun c' => c' <> c) l = l.
Proof.
  induction l as [|x l IH]; intros Hc; [reflexivity|].
  apply not_elem_of_cons in Hc as [Hx Hl].
  rewrite filter_cons_True by congruence. now rewrite IH.
Qed.

Lemma class_remove_absent c el :
  Dom.has_class c el = false -> Dom.class_remove c el = el.
Proof.
  intros H. unfold Dom.class_remove. unfold Dom.has_class in H.
  apply bool_decide_eq_false_1 in H.
  rewrite filter_absent by assumption. apply set_classes_same.
Qed.

Lemma class_remove_add c el :
  Dom.has_class c el = false -> Dom.class_remove c (Dom.class_add c el) = el.
Proof.
  intros H. unfold Dom.class_add. rewrite H. unfold Dom.class_remove.
  unfold Dom.has_class in H. apply bool_decide_eq_false_1 in H. cbn.
  rewrite filter_app, filter_absent by assumption.
  rewrite filter_cons_False by (intros Hn; now apply Hn).
  rewrite filter_nil, app_nil_r. now destruct el.
Qed.

Lemma remove_add_comm c c' el :
  c <> c' ->
  Dom.class_remove c (Dom.class_add c' el)
  = Dom.class_add c' (Dom.class_remove c el).
Proof.
  intros Hne. unfold Dom.class_add at 2.
  rewrite has_remove_other by congruence.
  unfold Dom.class_add. destruct (Dom.has_class c' el); [reflexivity|].
  unfold Dom.class_remove. cbn.
  rewrite filter_app, filter_cons_True by congruence.
  now rewrite filter_nil.
Qed.

Lemma deactivate_twice el : deactivate (deactivate el) = deactivate el.
Proof.
  unfold deactivate at 1.
  rewrite class_remove_absent.
  - rewrite (class_add_present "border-transparent").
    + apply class_add_present. unfold deactivate. apply has_add_same.
    + unfold deactivate. rewrite has_add_other by discriminate.
      apply has_add_same.
  - unfold deactivate. rewrite !has_add_other by discriminate.
    apply has_remove_same.
Qed.

Lemma activate_twice el : activate (activate el) = activate el.
Proof.
  unfold activate at 1.
  rewrite (class_remove_absent "border-transparent").
  - rewrite class_remove_absent.
    + apply class_add_present. unfold activate. apply has_add_same.
    + unfold activate. rewrite has_add_other by discriminate.
      apply has_remove_same.
  - unfold activate. rewrite has_add_other, has_remove_other by discriminate.
    apply has_remove_same.
Qed.

Lemma activate_deactivate_twice el :
  activate (deactivate (activate (deactivate el))) = activate (deactivate el).
Proof.
  set (Y := Dom.class_remove "hover:border-gray"
              (Dom.class_remove "border-transparent" (deactivate el))).
  assert (HB : Dom.has_class "border-blue-500" Y = false).
  { subst Y. unfold deactivate.
    rewrite !has_remove_other, !has_add_other by discriminate.
    apply has_remove_same. }
  assert (HT : Dom.has_class "border-transparent" Y = false).
  { subst Y. rewrite has_remove_other by discriminate. apply has_remove_same. }
  assert (HH : Dom.has_class "hover:border-gray" Y = false).
  { subst Y. apply has_remove_same. }
  change (activate (deactivate el)) with (Dom.class_add "border-blue-500" Y).
  unfold deactivate at 1. rewrite class_remove_add by assumption.
  unfold activate.
  rewrite remove_add_comm by discriminate.
  rewrite (class_remove_add "border-transparent" Y) by assumption.
  rewrite (class_remove_add "hover:border-gray" Y) by assumption. reflexivity.
Qed.


Lemma after_stages doc i b k n :
  after doc i b k n
  = with_elem (fun el =>
      stage_border (tab_button n) (bool_decide (k = i))
        (stage_hidden (content n)
           (bool_decide (by_id (target_id b) doc = Some k)) el)) n.
Proof.
  unfold after, hide, dim_button, stage_border, stage_hidden.
  destruct n as [i0 tb dt el]. cbn [tab_button].
  destruct (content {| id := i0; tab_button := tb; data_tab := dt; elem := el |});
    destruct (bool_decide (by_id _ _ = _)); destruct tb;
    destruct (bool_decide (k = i)); reflexivity.
Qed.

Lemma hidden_stage_border tb ki el :
  Dom.has_class "hidden" (stage_border tb ki el) = Dom.has_class "hidden" el.
Proof.
  unfold stage_border. destruct tb, ki;
    now rewrite ?hidden_activate, ?hidden_deactivate.
Qed.

Lemma stage_border_twice tb ki el :
  stage_border tb ki (stage_border tb ki el) = stage_border tb ki el.
Proof.
  unfold stage_border. destruct tb, ki.
  - apply activate_deactivate_twice.
  - apply deactivate_twice.
  - apply activate_twice.
  - reflexivity.
Qed.

Lemma stage_hidden_again c tg tb ki el :
  stage_hidden c tg (stage_border tb ki (stage_hidden c tg el))
  = stage_border tb ki (stage_hidden c tg el).
Proof.
  set (M := stage_border tb ki (stage_hidden c tg el)).
  assert (HM : Dom.has_class "hidden" M
               = Dom.has_class "hidden" (stage_hidden c tg el))
    by apply hidden_stage_border.
  unfold stage_hidden in HM |- *. destruct c, tg.
  - rewrite has_remove_same in HM. now apply class_remove_add.
  - rewrite has_add_same in HM. now apply class_add_present.
  - rewrite has_remove_same in HM. now apply class_remove_absent.
  - reflexivity.
Qed.

Lemma by_id_same_ids i (l l' : list node) :
  length l = length l' ->
  (forall k n n', l !! k = Some n -> l' !! k = Some n' -> id n' = id n) ->
  by_id i l' = by_id i l.
Proof.
  revert l'. induction l as [|n l IH]; intros [|n' l'] Hlen Hid;
    try discriminate; [reflexivity|].
  rewrite !by_id_cons. rewrite (Hid 0%nat n n' eq_refl eq_refl).
  rewrite (IH l'); [reflexivity|now injection Hlen|].
  intros k m m' Hm Hm'. exact (Hid (S k) m m' Hm Hm').
Qed.

Lemma click_by_id doc i j : by_id j (click i doc) = by_id j doc.
Proof.
  destruct (doc !! i) as [b|] eqn:Hb;
    [destruct (tab_button b) eqn:Htab|];
    try (unfold click; now rewrite Hb, ?Htab).
  apply by_id_same_ids; [symmetry; apply click_length|].
  intros k n n' Hn Hn'. rewrite (click_lookup doc i b k n Hb Htab Hn) in Hn'.
  injection Hn' as <-. apply after_attrs.
Qed.

(** X4. A click on the tab button that was clicked last changes
    nothing. *)
Theorem click_twice doc i : click i (click i doc) = click i doc.
Proof.
  destruct (doc !! i) as [b|] eqn:Hb;
    [destruct (tab_button b) eqn:Htab|];
    try (unfold click; now rewrite Hb, ?Htab, ?Hb, ?Htab).
  apply list_eq. intros k.
  destruct (doc !! k) as [n|] eqn:Hn.
  - pose proof (click_lookup doc i b i b Hb Htab Hb) as Hb'.
    destruct (after_attrs doc i b i b) as (_ & Htab' & Hdt').
    rewrite Htab in Htab'.
    rewrite (click_lookup (click i doc) i _ k _ Hb' Htab'
               (click_lookup doc i b k n Hb Htab Hn)).
    rewrite (click_lookup doc i b k n Hb Htab Hn). f_equal.
    assert (Htgt : target_id (after doc i b i b) = target_id b)
      by (unfold target_id; now rewrite Hdt').
    rewrite after_stages, Htgt, click_by_id.
    destruct (after_attrs doc i b k n) as (Hid & Ht & Hd).
    assert (Hc : content (after doc i b k n) = content n)
      by (unfold content; now rewrite Hid).
    rewrite Ht, Hc. rewrite (after_stages doc i b k n).
    unfold with_elem. cbn [id tab_button data_tab elem]. f_equal.
    now rewrite stage_hidden_again, stage_border_twice.
  - assert (Hk : (length doc <= k)%nat) by now apply lookup_ge_None.
    rewrite (proj2 (lookup_ge_None _ _)) by (rewrite !click_length; lia).
    symmetry. apply lookup_ge_None. rewrite click_length. lia.
Qed.

Lemma rest_add c el : rest (Dom.class_add c el) = rest el.
Proof. unfold Dom.class_add. now destruct (Dom.has_class c el). Qed.

Lemma rest_remove c el : rest (Dom.class_remove c el) = rest el.
Proof. reflexivity. Qed.

Lemma rest_stages tb ki c tg el :
  rest (stage_border tb ki (stage_hidden c tg el)) = rest el.
Proof.
  unfold stage_border, stage_hidden, activate, deactivate.
  destruct tb, ki, c, tg;
    repeat first [rewrite rest_add | rewrite rest_remove]; reflexivity.
Qed.

(** X5. A click changes classes only, and only those of the content
    containers and the tab buttons: every node keeps its id and its
    [data-tab], and a node that is neither a container nor a tab
    button is as it was. *)
Theorem click_frame doc i k n :
  click i doc !! k = Some n ->
  exists n0, doc !! k = Some n0
    /\ id n = id n0 /\ tab_button n = tab_button n0
    /\ data_tab n = data_tab n0
    /\ Dom.textContent (elem n) = Dom.textContent (elem n0)
    /\ Dom.disabled (elem n) = Dom.disabled (elem n0)
    /\ Dom.display (elem n) = Dom.display (elem n0)
    /\ Dom.value (elem n) = Dom.value (elem n0)
    /\ (content n0 = false -> tab_button n0 = false -> n = n0).
Proof.
  intros Hk.
  destruct (doc !! i) as [b|] eqn:Hb;
    [destruct (tab_button b) eqn:Htab|];
    [|unfold click in Hk; rewrite Hb, ?Htab in Hk; exists n;
      repeat split; auto..].
  destruct (click_lookup_inv doc i b k n Hb Htab Hk) as (n0 & Hn0 & ->).
  exists n0. split; [assumption|].
  destruct (after_attrs doc i b k n0) as (Hid & Ht & Hd).
  repeat split; try assumption.
  1-4: rewrite after_stages; cbn [with_elem elem];
    pose proof (rest_stages (tab_button n0) (bool_decide (k = i)) (content n0)
                  (bool_decide (by_id (target_id b) doc = Some k)) (elem n0))
      as Hrest; unfold rest in Hrest; congruence.
  intros Hc Hnt. rewrite after_stages, Hc, Hnt.
  assert (Hki : bool_decide (k = i) = false).
  { apply bool_decide_eq_false_2. intros ->. congruence. }
  assert (Htg : bool_decide (by_id (target_id b) doc = Some k) = false).
  { apply bool_decide_eq_false_2. intros Htg.
    destruct (by_id_Some _ _ _ Htg) as (m & Hm & Hidm & _).
    assert (m = n0) as -> by congruence.
    unfold content in Hc. rewrite Hidm in Hc. unfold target_id in Hc.
    now rewrite SubmitFacts.prefix_app in Hc. }
  rewrite Hki, Htg. unfold stage_border, stage_hidden, with_elem.
  now destruct n0.
Qed.


Lemma click_shows_target_only_witness :
  exists n', click 2 Examples.tabs !! 4%nat = Some n'
    /\ (shown n' = true
        <-> by_id (target_id (Examples.tab "network"
                                ["border-transparent"; "hover:border-gray"]))
              Examples.tabs = Some 4%nat).
Proof.
  apply (proj1 (click_shows_target_only Examples.tabs 2
                  (Examples.tab "network"
                     ["border-transparent"; "hover:border-gray"])
                  eq_refl eq_refl)
           4%nat (Examples.pane "network" ["hidden"]));
    reflexivity.
Defined.


Lemma click_activates_clicked_only_witness :
  (active (Examples.tab "general" ["border-transparent"; "hover:border-gray"])
   = true <-> 1%nat = 2%nat)
  /\ (Dom.has_class "border-transparent"
        (elem (Examples.tab "general"
                 ["border-transparent"; "hover:border-gray"])) = true
      <-> 1%nat <> 2%nat)
  /\ (Dom.has_class "hover:border-gray"
        (elem (Examples.tab "general"
                 ["border-transparent"; "hover:border-gray"])) = true
      <-> 1%nat <> 2%nat).
Proof.
  apply (click_activates_clicked_only Examples.tabs 2
           (Examples.tab "network" ["border-transparent"; "hover:border-gray"])
           eq_refl eq_refl 1%nat
           (Examples.tab "general" ["border-transparent"; "hover:border-gray"]));
    vm_compute; reflexivity.
Defined.


Lemma click_frame_witness :
  exists n0, Examples.tabs !! 0%nat = Some n0
    /\ id Examples.heading = id n0
    /\ tab_button Examples.heading = tab_button n0
    /\ data_tab Examples.heading = data_tab n0
    /\ Dom.textContent (elem Examples.heading) = Dom.textContent (elem n0)
    /\ Dom.disabled (elem Examples.heading) = Dom.disabled (elem n0)
    /\ Dom.display (elem Examples.heading) = Dom.display (elem n0)
    /\ Dom.value (elem Examples.heading) = Dom.value (elem n0)
    /\ (content n0 = false -> tab_button n0 = false -> Examples.heading = n0).
Proof.
  apply (click_frame Examples.tabs 2 0 Examples.heading).
  vm_compute. reflexivity.
Defined.

End TabFacts.

(** ** The CPU bar *)

Module CpuFacts.
Import Num Cpu.

Lemma update_length pct w b b' :
  cpuBar w = Some b -> cpuBar (updateCpuBar pct w) = Some b' ->
  length (segs b') = length (segs b) /\ data_init b' = data_init b.
Proof.
  intros Hb. unfold updateCpuBar. rewrite Hb. cbn. intros [= <-]. cbn.
  now rewrite length_imap.
Qed.

Lemma update_bar_none pct w :
  cpuBar w = None -> updateCpuBar pct w = w.
Proof. intros H. unfold updateCpuBar. now rewrite H. Qed.

Lemma build_built n w : built (buildCpuSegments n w) = true.
Proof.
  unfold buildCpuSegments, built. destruct (cpuBar w) as [b|] eqn:Hb.
  - destruct (initialised b) eqn:Hi; cbn; [now rewrite Hb|reflexivity].
  - now rewrite Hb.
Qed.

Lemma build_noop n w : built w = true -> buildCpuSegments n w = w.
Proof.
  unfold built, buildCpuSegments. destruct (cpuBar w) as [b|]; [|reflexivity].
  now intros ->.
Qed.

Lemma raf_built last st : built (snd (raf last st)) = built (snd st).
Proof.
  unfold raf, built, updateCpuBar. cbn [snd].
  destruct (cpuBar (snd st)) as [b|] eqn:Hb; cbn; [reflexivity|].
  now rewrite Hb.
Qed.

Lemma raf_count last st : count (snd (raf last st)) = count (snd st).
Proof.
  unfold raf, count, updateCpuBar. cbn [snd].
  destruct (cpuBar (snd st)) as [b|] eqn:Hb; cbn; [apply length_imap|].
  now rewrite Hb.
Qed.

Lemma frames_built lasts st :
  built (snd (frames lasts st)) = built (snd st)
  /\ count (snd (frames lasts st)) = count (snd st).
Proof.
  revert st. induction lasts as [|l lasts IH]; intros st; [easy|].
  cbn [frames fold_left]. fold (frames lasts (raf l st)).
  destruct (IH (raf l st)) as [-> ->]. now rewrite raf_built, raf_count.
Qed.

(** X6. The segments are built once: [buildCpuSegments(n)] adds [n]
    segments to a bar whose [data-init] is not set, and sets it; on a
    bar whose [data-init] is set, and when there is no bar, it does
    nothing.  Hence after the first call no later call, and no run of
    the animation in between, changes the number of segments. *)
Theorem segments_built_once n w :
  (forall b, cpuBar w = Some b -> initialised b = false ->
     count (buildCpuSegments n w) = (length (segs b) + n)%nat)
  /\ (built w = true -> buildCpuSegments n w = w)
  /\ (forall m lasts x,
        let st := frames lasts (x, buildCpuSegments n w) in
        buildCpuSegments m (snd st) = snd st
        /\ count (snd st) = count (buildCpuSegments n w)).
Proof.
  split; [|split].
  - intros b Hb Hi. unfold count, buildCpuSegments. rewrite Hb, Hi. cbn.
    now rewrite length_app, length_replicate.
  - apply build_noop.
  - intros m lasts x st. subst st.
    destruct (frames_built lasts (x, buildCpuSegments n w)) as [Hb Hc].
    cbn [snd] in Hb, Hc. split; [|exact Hc].
    apply build_noop. rewrite Hb. apply build_built.
Qed.

(** *** A sample that is not finite *)

Lemma fifth_value : fifth = S754_finite false 7205759403792794 (-55).
Proof. vm_compute. reflexivity. Qed.

Ltac fifth :=
  let c := fresh "c" in
  pose proof fifth_value as T; set (c := fifth) in *; clearbody c; subst c.

Lemma step_nan last a :
  is_nan a = true -> is_nan (add a (mul (sub last a) fifth)) = true.
Proof. destruct a; try discriminate. reflexivity. Qed.

Lemma step_infinite last a :
  is_infinite a = true -> is_nan (add a (mul (sub last a) fifth)) = true.
Proof.
  intros Ha. fifth. destruct a as [| s | |]; try discriminate.
  destruct last as [s'|s'| |s' m e], s; try destruct s'; reflexivity.
Qed.

Lemma step_to_infinite last a :
  is_infinite last = true -> is_finite a = true ->
  add a (mul (sub last a) fifth) = last.
Proof.
  intros Hl Ha. fifth. destruct last as [| s | |]; try discriminate.
  destruct a as [s'|s'| |s' m e]; try discriminate; destruct s; reflexivity.
Qed.

Lemma clamp_nan : math_max JS.zero (math_min (of_Z 100) S754_nan) = S754_nan.
Proof. reflexivity. Qed.

Lemma gt_nan x : gt S754_nan x = false.
Proof. unfold gt, SFltb, SFcompare. now destruct x. Qed.

Lemma imap_const {A B} (f : nat -> A -> B) (c : B) (l : list A) :
  (forall i x, f i x = c) -> Forall (fun y => y = c) (imap f l).
Proof.
  intros Hf. revert f Hf. induction l as [|x l IH]; intros f Hf; cbn.
  - constructor.
  - constructor; [apply Hf|]. apply IH. intros i y. apply Hf.
Qed.

Lemma update_nan_dead w : dead (updateCpuBar S754_nan w).
Proof.
  unfold dead, updateCpuBar. destruct (cpuBar w) as [b|] eqn:Hb; cbn.
  - split.
    + intros b' [= <-]. cbn. apply imap_const. intros i x.
      unfold seg_class.
      replace (round (mul (div S754_nan (of_Z 100))
                        (of_Z (Z.of_nat (length (segs b))))))
        with S754_nan by reflexivity.
      now rewrite gt_nan.
    + intros t Ht _. destruct (cpuPct w); cbn in Ht; [|discriminate].
      now injection Ht as <-.
  - rewrite Hb. split; [discriminate|]. intros t _ Hne. contradiction.
Qed.

Lemma raf_nan last st :
  is_nan (fst st) = true \/ is_infinite (fst st) = true ->
  is_nan (fst (raf last st)) = true /\ dead (snd (raf last st)).
Proof.
  intros Hst. unfold raf. cbn [fst snd].
  assert (Hn : is_nan (add (fst st) (mul (sub last (fst st)) fifth)) = true).
  { destruct Hst; [now apply step_nan|now apply step_infinite]. }
  split; [exact Hn|].
  destruct (add (fst st) (mul (sub last (fst st)) fifth)); try discriminate.
  rewrite clamp_nan. apply update_nan_dead.
Qed.

(** X7. Once the animated value is NaN or infinite, every later run of the
    animation leaves it NaN, whatever the samples that arrive: the bar
    shows no lit segment and the label reads ["NaN%"].  And one sample
    that is infinite makes a finite animated value infinite in one
    run. *)
Theorem animation_never_recovers :
  (forall last lasts st,
     is_nan (fst st) = true \/ is_infinite (fst st) = true ->
     let st' := frames (last :: lasts) st in
     is_nan (fst st') = true /\ dead (snd st'))
  /\ (forall last st,
        is_infinite last = true -> is_finite (fst st) = true ->
        fst (raf last st) = last).
Proof.
  split.
  - intros last lasts. revert last.
    induction lasts as [|l lasts IH]; intros last st Hst.
    + now apply raf_nan.
    + cbn zeta. change (frames (last :: l :: lasts) st)
        with (frames (l :: lasts) (raf last st)).
      apply IH. left. now apply raf_nan.
  - intros last st Hl Hf. unfold raf. cbn [fst].
    now apply step_to_infinite.
Qed.


Lemma segments_built_once_witness :
  count (buildCpuSegments 40 Examples.gauge) = (0 + 40)%nat.
Proof.
  apply (proj1 (segments_built_once 40 Examples.gauge)
           {| data_init := None; segs := [] |});
    reflexivity.
Defined.


Lemma animation_never_recovers_witness :
  is_nan (fst (frames [of_Z 50; of_Z 60]
                 (S754_infinity false, buildCpuSegments 40 Examples.gauge)))
  = true
  /\ dead (snd (frames [of_Z 50; of_Z 60]
                  (S754_infinity false, buildCpuSegments 40 Examples.gauge))).
Proof.
  apply (proj1 animation_never_recovers (of_Z 50) [of_Z 60]
           (S754_infinity false, buildCpuSegments 40 Examples.gauge)).
  right. reflexivity.
Defined.

End CpuFacts.

(** ** Connectivity and the log viewer *)

Module NetFacts.
Import JS Page Env Spec Net Frame.

Lemma ping_never_throws r p : fst (pingInternet r p) = Ok tt.
Proof.
  unfold pingInternet, try_catch.
  destruct r as [e|status [e|j]]; cbn; try reflexivity.
  unfold bind, gets, lift, modify, ret.
  destruct (_ && _); [|reflexivity].
  destruct (get j "online") as [v|e]; [|reflexivity].
  now destruct (to_boolean v).
Qed.

(** X8. A connectivity check never throws, and it leaves the page as it
    is when the request is rejected, when the answer is not JSON or is
    [null], and when the dot or the text of the indicator is not in
    the document. *)
Theorem ping_failure_changes_nothing r p :
  fst (pingInternet r p) = Ok tt
  /\ (answered r = None -> run (pingInternet r) p = p)
  /\ (dom p !! "genNetDot" = None \/ dom p !! "genNetTxt" = None ->
      run (pingInternet r) p = p).
Proof.
  split; [apply ping_never_throws|]. split.
  - intros Ha. unfold run, pingInternet, try_catch.
    destruct r as [e|status [e|j]]; try reflexivity.
    cbn in Ha. unfold bind, gets, lift, modify, ret.
    destruct (_ && _); [|reflexivity].
    destruct j; try discriminate; reflexivity.
  - intros Hmiss. unfold run, pingInternet, try_catch.
    destruct r as [e|status [e|j]]; try reflexivity.
    unfold bind, gets.
    assert (Hb : bool_decide (is_Some (dom p !! "genNetDot"))
                 && bool_decide (is_Some (dom p !! "genNetTxt")) = false).
    { destruct Hmiss as [-> | ->]; rewrite ?andb_false_r;
        [|reflexivity]. apply andb_false_iff. left.
      apply bool_decide_eq_false_2. now intros [? ?]. }
    now rewrite Hb.
Qed.

(** X9. With the indicator in the document and an answer that has a body,
    whatever its status: the text is ["Online"] and the dot has the
    classes [dot green-blink] when the body's [online] holds, the text
    is ["Offline"] and the dot has the classes [dot red] when it does
    not; no other element changes, nor does the cache or the lock
    state. *)
Theorem ping_shows_online r j p :
  answered r = Some j ->
  is_Some (dom p !! "genNetDot") -> is_Some (dom p !! "genNetTxt") ->
  let p' := run (pingInternet r) p in
  let on := to_boolean (get_safe j "online") in
  text_of p' "genNetTxt" = Some (if on then "Online" else "Offline")
  /\ classes_of p' "genNetDot" = Some ["dot"; if on then "green-blink" else "red"]
  /\ (forall k, k <> "genNetDot" -> k <> "genNetTxt" -> dom p' !! k = dom p !! k)
  /\ meta p' = meta p /\ unlocked p' = unlocked p
  /\ win_unlocked p' = win_unlocked p.
Proof.
  intros Ha Hdot Htxt p' on. subst p'.
  destruct r as [e|status [e|j']]; try discriminate.
  cbn in Ha. destruct (nullish j') eqn:Hn; [discriminate|].
  injection Ha as ->.
  unfold run, pingInternet, try_catch, bind, gets.
  rewrite !bool_decide_eq_true_2 by assumption. cbn [andb].
  unfold lift. rewrite (SubmitFacts.get_ok j "online" Hn). fold on.
  destruct Hdot as [d Hd], Htxt as [t Ht].
  unfold text_of, classes_of.
  destruct on; cbn; rewrite ?lookup_alter_eq, ?lookup_alter_ne by discriminate;
    rewrite ?lookup_alter_eq, ?Hd, ?Ht; cbn; repeat split;
    intros k H1 H2; now rewrite !lookup_alter_ne by congruence.
Qed.

(** *** The log viewer *)

Lemma text_if_twice id s t p : text_if id t (text_if id s p) = text_if id t p.
Proof.
  unfold text_if, with_dom. cbn. f_equal.
  apply map_eq. intros k. destruct (decide (k = id)) as [->|Hne].
  - rewrite !lookup_alter_eq. now destruct (dom p !! id).
  - now rewrite !lookup_alter_ne by congruence.
Qed.

(** X10. With the log box in the document: when the request has settled,
    the box shows the text of the response, whatever its status, or
    ["No log yet."] when that text is empty, or ["Error loading log: "]
    and the error when the request or the reading of its body failed;
    it no longer shows ["Loading log..."] from the pending request
    unless that is the text received.  Nothing but the text of the box
    changes.  Without the box, nothing happens at all. *)
Theorem viewDbLog_shows eng r p :
  (dom p !! "dbLog" = None ->
   viewDbLog_pending p = p /\ viewDbLog eng r p = p)
  /\ (is_Some (dom p !! "dbLog") ->
      text_of (viewDbLog_pending p) "dbLog" = Some "Loading log..."
      /\ (forall status txt, r = TextReply status (Ok txt) ->
            viewDbLog eng r p
            = text_if "dbLog" (if String.eqb txt "" then "No log yet." else txt) p)
      /\ (forall e, r = NoReply e \/ (exists status, r = TextReply status (Throw e)) ->
            viewDbLog eng r p
            = text_if "dbLog" ("Error loading log: " +++ exn_text eng e) p)).
Proof.
  split.
  - intros Hnone. unfold viewDbLog_pending, viewDbLog. now rewrite Hnone.
  - intros [el Hel]. unfold viewDbLog_pending, viewDbLog. rewrite Hel.
    split; [|split].
    + unfold text_of, text_if. cbn. now rewrite lookup_alter_eq, Hel.
    + intros status txt ->. apply text_if_twice.
    + intros e [->|[status ->]]; apply text_if_twice.
Qed.


Lemma ping_failure_changes_nothing_witness :
  run (pingInternet (Rejected (Failure "Failed to fetch"))) Examples.general
  = Examples.general.
Proof.
  apply (proj1 (proj2 (ping_failure_changes_nothing
                         (Rejected (Failure "Failed to fetch"))
                         Examples.general))).
  reflexivity.
Defined.


Lemma ping_shows_online_witness :
  text_of (run (pingInternet
                  (Response 200 (Json (VObj [("online", VBool true)]))))
             Examples.general) "genNetTxt"
  = Some "Online".
Proof.
  apply (proj1 (ping_shows_online
                  (Response 200 (Json (VObj [("online", VBool true)])))
                  (VObj [("online", VBool true)]) Examples.general
                  eq_refl
                  ltac:(eexists; vm_compute; reflexivity)
                  ltac:(eexists; vm_compute; reflexivity))).
Defined.


Lemma viewDbLog_shows_witness :
  viewDbLog Sample.engine0 (TextReply 200 (Ok "")) Examples.general
  = text_if "dbLog" "No log yet." Examples.general.
Proof.
  apply (proj1 (proj2 (proj2 (viewDbLog_shows Sample.engine0
                                 (TextReply 200 (Ok "")) Examples.general)
                         ltac:(eexists; vm_compute; reflexivity)))
           200 "" eq_refl).
Defined.

End NetFacts.

(** ** Failures of the poll, the fast channel and the submit *)

Module EdgeFacts.
Import JS Page Env Spec Telemetry Handlers Clock Net Frame.

(** *** The snapshot poll *)

(** X11. A poll of the full snapshot that is rejected, or answered with
    something that is not JSON, or with [null], changes nothing on the
    page, and nothing is shown about it. *)
Theorem poll_failure_is_silent eng r now now' p :
  answered r = None -> init_refresh eng r now now' p = p.
Proof.
  intros Ha. unfold init_refresh, run, try_catch.
  destruct r as [e|status [e|j]]; try reflexivity.
  cbn in Ha. destruct j; try discriminate; reflexivity.
Qed.






(** *** The fast channel *)

(** X13. A message of the fast channel that is not an object (a number, a
    string, an array, [null]) changes nothing.  Of an object, the
    [cpu] is taken as the last sample only when it is a number, and
    the display is touched only when the object has [freq_khz] or
    [temp_c]; the cache is never written. *)
Theorem telemetry_message_shapes p :
  (forall j, is_object j = false -> run (onmessage j) p = p)
  /\ (forall props,
        lastCpu (run (onmessage (VObj props)) p)
        = match lookup "cpu" props with
          | Some (VNum x) => x
          | _ => lastCpu p
          end)
  /\ (forall props, lookup "freq_khz" props = None ->
        lookup "temp_c" props = None ->
        dom (run (onmessage (VObj props)) p) = dom p)
  /\ (forall j, meta (run (onmessage j) p) = meta p).
Proof.
  split; [|split; [|split]].
  - intros j Hj. destruct j; try discriminate; reflexivity.
  - intros props. unfold run, onmessage, bind, lift, get, has, modify, ret.
    cbn. destruct (lookup "cpu" props) as [[]|]; cbn;
      destruct (lookup "freq_khz" props); cbn;
      destruct (lookup "temp_c" props); cbn;
      try reflexivity;
      match goal with
      | |- lastCpu (setFreqTemp ?f ?t ?q) = _ => destruct t; reflexivity
      end.
  - intros props Hf Ht. unfold run, onmessage, bind, lift, get, has, modify, ret.
    cbn. rewrite Hf, Ht. cbn.
    destruct (lookup "cpu" props) as [[]|]; reflexivity.
  - intros j. apply (keeps_run meta). unfold onmessage.
    repeat first
      [ apply keeps_bind; [|intros ?]
      | apply keeps_if
      | apply keeps_ret | apply keeps_lift
      | apply keeps_modify; intros ?;
        first [reflexivity | apply CacheFacts.setFreqTemp_meta]
      | match goal with
        | |- keeps _ (match ?x with _ => _ end) => destruct x
        end ].
Qed.

(** *** Submitting without a form, or without an answer *)

Lemma read_form_missing ids p :
  Exists (fun id => dom p !! id = None) ids ->
  read_form ids p = (Throw (TypeError "value" VNull), p).
Proof.
  induction ids as [|id ids IH]; intros Hex; [inversion Hex|].
  cbn [read_form]. unfold bind, must.
  destruct (dom p !! id) as [el|] eqn:Hel; [|reflexivity].
  inversion Hex as [? ? Hn|? ? Hrest]; subst; [congruence|].
  now rewrite (IH Hrest).
Qed.

(** X14. When an element of the form is not in the document, [applyConfig]
    throws before the request is made: the message line is cleared
    and nothing else happens, whatever the server would answer. *)
Theorem applyConfig_without_field eng r p :
  Exists (fun id => dom p !! id = None) form_fields ->
  applyConfig eng r p = (Throw (TypeError "value" VNull), sent p).
Proof.
  intros Hex. unfold applyConfig. unfold bind at 1, modify at 1.
  fold (sent p). unfold bind at 1.
  rewrite read_form_missing; [reflexivity|].
  eapply Exists_impl; [exact Hex|]. intros id Hid. cbn.
  destruct (decide (id = "msg")) as [->|Hne].
  - now rewrite lookup_alter_eq, Hid.
  - now rewrite lookup_alter_ne by congruence.
Qed.

Lemma applyConfig_rejected eng e p :
  form_present p ->
  run (applyConfig eng (Rejected e)) p
  = text_if "msg" ("Unexpected error: " +++ exn_text eng e)
      (msg_class "msg-err" (sent p)).
Proof.
  intros Hform. unfold run, applyConfig.
  unfold bind at 1, modify at 1. fold (sent p).
  destruct (SubmitFacts.read_form_ok form_fields (sent p)) as [vs Hvs].
  { unfold form_present in Hform. eapply Forall_impl; [exact Hform|].
    intros id Hid. cbn. now apply SubmitFacts.alter_is_Some. }
  unfold bind at 1. rewrite Hvs. reflexivity.
Qed.

(** X15. With the form and the message line in the document: when the
    request is rejected (the server cannot be reached), the message
    line shows ["Unexpected error: "] and the error, with the class
    [msg-err].  The same is shown when the server accepts the
    configuration with a 2xx status and the body [null]: the success
    is reported as an error. *)
Theorem submit_unexpected_error eng p :
  form_present p -> is_Some (dom p !! "msg") ->
  (forall e,
     let p' := run (applyConfig eng (Rejected e)) p in
     text_of p' "msg" = Some ("Unexpected error: " +++ exn_text eng e)
     /\ classes_of p' "msg" = Some ["mt-3"; "text-sm"; "msg-err"])
  /\ (forall status, status_ok status = true ->
        let p' := run (applyConfig eng (Response status (Json VNull))) p in
        text_of p' "msg"
        = Some ("Unexpected error: "
                +++ exn_text eng (TypeError "message" VNull))
        /\ classes_of p' "msg" = Some ["mt-3"; "text-sm"; "msg-err"]).
Proof.
  intros Hform [el Hel].
  assert (Hshow : forall s q, is_Some (dom q !! "msg") ->
            text_of (text_if "msg" s (msg_class "msg-err" q)) "msg" = Some s
            /\ classes_of (text_if "msg" s (msg_class "msg-err" q)) "msg"
               = Some ["mt-3"; "text-sm"; "msg-err"]).
  { intros s q [m Hm]. unfold text_of, classes_of, text_if, msg_class. cbn.
    rewrite !lookup_alter_eq, Hm. split; reflexivity. }
  assert (Hsent : is_Some (dom (sent p) !! "msg")).
  { unfold sent. cbn. rewrite lookup_alter_eq, Hel. cbn. eauto. }
  split.
  - intros e p'. subst p'. rewrite applyConfig_rejected by assumption.
    now apply Hshow.
  - intros status Hok p'.
    assert (Hp' : p' = text_if "msg"
                         ("Unexpected error: "
                          +++ exn_text eng (TypeError "message" VNull))
                         (msg_class "msg-err" (msg_class "msg-ok" (sent p)))).
    { subst p'. rewrite SubmitFacts.applyConfig_response by assumption.
      cbn [body_json]. unfold run, try_catch, on_response, bind at 1.
      destruct (SubmitFacts.has_msg_true p (sent p) ltac:(eauto)) as [Hhas _].
      rewrite Hhas, Hok. reflexivity. }
    rewrite Hp'. apply Hshow. unfold msg_class, with_dom. cbn [dom].
    apply SubmitFacts.alter_is_Some. exact Hsent.
Qed.


Lemma poll_failure_is_silent_witness :
  init_refresh Sample.engine0 (Response 502 (Json VNull)) 0 0 Sample.locked
  = Sample.locked.
Proof.
  apply (poll_failure_is_silent Sample.engine0 (Response 502 (Json VNull))
           0 0 Sample.locked).
  reflexivity.
Defined.



Lemma telemetry_message_shapes_witness :
  run (onmessage (VNum (Num.of_Z 3))) Sample.locked = Sample.locked
  /\ dom (run (onmessage (VObj [("cpu", VNum (Num.of_Z 3))])) Sample.locked)
     = dom Sample.locked.
Proof.
  split.
  - apply (proj1 (telemetry_message_shapes Sample.locked)
             (VNum (Num.of_Z 3))).
    reflexivity.
  - apply (proj1 (proj2 (proj2 (telemetry_message_shapes Sample.locked)))
             [("cpu", VNum (Num.of_Z 3))]); reflexivity.
Defined.


Lemma applyConfig_without_field_witness :
  applyConfig Sample.engine0 (Response 200 (Json (VObj [])))
    Examples.no_hostname
  = (Throw (TypeError "value" VNull), sent Examples.no_hostname).
Proof.
  apply (applyConfig_without_field Sample.engine0
           (Response 200 (Json (VObj []))) Examples.no_hostname).
  apply Exists_cons_hd. vm_compute. reflexivity.
Defined.


Lemma submit_unexpected_error_witness :
  text_of (run (applyConfig Sample.engine0 (Response 200 (Json VNull)))
             Sample.unlocked_page) "msg"
  = Some ("Unexpected error: "
          +++ exn_text Sample.engine0 (TypeError "message" VNull)).
Proof.
  apply (proj1 (proj2 (submit_unexpected_error Sample.engine0
                         Sample.unlocked_page
                         SubmitFacts.sample_form_present
                         ltac:(eexists; vm_compute; reflexivity))
                  200 eq_refl)).
Defined.

End EdgeFacts.

(** ** The display clock after a sync *)

Module TickFacts.
Import Num Binary Dyadic FloatFacts ExactFacts OpFacts SignFacts.
Import JS Page Env Spec Clock.

Lemma max_time_below : max_time < 2 ^ prec.
Proof. reflexivity. Qed.

Lemma floor_int n : 0 <= n < 2 ^ prec -> floor (of_int n) = of_int n.
Proof.
  intros Hn. rewrite of_int_dyadic at 1 by assumption.
  rewrite floor_dyadic by (unfold emin, emax, prec in *; lia).
  now rewrite Z.pow_0_r, Z.div_1_r.
Qed.

(** A whole number of milliseconds in the range of dates is the time
    value of its date. *)
Lemma time_clip_int c :
  Z.abs c <= max_time -> time_clip (of_int c) = of_int c.
Proof.
  intros Hc. pose proof max_time_below as Hmax.
  unfold time_clip.
  assert (Habs : SFabs (of_int c) = of_int (Z.abs c)) by now destruct c.
  assert (Hfin : is_finite (of_int c) = true) by now destruct c.
  rewrite Hfin, Habs, (of_Z_of_int max_time) by (rewrite Z.abs_eq; lia).
  rewrite le_of_int by lia. cbn [andb].
  destruct c as [|p|p]; [reflexivity| |].
  - change (trunc (of_int (Z.pos p))) with (floor (of_int (Z.pos p))).
    apply floor_int. cbn in Hc. lia.
  - assert (Hp : 0 <= Z.pos p < 2 ^ prec) by (cbn in Hc; lia).
    pose proof (floor_int (Z.pos p) Hp) as Hf.
    destruct (of_int_pos p ltac:(lia)) as (m & Hof & Hof' & _).
    rewrite Hof', Hof in *. cbn [trunc]. rewrite Hf. reflexivity.
Qed.

Lemma is_nan_of_int c : is_nan (of_int c) = false.
Proof. now destruct c. Qed.

(** The date a tick works with, for a whole offset. *)
Lemma tick_date t off :
  Z.abs t <= max_time -> Z.abs off < 2 ^ prec -> Z.abs (t + off) <= max_time ->
  time_clip (add (of_Z t) (of_Z off)) = of_Z (t + off).
Proof.
  intros Ht Hoff Hsum. pose proof max_time_below as Hmax.
  rewrite !of_Z_of_int by lia.
  rewrite add_int by lia. now apply time_clip_int.
Qed.

Lemma shown_text_if id s p :
  is_Some (dom p !! id) -> text_of (text_if id s p) id = Some s.
Proof.
  intros [el Hel]. unfold text_of, text_if. cbn.
  now rewrite lookup_alter_eq, Hel.
Qed.

Lemma text_of_other id id' s p :
  id <> id' -> text_of (text_if id' s p) id = text_of p id.
Proof.
  intros Hne. unfold text_of, text_if. cbn.
  now rewrite lookup_alter_ne by congruence.
Qed.

(** X17. When the server's time is a string that the engine reads as the
    date [S], and the browser's clock reads [now], the offset that
    [syncClockFromServer] keeps is [S - now] exactly.  From then on,
    on any page that still has this offset, a tick at the browser time
    [t] shows the date and the time of [S + (t - now)]: the server's
    time plus the time that has passed in the browser.  The times are
    in the range of dates, and the two clocks are less than [2 ^ 53]
    milliseconds apart. *)
Theorem synced_clock_shows_server_time eng s S now now' t p q :
  s <> "" -> date_parse eng s = Some S ->
  Z.abs S <= max_time -> Z.abs now <= max_time -> Z.abs (S - now) < 2 ^ 53 ->
  devTimeOffsetMs q
  = devTimeOffsetMs (run (syncClockFromServer eng (VStr s) now now') p) ->
  Z.abs t <= max_time -> Z.abs (S + (t - now)) <= max_time ->
  devTimeOffsetMs (run (syncClockFromServer eng (VStr s) now now') p)
  = of_Z (S - now)
  /\ (is_Some (dom q !! "genDate") ->
      text_of (updateGeneralClockTick eng t q) "genDate"
      = Some (toLocaleDateString eng (of_Z (S + (t - now)))))
  /\ (is_Some (dom q !! "genTime") ->
      text_of (updateGeneralClockTick eng t q) "genTime"
      = Some (toLocaleTimeString eng (of_Z (S + (t - now))))).
Proof.
  intros Hs Hparse HS Hnow Hdiff Hq Ht Hsum.
  pose proof max_time_below as Hmax.
  assert (Hoff : devTimeOffsetMs
                   (run (syncClockFromServer eng (VStr s) now now') p)
                 = of_Z (S - now)).
  { unfold run, syncClockFromServer. cbn [to_boolean].
    destruct (String.eqb_spec s ""); [contradiction|]. cbn [negb].
    unfold bind, lift, modify. cbn [date_value]. unfold parse_time.
    rewrite Hparse, (of_Z_of_int S) by lia.
    rewrite time_clip_int, is_nan_of_int by assumption. cbn [snd].
    unfold updateGeneralClockTick, text_if, with_dom, with_offset.
    cbn [devTimeOffsetMs].
    rewrite (of_Z_of_int now), (of_Z_of_int (S - now)) by (unfold prec in *; lia).
    apply sub_int; unfold prec in *; lia. }
  split; [exact Hoff|].
  rewrite Hoff in Hq.
  assert (Hd : time_clip (add (of_Z t) (devTimeOffsetMs q))
               = of_Z (S + (t - now))).
  { rewrite Hq, tick_date by (unfold prec in *; lia). f_equal. lia. }
  unfold updateGeneralClockTick. rewrite Hd. split.
  - intros Hel. rewrite text_of_other by discriminate.
    now apply shown_text_if.
  - intros Hel. apply shown_text_if.
    destruct Hel as [el Hel]. unfold text_if. cbn.
    rewrite lookup_alter_ne by discriminate. eauto.
Qed.

Lemma synced_clock_shows_server_time_witness :
  text_of (updateGeneralClockTick Sample.engine0 3000
             (run (syncClockFromServer Sample.engine0
                     (VStr "1970-01-02T00:00:00Z") 1000 1000) Sample.locked))
    "genTime"
  = Some (toLocaleTimeString Sample.engine0 (of_Z (86400000 + (3000 - 1000)))).
Proof.
  apply (proj2 (proj2 (synced_clock_shows_server_time Sample.engine0
           "1970-01-02T00:00:00Z" 86400000 1000 1000 3000 Sample.locked
           (run (syncClockFromServer Sample.engine0
                   (VStr "1970-01-02T00:00:00Z") 1000 1000) Sample.locked)
           ltac:(discriminate) eq_refl
           ltac:(unfold max_time; lia) ltac:(unfold max_time; lia)
           ltac:(lia) eq_refl
           ltac:(unfold max_time; lia) ltac:(unfold max_time; lia)))).
  eexists. vm_compute. reflexivity.
Defined.

End TickFacts.

(** ** The form follows the lock *)

Module CoherenceFacts.
Import JS Page Env Spec Lock Handlers Frame Coherence.

Lemma enabled_disabled_of p k :
  enabled p k = match disabled_of p k with
                | Some d => negb d
                | None => false
                end.
Proof. unfold enabled, disabled_of. now destruct (dom p !! k). Qed.

Lemma is_Some_disabled_of p k : is_Some (dom p !! k) <-> is_Some (disabled_of p k).
Proof. unfold disabled_of. now rewrite fmap_is_Some. Qed.

(** The invariant depends on the controls only. *)
Lemma follows_controls p q :
  (forall k, controls k q = controls k p) ->
  form_follows_lock p -> form_follows_lock q.
Proof.
  intros Hc (Hl & Ha & Hn & Ht).
  assert (Hu : unlocked q = unlocked p) by (specialize (Hc ""); now injection Hc).
  assert (Hw : win_unlocked q = win_unlocked p)
    by (specialize (Hc ""); now injection Hc).
  assert (Hd : forall k, disabled_of q k = disabled_of p k)
    by (intros k; specialize (Hc k); now injection Hc).
  assert (Hvn : value_of q "network_mode" = value_of p "network_mode")
    by (specialize (Hc ""); now injection Hc).
  assert (Hvt : value_of q "time_source" = value_of p "time_source")
    by (specialize (Hc ""); now injection Hc).
  assert (He : forall k, enabled q k = enabled p k)
    by (intros k; now rewrite !enabled_disabled_of, Hd).
  assert (Hs : forall k, is_Some (dom q !! k) <-> is_Some (dom p !! k))
    by (intros k; now rewrite !is_Some_disabled_of, Hd).
  repeat split.
  - unfold lock_agrees. now rewrite Hw, Hu.
  - intros Hb. rewrite He, Hu. apply Ha. now apply Hs.
  - intros id sel Hin Hid Hv. rewrite He, Hu. apply Hn; try assumption.
    + now apply Hs.
    + now rewrite <- Hvn.
  - intros id sel Hin Hid Hv. rewrite He, Hu. apply Ht; try assumption.
    + now apply Hs.
    + now rewrite <- Hvt.
Qed.

(** *** What leaves the controls alone *)

Lemma controls_alter (f : Dom.element -> Dom.element) id k p :
  (forall el, Dom.disabled (f el) = Dom.disabled el) ->
  (forall el, Dom.value (f el) = Dom.value el)
  \/ (id <> "network_mode" /\ id <> "time_source") ->
  controls k (with_dom (alter f id) p) = controls k p.
Proof.
  intros Hd Hv. unfold controls, disabled_of, value_of. cbn.
  assert (H1 : Dom.disabled <$> alter f id (dom p) !! k
               = Dom.disabled <$> dom p !! k).
  { destruct (decide (k = id)) as [->|Hne].
    - rewrite lookup_alter_eq. destruct (dom p !! id); cbn; [now rewrite Hd|easy].
    - now rewrite lookup_alter_ne by congruence. }
  assert (H2 : forall s, s = "network_mode" \/ s = "time_source" ->
             Dom.value <$> alter f id (dom p) !! s = Dom.value <$> dom p !! s).
  { intros s Hs. destruct (decide (s = id)) as [->|Hne].
    - rewrite lookup_alter_eq. destruct Hv as [Hv|[Hn Ht]].
      + destruct (dom p !! id); cbn; [now rewrite Hv|easy].
      + destruct Hs; congruence.
    - now rewrite lookup_alter_ne by congruence. }
  now rewrite H1, !H2 by auto.
Qed.

Lemma controls_text_if id s k p : controls k (text_if id s p) = controls k p.
Proof. apply controls_alter; [reflexivity|now left]. Qed.

Lemma class_add_disabled c el :
  Dom.disabled (Dom.class_add c el) = Dom.disabled el
  /\ Dom.value (Dom.class_add c el) = Dom.value el.
Proof. unfold Dom.class_add. now destruct (Dom.has_class c el). Qed.

Lemma controls_setFreqTemp f t k p :
  controls k (Telemetry.setFreqTemp f t p) = controls k p.
Proof.
  unfold Telemetry.setFreqTemp.
  destruct t; rewrite ?controls_text_if;
    (rewrite controls_alter; [apply controls_text_if|reflexivity|now left]).
Qed.

Lemma controls_tick eng now k p :
  controls k (Clock.updateGeneralClockTick eng now p) = controls k p.
Proof. unfold Clock.updateGeneralClockTick. now rewrite !controls_text_if. Qed.

Ltac quiet :=
  repeat first
    [ apply keeps_bind; [|intros ?]
    | apply keeps_try; [|intros ?]
    | apply keeps_if
    | apply keeps_ret | apply keeps_throw | apply keeps_lift
    | apply keeps_gets | apply keeps_must
    | apply keeps_modify; intros ?;
      first [ reflexivity
            | apply controls_text_if
            | apply controls_setFreqTemp
            | apply controls_tick
            | apply controls_alter;
              [ intros ?; first [reflexivity | apply class_add_disabled]
              | first [ left; intros ?;
                        first [reflexivity | apply class_add_disabled]
                      | right; split; discriminate ] ] ]
    | match goal with
      | |- keeps _ (match ?x with _ => _ end) => destruct x
      end ].

Lemma quiet_unlockFlow k : keeps (controls k) unlockFlow.
Proof. unfold unlockFlow. quiet. Qed.

Lemma quiet_setMetaFull k j : keeps (controls k) (Telemetry.setMetaFull j).
Proof.
  unfold Telemetry.setMetaFull, Telemetry.merge, Telemetry.render_load,
    Telemetry.render_governor.
  quiet.
Qed.

Lemma quiet_onmessage k j : keeps (controls k) (Telemetry.onmessage j).
Proof. unfold Telemetry.onmessage. quiet. Qed.

Lemma quiet_applyConfig eng k r : keeps (controls k) (applyConfig eng r).
Proof.
  unfold applyConfig. apply keeps_bind; [quiet|intros _].
  apply keeps_bind.
  { generalize form_fields. intros ids.
    induction ids as [|id ids IH]; cbn [read_form]; quiet. exact IH. }
  intros _. unfold on_response, has_msg, msg_class, msg_append. quiet.
Qed.

Lemma quiet_poll eng k r now now' p :
  controls k (Clock.init_refresh eng r now now' p) = controls k p.
Proof.
  unfold Clock.init_refresh. apply (keeps_run (controls k)).
  apply keeps_try; [|intros; apply keeps_ret].
  destruct r as [e|status [e|j]]; try apply keeps_throw.
  apply keeps_bind; [apply quiet_setMetaFull|intros _].
  unfold Clock.syncClockFromServer. quiet.
Qed.

Lemma quiet_unlock_failed k j : keeps (controls k) (unlock_failed j).
Proof. unfold unlock_failed. quiet. Qed.

(** *** What sets the controls *)

Lemma dim_value off el : Dom.value (dim off el) = Dom.value el.
Proof.
  unfold dim, Dom.class_toggle, Dom.class_add, Dom.class_remove.
  destruct off; [destruct (Dom.has_class _ _)|]; reflexivity.
Qed.

Lemma dependent_value selector activating fields p k :
  NoDup fields ->
  value_of (dependent selector activating fields p) k = value_of p k.
Proof.
  intros Hnd. unfold value_of, dependent.
  destruct (dom p !! selector); [|reflexivity]. cbn.
  rewrite FieldFacts.fold_alter_lookup by assumption.
  destruct (bool_decide (k ∈ fields)); [|reflexivity].
  destruct (dom p !! k); cbn; [now rewrite dim_value|reflexivity].
Qed.

Lemma dependent_is_Some selector activating fields p k :
  NoDup fields ->
  is_Some (dom (dependent selector activating fields p) !! k)
  <-> is_Some (dom p !! k).
Proof.
  intros Hnd. unfold dependent. destruct (dom p !! selector); [|reflexivity].
  cbn. rewrite FieldFacts.fold_alter_lookup by assumption.
  destruct (bool_decide (k ∈ fields)); [|reflexivity].
  now rewrite fmap_is_Some.
Qed.

Lemma dependent_enabled_other selector activating fields p k :
  NoDup fields -> k ∉ fields ->
  enabled (dependent selector activating fields p) k = enabled p k.
Proof.
  intros Hnd Hk. unfold enabled.
  now rewrite FieldFacts.dependent_other by assumption.
Qed.

(** Recomputing the fields of one selector makes them follow, and
    keeps what the other fields and the apply button do. *)
Lemma dependent_follows selector activating fields other_sel other_act other p :
  NoDup fields -> selector ∉ fields -> other_sel ∉ fields ->
  "applyBtn" ∉ fields -> (forall id, id ∈ other -> id ∉ fields) ->
  lock_agrees p -> apply_follows p ->
  fields_follow other_sel other_act other p ->
  let q := dependent selector activating fields p in
  lock_agrees q /\ apply_follows q
  /\ fields_follow selector activating fields q
  /\ fields_follow other_sel other_act other q.
Proof.
  intros Hnd Hsel Hosel Hbtn Hdisj Hl Ha Ho q.
  assert (Hu : unlocked q = unlocked p) by apply LockFacts.dependent_unlocked.
  assert (Hw : win_unlocked q = win_unlocked p) by apply FieldFacts.dependent_win.
  split; [|split; [|split]].
  - unfold lock_agrees. now rewrite Hw, Hu.
  - intros Hb. subst q. rewrite dependent_enabled_other, Hu by assumption.
    apply Ha. now apply dependent_is_Some in Hb.
  - intros id sel Hin Hid Hv. rewrite Hu. subst q.
    rewrite dependent_value in Hv by assumption.
    apply dependent_is_Some in Hid; [|assumption].
    unfold value_of in Hv. destruct (dom p !! selector) as [s|] eqn:Hs;
      [|discriminate]. injection Hv as <-.
    rewrite (FieldFacts.dependent_enabled selector activating fields p s id)
      by assumption.
    now rewrite Hl.
  - intros id sel Hin Hid Hv. rewrite Hu. subst q.
    rewrite dependent_value in Hv by assumption.
    apply dependent_is_Some in Hid; [|assumption].
    rewrite dependent_enabled_other by auto. now apply Ho.
Qed.

Lemma nodup_network : NoDup network_fields.
Proof. compute_done. Qed.

Lemma nodup_time : NoDup time_fields.
Proof. compute_done. Qed.

Lemma time_not_network id : id ∈ time_fields -> id ∉ network_fields.
Proof. intros Ht Hn. now apply (FieldFacts.fields_disjoint id). Qed.

Lemma network_others :
  ("network_mode" ∉ network_fields) /\ ("time_source" ∉ network_fields)
  /\ ("applyBtn" ∉ network_fields).
Proof. repeat split; compute_done. Qed.

Lemma time_others :
  ("time_source" ∉ time_fields) /\ ("network_mode" ∉ time_fields)
  /\ ("applyBtn" ∉ time_fields).
Proof. repeat split; compute_done. Qed.

Lemma network_follows p :
  lock_agrees p -> apply_follows p ->
  fields_follow "time_source" "manual" time_fields p ->
  form_follows_lock (setNetworkFieldState p).
Proof.
  intros Hl Ha Ht. destruct network_others as (N1 & N2 & N3).
  destruct (dependent_follows "network_mode" "static" network_fields
              "time_source" "manual" time_fields p
              nodup_network N1 N2 N3 time_not_network Hl Ha Ht)
    as (H1 & H2 & H3 & H4).
  repeat split; assumption.
Qed.

Lemma time_follows p :
  lock_agrees p -> apply_follows p ->
  fields_follow "network_mode" "static" network_fields p ->
  form_follows_lock (setTimeFieldState p).
Proof.
  intros Hl Ha Hn. destruct time_others as (T1 & T2 & T3).
  destruct (dependent_follows "time_source" "manual" time_fields
              "network_mode" "static" network_fields p
              nodup_time T1 T2 T3 FieldFacts.fields_disjoint Hl Ha Hn)
    as (H1 & H2 & H3 & H4).
  repeat split; assumption.
Qed.

Lemma nothing_follows selector activating p : fields_follow selector activating [] p.
Proof. intros id sel Hin. inversion Hin. Qed.

(** Whatever the page was, after [refresh()] of [initLockUI] the form
    follows the lock. *)
Lemma lock_refresh_follows p : form_follows_lock (lock_refresh p).
Proof.
  unfold lock_refresh.
  apply (follows_controls (setEditable (unlocked p) p)).
  { intros k. now rewrite !controls_text_if. }
  unfold setEditable.
  set (p3 := with_dom (alter _ "applyBtn") _).
  assert (Hl3 : lock_agrees p3) by reflexivity.
  assert (Ha3 : apply_follows p3).
  { unfold apply_follows, enabled. subst p3.
    cbn [dom with_dom with_win_unlocked unlocked].
    rewrite lookup_alter_eq, lookup_fmap.
    destruct (dom p !! "applyBtn"); cbn; intros Hb;
      [apply negb_involutive|now destruct Hb]. }
  destruct network_others as (N1 & N2 & N3).
  destruct (dependent_follows "network_mode" "static" network_fields
              "time_source" "manual" [] p3
              nodup_network N1 N2 N3 ltac:(intros id Hid; inversion Hid)
              Hl3 Ha3 (nothing_follows _ _ _))
    as (H1 & H2 & H3 & _).
  now apply time_follows.
Qed.

(** *** Every handler keeps the form following the lock *)

Lemma stays_quiet {A} (c : M A) : (forall k, keeps (controls k) c) -> stays c.
Proof.
  intros Hk p Hp. apply (follows_controls p); [|exact Hp].
  intros k. apply Hk.
Qed.

Lemma stays_bind {A C} (c : M A) (k : A -> M C) :
  stays c -> (forall a, stays (k a)) -> stays (bind c k).
Proof.
  intros Hc Hk p Hp. unfold bind. specialize (Hc p Hp).
  destruct (c p) as [[a|e] p']; cbn [snd] in *; [now apply Hk|exact Hc].
Qed.

Lemma stays_try {A} (c : M A) (h : exn -> M A) :
  stays c -> (forall e, stays (h e)) -> stays (try_catch c h).
Proof.
  intros Hc Hh p Hp. unfold try_catch. specialize (Hc p Hp).
  destruct (c p) as [[a|e] p']; cbn [snd] in *; [exact Hc|now apply Hh].
Qed.

Lemma stays_modify (f : page -> page) :
  (forall p, form_follows_lock p -> form_follows_lock (f p)) -> stays (modify f).
Proof. intros H p Hp. now apply H. Qed.

Lemma done_follows ok p : form_follows_lock p -> form_follows_lock (done ok p).
Proof.
  intros Hp. unfold done.
  set (p1 := with_dom (alter (Dom.class_add "hidden") "unlockModal") p).
  assert (H1 : form_follows_lock p1).
  { apply (follows_controls p); [|exact Hp]. intros k. subst p1.
    apply controls_alter; [intros el; apply class_add_disabled|].
    left. intros el. apply class_add_disabled. }
  destruct (pending (dlg p1)); [|exact H1].
  destruct ok; [apply lock_refresh_follows|].
  apply (follows_controls p1); [|exact H1]. reflexivity.
Qed.

Lemma lockButton_follows r p :
  form_follows_lock p -> form_follows_lock (lockButton r p).
Proof.
  intros Hp. unfold lockButton. destruct (dom p !! "unlockBtn") as [el|]; [|exact Hp].
  destruct (unlocked p).
  - destruct r as [e|status b]; [exact Hp|]. apply lock_refresh_follows.
  - apply (follows_controls p); [|exact Hp]. intros k.
    apply (keeps_run (controls k)), quiet_unlockFlow.
Qed.

Lemma confirmUnlock_follows eng r p :
  form_follows_lock p -> form_follows_lock (confirmUnlock eng r p).
Proof.
  intros Hp. unfold confirmUnlock. destruct (confirm_on (dlg p)); [|exact Hp].
  revert p Hp. apply stays_try.
  - assert (Hf : forall j, stays (unlock_failed j))
      by (intros j; apply stays_quiet; intros k; apply quiet_unlock_failed).
    destruct r as [e|status [e|j]];
      try (apply stays_quiet; intros k; apply keeps_throw).
    destruct (status_ok status); [|apply Hf].
    apply stays_bind; [apply stays_quiet; intros k; apply keeps_lift|].
    intros ok. destruct (to_boolean ok); [|apply Hf].
    apply stays_modify. apply done_follows.
  - intros e. apply stays_quiet. intros k. apply keeps_modify. intros q.
    apply controls_text_if.
Qed.

(** Putting a value into a selector leaves to the fields of the other
    selector what they follow. *)
Lemma select_keeps selector v other_sel other_act other p :
  selector <> other_sel ->
  lock_agrees p -> apply_follows p -> fields_follow other_sel other_act other p ->
  let q := with_dom (alter (Dom.set_value v) selector) p in
  lock_agrees q /\ apply_follows q /\ fields_follow other_sel other_act other q.
Proof.
  intros Hne Hl Ha Ho q.
  assert (Hd : forall k, disabled_of q k = disabled_of p k).
  { intros k. unfold disabled_of. subst q. cbn.
    destruct (decide (k = selector)) as [->|Hk].
    - rewrite lookup_alter_eq. now destruct (dom p !! selector).
    - now rewrite lookup_alter_ne by congruence. }
  assert (He : forall k, enabled q k = enabled p k)
    by (intros k; now rewrite !enabled_disabled_of, Hd).
  assert (Hs : forall k, is_Some (dom q !! k) <-> is_Some (dom p !! k))
    by (intros k; now rewrite !is_Some_disabled_of, Hd).
  split; [exact Hl|]. split.
  - intros Hb. rewrite He. apply Ha. now apply Hs.
  - intros id sel Hin Hid Hv. rewrite He. apply Ho; [assumption|now apply Hs|].
    revert Hv. unfold value_of. subst q. cbn.
    now rewrite lookup_alter_ne by congruence.
Qed.

Lemma handle_follows eng ev p :
  form_follows_lock p -> form_follows_lock (Events.handle eng ev p).
Proof.
  intros Hp. destruct ev as [r| |r|v|v|r|r now now'|j|now]; cbn [Events.handle].
  - now apply lockButton_follows.
  - unfold cancelUnlock. destruct (cancel_on (dlg p)); [|exact Hp].
    now apply done_follows.
  - now apply confirmUnlock_follows.
  - destruct Hp as (Hl & Ha & Hn & Ht).
    destruct (select_keeps "network_mode" v "time_source" "manual" time_fields p)
      as (H1 & H2 & H3); try assumption; [discriminate|].
    now apply network_follows.
  - destruct Hp as (Hl & Ha & Hn & Ht).
    destruct (select_keeps "time_source" v "network_mode" "static" network_fields p)
      as (H1 & H2 & H3); try assumption; [discriminate|].
    now apply time_follows.
  - destruct (dom p !! "applyBtn") as [el|]; [|exact Hp].
    apply (follows_controls p); [|exact Hp]. intros k.
    apply (keeps_run (controls k)), quiet_applyConfig.
  - apply (follows_controls p); [|exact Hp]. intros k. apply quiet_poll.
  - apply (follows_controls p); [|exact Hp]. intros k.
    apply (keeps_run (controls k)), quiet_onmessage.
  - apply (follows_controls p); [|exact Hp]. intros k. apply controls_tick.
Qed.

(** X16. From [init] on, whatever the document, the value of
    [window.IS_UNLOCKED], the events and the replies of the server: the
    two records of the lock state agree, the apply button is enabled
    exactly when the page is unlocked, and each dependent field is
    enabled exactly when the page is unlocked and its selector holds
    the activating value. *)
Theorem form_always_follows_lock eng is_unlocked p0 evs :
  form_follows_lock
    (Events.handle_all eng evs (Events.init is_unlocked p0)).
Proof.
  assert (Hinit : form_follows_lock (Events.init is_unlocked p0)).
  { unfold Events.init, initLockUI.
    destruct (lock_refresh_follows
                (with_unlocked (to_boolean is_unlocked) p0))
      as (Hl & Ha & Hn & Ht).
    destruct (network_follows _ Hl Ha Ht) as (Hl' & Ha' & Hn' & Ht').
    now apply time_follows. }
  revert Hinit. generalize (Events.init is_unlocked p0).
  induction evs as [|ev evs IH]; intros p Hp; [exact Hp|].
  cbn [Events.handle_all fold_left]. apply IH. now apply handle_follows.
Qed.

End CoherenceFacts.
